(** * JobOps: job/task lifecycle, equipment ledger, overdue sweep, dashboard

    A shallow embedding of the Django application under [jobops/jobs]:
    [models.py], [permissions.py], [tasks.py], [serializers.py] and
    [views.py].  Tables are lists of rows, the ORM calls the code makes
    ([filter], [exclude], [update], [order_by], [get_object_or_404]) are
    list functions, and a view is a function from the database and the
    request to an outcome and the database it leaves behind. *)

From Stdlib Require Import ZArith List String Bool Lia Sorted.
Import ListNotations.
Open Scope Z_scope.

(* ================================================================== *)
(** * Values *)

(** A [DateTimeField] value: an aware datetime, counted in microseconds
    since the epoch.  [datetime.date()] keeps the day number. *)
Definition datetime := Z.
Definition date := Z.

Definition microseconds_per_day : Z := 86400000000.

Definition datetime_date (d : datetime) : date := d / microseconds_per_day.

(** Python truthiness of an optional datetime: only [None] is falsy. *)
Definition truthy {A : Type} (o : option A) : bool :=
  match o with Some _ => true | None => false end.

(** [x in [s1, s2, ...]] on strings. *)
Definition str_in (x : string) (l : list string) : bool :=
  existsb (String.eqb x) l.

(* ================================================================== *)
(** * models.py *)

Module User.
Record t := mk
  { id : Z;
    role : string }.
End User.

(** [request.user]: an account, or Django's [AnonymousUser], which has no
    [role] attribute. *)
Inductive RequestUser :=
| AnonymousUser
| AuthUser (u : User.t).

Module Job.
Definition STATUS_CHOICES : list string :=
  ["PENDING"; "IN_PROGRESS"; "COMPLETED"; "CANCELLED"]%string.

Definition PRIORITY_CHOICES : list string :=
  ["LOW"; "MEDIUM"; "HIGH"; "URGENT"]%string.

(** [created_by] and [assigned_to] hold the primary key of the user row;
    the [auto_now] column [updated_at] is bookkeeping no operation below
    reads and is left out. *)
Record t := mk
  { id : Z;
    title : string;
    description : string;
    client_name : string;
    scheduled_date : option datetime;
    status : string;
    priority : string;
    created_by : Z;
    assigned_to : Z;
    created_at : datetime;
    overdue : bool }.

Definition set_status (s : string) (j : t) : t :=
  mk (id j) (title j) (description j) (client_name j) (scheduled_date j)
     s (priority j) (created_by j) (assigned_to j) (created_at j)
     (overdue j).

Definition set_overdue (b : bool) (j : t) : t :=
  mk (id j) (title j) (description j) (client_name j) (scheduled_date j)
     (status j) (priority j) (created_by j) (assigned_to j) (created_at j)
     b.
End Job.

Module JobTask.
Definition STATUS_CHOICES : list string :=
  ["NOT_STARTED"; "IN_PROGRESS"; "COMPLETED"]%string.

(** [job] holds the primary key of the parent job. *)
Record t := mk
  { id : Z;
    title : string;
    description : string;
    order : Z;
    completed_at : option datetime;
    status : string;
    job : Z }.
End JobTask.

Module Equipment.
Record t := mk
  { id : Z;
    name : string;
    eq_type : string;
    serial_number : string;
    is_active : bool }.
End Equipment.

Module JobTaskEquipment.
(** [job_task] holds the primary key of the task.  [equipment] is the
    related catalog row as the ORM hands it out ([req.equipment]);
    [on_delete=RESTRICT] keeps that row alive as long as this one is. *)
Record t := mk
  { id : Z;
    job_task : Z;
    equipment : Equipment.t;
    quantity : Z;
    notes : string }.

Definition equipment_id (r : t) : Z := Equipment.id (equipment r).
End JobTaskEquipment.

(** The relational store: one list of rows per table, and the sequence
    that hands out primary keys of [job_task_equipment]. *)
Record DB := mkDB
  { jobs : list Job.t;
    job_tasks : list JobTask.t;
    equipment_catalog : list Equipment.t;
    job_task_equipment : list JobTaskEquipment.t;
    job_task_equipment_seq : Z }.

Definition with_jobs (js : list Job.t) (db : DB) : DB :=
  mkDB js (job_tasks db) (equipment_catalog db) (job_task_equipment db)
       (job_task_equipment_seq db).

Definition with_job_tasks (ts : list JobTask.t) (db : DB) : DB :=
  mkDB (jobs db) ts (equipment_catalog db) (job_task_equipment db)
       (job_task_equipment_seq db).

Definition with_job_task_equipment
  (rs : list JobTaskEquipment.t) (seq : Z) (db : DB) : DB :=
  mkDB (jobs db) (job_tasks db) (equipment_catalog db) rs seq.

(* ================================================================== *)
(** * The ORM calls the code uses *)

Module QuerySet.
Section Rows.
Context {A : Type}.

(** [qs.exclude(p)] keeps the rows on which [p] does not hold. *)
Definition exclude (p : A -> bool) (qs : list A) : list A :=
  filter (fun r => negb (p r)) qs.

(** [qs.exists()]. *)
Definition exists_ (qs : list A) : bool :=
  match qs with [] => false | _ :: _ => true end.

(** [qs.count()]. *)
Definition count (qs : list A) : nat := List.length qs.

(** [table.filter(p).update(...)]: one bulk statement; it returns the
    number of rows matched and rewrites exactly those rows. *)
Definition update (p : A -> bool) (f : A -> A) (table : list A)
  : nat * list A :=
  (List.length (filter p table), map (fun r => if p r then f r else r) table).

(** [qs.order_by(key)], ascending and stable. *)
Fixpoint insert_by (key : A -> Z) (x : A) (l : list A) : list A :=
  match l with
  | [] => [x]
  | y :: l' => if key x <? key y then x :: l else y :: insert_by key x l'
  end.

Fixpoint order_by (key : A -> Z) (qs : list A) : list A :=
  match qs with
  | [] => []
  | x :: qs' => insert_by key x (order_by key qs')
  end.

(** [Model.objects.get(id=pk)], [None] when no row has that key. *)
Definition get (pk_of : A -> Z) (pk : Z) (table : list A) : option A :=
  find (fun r => pk_of r =? pk) table.

(** [instance.save()] of a row that exists: the row with that primary
    key is replaced.  The views save a row whose key, job and order are
    as they were read, which a database that holds its constraints does
    not refuse; the save that can be refused is [JobTask_save] below. *)
Definition save (pk_of : A -> Z) (r : A) (table : list A) : list A :=
  map (fun r' => if pk_of r' =? pk_of r then r else r') table.
End Rows.
End QuerySet.

(* ================================================================== *)
(** * tasks.py *)

Module Tasks.
(** The lookup [scheduled_date__lt=now].  A row whose [scheduled_date]
    is NULL does not match, and Django's [exclude] keeps Python's reading
    of [None] (it adds [IS NOT NULL] under the negation), so the excluded
    set is the plain complement. *)
Definition scheduled_date__lt (now : datetime) (j : Job.t) : bool :=
  match Job.scheduled_date j with
  | Some d => d <? now
  | None => false
  end.

Definition status__in (l : list string) (j : Job.t) : bool :=
  str_in (Job.status j) l.

Record Report := mkReport
  { marked_overdue : nat;
    cleared_overdue : nat;
    timestamp : datetime }.

(** The filter of the first pass. *)
Definition overdue_jobs (now : datetime) (j : Job.t) : bool :=
  scheduled_date__lt now j
  && status__in ["PENDING"; "IN_PROGRESS"]%string j
  && Bool.eqb (Job.overdue j) false.

(** The filter of the second pass: [filter(overdue=True).exclude(...)]. *)
Definition not_overdue_jobs (now : datetime) (j : Job.t) : bool :=
  Bool.eqb (Job.overdue j) true
  && negb (scheduled_date__lt now j
           && status__in ["PENDING"; "IN_PROGRESS"]%string j).

(** [check_overdue_jobs], with [timezone.now()] read once and passed in.
    The report carries the datetime itself, not its ISO rendering. *)
Definition check_overdue_jobs (now : datetime) (db : DB) : Report * DB :=
  let '(updated_count, jobs1) :=
    QuerySet.update (overdue_jobs now) (Job.set_overdue true) (jobs db) in
  let '(cleared_count, jobs2) :=
    QuerySet.update (not_overdue_jobs now) (Job.set_overdue false) jobs1 in
  (mkReport updated_count cleared_count now, with_jobs jobs2 db).

(** The same two statements in the other order, to compare with. *)
Definition check_overdue_jobs_clear_first (now : datetime) (db : DB)
  : Report * DB :=
  let '(cleared_count, jobs1) :=
    QuerySet.update (not_overdue_jobs now) (Job.set_overdue false) (jobs db) in
  let '(updated_count, jobs2) :=
    QuerySet.update (overdue_jobs now) (Job.set_overdue true) jobs1 in
  (mkReport updated_count cleared_count now, with_jobs jobs2 db).
End Tasks.

(* ================================================================== *)
(** * Outcomes of a request *)

(** What the code raises instead of returning a [Response]. *)
Inductive Exception :=
| PermissionDenied   (* [check_permissions] refused the request *)
| Http404            (* [get_object_or_404] / [get_object] found no row *)
| DoesNotExist        (* a forward relation found no row *)
| ValidationError    (* [serializer.is_valid(raise_exception=True)] *)
| IntegrityError     (* the database refused a row *)
| KeyError           (* [d[key]] on a dict without that key *)
| AttributeError.    (* an attribute the object does not have *)

Inductive Result (A : Type) :=
| Ok (a : A)
| Raise (e : Exception).

Arguments Ok {A} a.
Arguments Raise {A} e.

(** A request handler reads and writes the store and may raise.  Django
    runs in autocommit mode unless told otherwise, so what was written
    before an exception stays written. *)
Definition M (A : Type) : Type := DB -> Result A * DB.

Definition ret {A : Type} (a : A) : M A := fun db => (Ok a, db).

Definition raise {A : Type} (e : Exception) : M A := fun db => (Raise e, db).

Definition bind {A B : Type} (m : M A) (k : A -> M B) : M B :=
  fun db =>
    match m db with
    | (Ok a, db') => k a db'
    | (Raise e, db') => (Raise e, db')
    end.

Definition query {A : Type} (q : DB -> A) : M A := fun db => (Ok (q db), db).

Definition modify (f : DB -> DB) : M unit := fun db => (Ok tt, f db).

(** A computation that does not touch the store, run inside a request. *)
Definition lift {A : Type} (r : Result A) : M A := fun db => (r, db).

Declare Scope request_scope.
Delimit Scope request_scope with request.

Notation "x <- m ;; k" := (bind m (fun x => k))
  (at level 100, m at next level, right associativity) : request_scope.
Notation "m ;; k" := (bind m (fun _ => k))
  (at level 100, right associativity) : request_scope.

Open Scope request_scope.

(** [for x in xs: body(x)] where the body may raise. *)
Fixpoint for_each {A : Type} (body : A -> M unit) (xs : list A) : M unit :=
  match xs with
  | [] => ret tt
  | x :: xs' => body x ;; for_each body xs'
  end.

(* ================================================================== *)
(** * permissions.py *)

Module Permissions.
Inductive Method := GET | POST | PUT | PATCH | DELETE.

Definition is_authenticated (user : RequestUser) : bool :=
  match user with AuthUser _ => true | AnonymousUser => false end.

(** [request.user.role == r]; the conjunction with [is_authenticated]
    in the source keeps the attribute from being read on
    [AnonymousUser]. *)
Definition role_is (user : RequestUser) (r : string) : bool :=
  match user with
  | AuthUser u => String.eqb (User.role u) r
  | AnonymousUser => false
  end.

Definition role_in (user : RequestUser) (rs : list string) : bool :=
  match user with
  | AuthUser u => str_in (User.role u) rs
  | AnonymousUser => false
  end.

(** [obj.assigned_to == request.user]: model instances compare by
    primary key. *)
Definition is_user (pk : Z) (user : RequestUser) : bool :=
  match user with
  | AuthUser u => pk =? User.id u
  | AnonymousUser => false
  end.

(** rest_framework's [IsAuthenticated]. *)
Definition IsAuthenticated (user : RequestUser) : bool :=
  is_authenticated user.

Definition IsAdmin (user : RequestUser) : bool :=
  is_authenticated user && role_is user "ADMIN".

(** [request.user.role == "ADMIN" or obj == request.user]: the
    attribute is read with no test before it, and [AnonymousUser] has no
    [role]. *)
Definition IsAdminOrSelf (user : RequestUser) (obj : User.t)
  : Result bool :=
  match user with
  | AnonymousUser => Raise AttributeError
  | AuthUser u =>
      Ok (String.eqb (User.role u) "ADMIN" || (User.id obj =? User.id u))
  end.

Definition IsAdminOrSalesAgent (user : RequestUser) : bool :=
  is_authenticated user && role_in user ["ADMIN"; "SALES_AGENT"]%string.

Definition IsAssignedTechnician (user : RequestUser) (obj : Job.t) : bool :=
  is_authenticated user && role_is user "TECHNICIAN"
  && is_user (Job.assigned_to obj) user.

Definition CanManageTasks_has_permission
  (user : RequestUser) (method : Method) : bool :=
  if negb (is_authenticated user) then false
  else if role_is user "TECHNICIAN" then false
  else match method with
       | GET => true
       | POST => role_in user ["ADMIN"; "SALES_AGENT"]%string
       | _ => role_in user ["ADMIN"; "SALES_AGENT"]%string
       end.

(** [CanManageTasks.has_object_permission] reads [request.user.role]
    in its first line, with no [is_authenticated] test before it: on
    [AnonymousUser] the read raises. *)
Definition CanManageTasks_has_object_permission (user : RequestUser)
  : Result bool :=
  match user with
  | AnonymousUser => Raise AttributeError
  | AuthUser u =>
      Ok (if String.eqb (User.role u) "TECHNICIAN" then false
          else str_in (User.role u) ["ADMIN"; "SALES_AGENT"]%string)
  end.

(** [APIView.check_permissions] / [check_object_permissions]. *)
Definition check_permissions (granted : bool) : M unit :=
  if granted then ret tt else raise PermissionDenied.
End Permissions.

(* ================================================================== *)
(** * Reverse relations and lookups shared by serializers and views *)

(** [job.jobtask_set]: the tasks of a job in [JobTask.Meta.ordering]
    (["job", "order"]). *)
Definition jobtask_set (db : DB) (job : Job.t) : list JobTask.t :=
  QuerySet.order_by JobTask.order
    (filter (fun t => JobTask.job t =? Job.id job) (job_tasks db)).

(** [task.jobtaskequipment_set.all()]. *)
Definition jobtaskequipment_set (db : DB) (task_pk : Z)
  : list JobTaskEquipment.t :=
  filter (fun r => JobTaskEquipment.job_task r =? task_pk)
         (job_task_equipment db).

(** [get_object_or_404(Model, id=pk)]. *)
Definition get_object_or_404 {A : Type}
  (table : DB -> list A) (pk_of : A -> Z) (pk : Z) : M A :=
  fun db =>
    match QuerySet.get pk_of pk (table db) with
    | Some r => (Ok r, db)
    | None => (Raise Http404, db)
    end.

(* ================================================================== *)
(** * serializers.py *)

Module Serializers.
(** One validated item of [equipment_requirements], a dict: each of
    its keys may be absent.  [equipment_id] is a required field, but a
    partial update (PATCH) skips the required test in nested items too,
    so an item can reach [update] without it. *)
Module EquipmentRequirement.
Record t := mk
  { equipment_id : option Z;
    quantity : option Z;
    notes : option string }.
End EquipmentRequirement.

(** [validated_data] of [JobTaskSerializer]: every writable field is
    either absent or present with its value. *)
Module TaskData.
Record t := mk
  { title : option string;
    description : option string;
    order : option Z;
    status : option string;
    completed_at : option (option datetime);
    job : option Z;
    equipment_requirements : option (list EquipmentRequirement.t) }.
End TaskData.

Definition or_else {A : Type} (o : option A) (d : A) : A :=
  match o with Some a => a | None => d end.

(** [for attr, value in validated_data.items(): setattr(instance, attr,
    value)], after [equipment_requirements] has been popped. *)
Definition setattrs (instance : JobTask.t) (v : TaskData.t) : JobTask.t :=
  JobTask.mk
    (JobTask.id instance)
    (or_else (TaskData.title v) (JobTask.title instance))
    (or_else (TaskData.description v) (JobTask.description instance))
    (or_else (TaskData.order v) (JobTask.order instance))
    (or_else (TaskData.completed_at v) (JobTask.completed_at instance))
    (or_else (TaskData.status v) (JobTask.status instance))
    (or_else (TaskData.job v) (JobTask.job instance)).

Definition set_completed_at (c : option datetime) (t : JobTask.t)
  : JobTask.t :=
  JobTask.mk (JobTask.id t) (JobTask.title t) (JobTask.description t)
    (JobTask.order t) c (JobTask.status t) (JobTask.job t).

(** [JobTaskEquipment.objects.create(job_task=..., equipment_id=...,
    quantity=..., notes=...)].  The insert is refused when the foreign
    key has no catalog row, when the pair (task, equipment) is already
    there ([unique_together]), and when the quantity is below zero,
    which is the check [PositiveIntegerField] puts on the column
    ([quantity >= 0]). *)
Definition JobTaskEquipment_create
  (task_pk equipment_id quantity : Z) (notes : string) : M unit :=
  fun db =>
    match QuerySet.get Equipment.id equipment_id (equipment_catalog db) with
    | None => (Raise IntegrityError, db)
    | Some e =>
        if existsb (fun r => (JobTaskEquipment.job_task r =? task_pk)
                             && (JobTaskEquipment.equipment_id r =? equipment_id))
                   (job_task_equipment db)
        then (Raise IntegrityError, db)
        else if quantity <? 0 then (Raise IntegrityError, db)
        else
          let pk := job_task_equipment_seq db in
          (Ok tt,
           with_job_task_equipment
             (job_task_equipment db
                ++ [JobTaskEquipment.mk pk task_pk e quantity notes])
             (pk + 1) db)
    end.

(** [instance.jobtaskequipment_set.all().delete()]. *)
Definition delete_requirements (task_pk : Z) : M unit :=
  modify (fun db =>
    with_job_task_equipment
      (QuerySet.exclude (fun r => JobTaskEquipment.job_task r =? task_pk)
                        (job_task_equipment db))
      (job_task_equipment_seq db) db).

(** The loop over the items.  [equipment_req['equipment_id']] is the
    first argument evaluated: a missing key raises before the row is
    built. *)
Definition create_requirements
  (task_pk : Z) (reqs : list EquipmentRequirement.t) : M unit :=
  for_each
    (fun equipment_req =>
       match EquipmentRequirement.equipment_id equipment_req with
       | None => raise KeyError
       | Some equipment_id =>
           JobTaskEquipment_create task_pk equipment_id
             (or_else (EquipmentRequirement.quantity equipment_req) 1)
             (or_else (EquipmentRequirement.notes equipment_req) EmptyString)
       end)
    reqs.

(** Whether the database refuses the UPDATE of a task row: [job] names
    no job, another task of that job has the same [order]
    ([unique_together]), or [order] is below zero
    ([PositiveIntegerField]). *)
Definition JobTask_save_refused (db : DB) (instance : JobTask.t) : bool :=
  negb (truthy (QuerySet.get Job.id (JobTask.job instance) (jobs db)))
  || existsb (fun t => negb (JobTask.id t =? JobTask.id instance)
                       && (JobTask.job t =? JobTask.job instance)
                       && (JobTask.order t =? JobTask.order instance))
             (job_tasks db)
  || (JobTask.order instance <? 0).

(** [instance.save()] after [setattr] may have changed [job] and
    [order]. *)
Definition JobTask_save (instance : JobTask.t) : M unit :=
  fun db =>
    if JobTask_save_refused db instance then (Raise IntegrityError, db)
    else (Ok tt,
          with_job_tasks (QuerySet.save JobTask.id instance (job_tasks db)) db).

(** [JobTaskSerializer.update(instance, validated_data)], with
    [timezone.now()] passed in. *)
Definition JobTaskSerializer_update
  (now : datetime) (instance : JobTask.t) (validated_data : TaskData.t)
  : M JobTask.t :=
  let equipment_requirements := TaskData.equipment_requirements validated_data in
  let instance := setattrs instance validated_data in
  let instance :=
    if String.eqb (JobTask.status instance) "COMPLETED"
       && negb (truthy (JobTask.completed_at instance))
    then set_completed_at (Some now) instance
    else instance in
  JobTask_save instance ;;
  match equipment_requirements with
  | Some reqs =>
      delete_requirements (JobTask.id instance) ;;
      create_requirements (JobTask.id instance) reqs
  | None => ret tt
  end ;;
  ret instance.

(** Field validation of one [equipment_requirements] item by the nested
    [JobTaskEquipmentSerializer].  The model field [quantity] is a
    [PositiveIntegerField]; the serializer field built from it takes its
    bounds from the model field's validators: [MinValueValidator(0)],
    so zero is inside the range, and a [MaxValueValidator] whose limit
    is the database backend's, not the repository's; it is passed in as
    [max_quantity]. *)
Definition quantity_is_valid (max_quantity q : Z) : bool :=
  (0 <=? q) && (q <=? max_quantity).

Definition requirement_is_valid (max_quantity : Z)
  (r : EquipmentRequirement.t) : bool :=
  match EquipmentRequirement.quantity r with
  | Some q => quantity_is_valid max_quantity q
  | None => true
  end.

(** [ChoiceField(choices=...)]. *)
Definition choice_is_valid (choices : list string) (v : option string)
  : bool :=
  match v with
  | Some s => str_in s choices
  | None => true
  end.
End Serializers.

(* ================================================================== *)
(** * views.py *)

Module Views.
Import Permissions Serializers.

(** ** Response bodies *)

Module RequiredEquipment.
Record t := mk
  { equipment_name : string;
    equipment_type : string;
    quantity : Z;
    notes : string }.
End RequiredEquipment.

Module ActiveTask.
Record t := mk
  { id : Z;
    title : string;
    description : string;
    order : Z;
    status : string;
    required_equipment : list RequiredEquipment.t }.
End ActiveTask.

Module JobData.
Record t := mk
  { id : Z;
    title : string;
    client_name : string;
    status : string;
    priority : string;
    scheduled_date : option datetime;
    description : string;
    tasks_count : nat;
    completed_tasks : nat;
    active_tasks : list ActiveTask.t }.
End JobData.

Module GroupedJobs.
Record t := mk
  { today : list JobData.t;
    upcoming : list JobData.t;
    overdue : list JobData.t;
    unscheduled : list JobData.t }.

Definition empty : t := mk [] [] [] [].

(** [grouped_jobs.values()], in insertion order. *)
Definition values (g : t) : list (list JobData.t) :=
  [today g; upcoming g; overdue g; unscheduled g].
End GroupedJobs.

Module Summary.
Record t := mk
  { total_active_jobs : nat;
    today_count : nat;
    overdue_count : nat }.
End Summary.

(** One entry of [incomplete_tasks]. *)
Module IncompleteTask.
Record t := mk
  { id : Z;
    title : string;
    status : string }.
End IncompleteTask.

Inductive Body :=
| Detail (detail : string)
| IncompleteTasks (detail : string)
                  (incomplete_tasks : list IncompleteTask.t)
| TaskStatusUpdated (message : string) (id : Z) (title status : string)
                    (completed_at : option datetime)
| JobStatusUpdated (message : string) (id : Z)
                   (title status client_name : string)
| Dashboard (jobs_by_schedule : GroupedJobs.t) (summary : Summary.t)
| JobRepresentation (instance : Job.t)
| TaskRepresentation (instance : JobTask.t).

Record Response := mkResponse
  { status_code : Z;
    data : Body }.

(** [not hasattr(user, 'role') or user.role != "TECHNICIAN"]. *)
Definition not_a_technician (user : RequestUser) : bool :=
  match user with
  | AnonymousUser => true
  | AuthUser u => negb (String.eqb (User.role u) "TECHNICIAN")
  end.

(** ** JobViewSet

    A [ModelViewSet] over [JobSerializer] behind [IsAdminOrSalesAgent].
    This is its [partial_update] for a body that carries at most the key
    [status]: permissions, [get_object], the [ChoiceField] validation,
    then [ModelSerializer.update], which assigns the attribute and
    saves.  Nothing in the class looks at the job's tasks. *)
Definition JobViewSet_partial_update
  (user : RequestUser) (pk : Z) (status : option string) : M Response :=
  check_permissions (IsAdminOrSalesAgent user) ;;
  instance <- get_object_or_404 jobs Job.id pk ;;
  if negb (choice_is_valid Job.STATUS_CHOICES status)
  then raise ValidationError
  else
    let instance :=
      match status with
      | Some s => Job.set_status s instance
      | None => instance
      end in
    modify (fun db =>
      with_jobs (QuerySet.save Job.id instance (jobs db)) db) ;;
    ret (mkResponse 200 (JobRepresentation instance)).

(** ** JobTaskViewSet *)

(** One item of [equipment_requirements] as the request body has it,
    for bodies whose items carry at most the keys [equipment_id] and
    [quantity], both integers.  [notes] is left out on purpose: the
    nested serializer rewrites a text it is sent (it trims white space)
    before [update] sees it, and no statement about the endpoint is
    about notes. *)
Module RequirementItem.
Record t := mk
  { equipment_id : option Z;
    quantity : option Z }.

(** The item the nested serializer hands on once it is valid: the keys
    that were sent, nothing added. *)
Definition validated (i : t) : EquipmentRequirement.t :=
  EquipmentRequirement.mk (equipment_id i) (quantity i) None.
End RequirementItem.

(** A [ModelViewSet] over [JobTaskSerializer] behind [CanManageTasks].
    This is its [partial_update] for a body that carries at most the
    keys [status] and [equipment_requirements].  The update is partial,
    so no key is required, in the items either: an item without
    [equipment_id] is valid.  [max_quantity] is the upper limit the
    database backend gives a [PositiveIntegerField]. *)
Definition JobTaskViewSet_partial_update
  (max_quantity : Z) (now : datetime) (user : RequestUser) (pk : Z)
  (status : option string)
  (equipment_requirements : option (list RequirementItem.t))
  : M Response :=
  check_permissions (CanManageTasks_has_permission user PATCH) ;;
  instance <- get_object_or_404 job_tasks JobTask.id pk ;;
  granted <- lift (CanManageTasks_has_object_permission user) ;;
  check_permissions granted ;;
  let equipment_requirements :=
    option_map (map RequirementItem.validated) equipment_requirements in
  if negb (choice_is_valid JobTask.STATUS_CHOICES status
           && forallb (requirement_is_valid max_quantity)
                      (or_else equipment_requirements []))
  then raise ValidationError
  else
    instance <- JobTaskSerializer_update now instance
                  (TaskData.mk None None None status None None
                               equipment_requirements) ;;
    ret (mkResponse 200 (TaskRepresentation instance)).

(** ** TechnicianDashboardView *)

Definition required_equipment (db : DB) (task : JobTask.t)
  : list RequiredEquipment.t :=
  map (fun req =>
         RequiredEquipment.mk
           (Equipment.name (JobTaskEquipment.equipment req))
           (Equipment.eq_type (JobTaskEquipment.equipment req))
           (JobTaskEquipment.quantity req)
           (JobTaskEquipment.notes req))
      (jobtaskequipment_set db (JobTask.id task)).

Definition job_data (db : DB) (job : Job.t) : JobData.t :=
  let active_tasks :=
    QuerySet.order_by JobTask.order
      (filter (fun t => str_in (JobTask.status t)
                               ["NOT_STARTED"; "IN_PROGRESS"]%string)
              (jobtask_set db job)) in
  JobData.mk
    (Job.id job) (Job.title job) (Job.client_name job) (Job.status job)
    (Job.priority job) (Job.scheduled_date job) (Job.description job)
    (QuerySet.count (jobtask_set db job))
    (QuerySet.count
       (filter (fun t => String.eqb (JobTask.status t) "COMPLETED")
               (jobtask_set db job)))
    (map (fun task =>
            ActiveTask.mk (JobTask.id task) (JobTask.title task)
              (JobTask.description task) (JobTask.order task)
              (JobTask.status task) (required_equipment db task))
         active_tasks).

(** One turn of [for job in jobs]. *)
Definition group_job (db : DB) (today : date)
  (grouped_jobs : GroupedJobs.t) (job : Job.t) : GroupedJobs.t :=
  if String.eqb (Job.status job) "COMPLETED" then grouped_jobs
  else
    let job_data := job_data db job in
    let '(GroupedJobs.mk g_today g_upcoming g_overdue g_unscheduled) :=
      grouped_jobs in
    match Job.scheduled_date job with
    | None =>
        GroupedJobs.mk g_today g_upcoming g_overdue
                       (g_unscheduled ++ [job_data])
    | Some scheduled_date =>
        if datetime_date scheduled_date =? today then
          GroupedJobs.mk (g_today ++ [job_data]) g_upcoming g_overdue
                         g_unscheduled
        else if datetime_date scheduled_date >? today then
          GroupedJobs.mk g_today (g_upcoming ++ [job_data]) g_overdue
                         g_unscheduled
        else
          GroupedJobs.mk g_today g_upcoming (g_overdue ++ [job_data])
                         g_unscheduled
    end.

(** [Job.objects.filter(assigned_to=user)], in [Job.Meta.ordering]
    (["-created_at"]). *)
Definition assigned_jobs (db : DB) (user : RequestUser) : list Job.t :=
  QuerySet.order_by (fun j => - Job.created_at j)
    (filter (fun j => is_user (Job.assigned_to j) user) (jobs db)).

(** [TechnicianDashboardView.get], with [date.today()] passed in. *)
Definition TechnicianDashboardView_get
  (today : date) (user : RequestUser) : M Response :=
  check_permissions (IsAuthenticated user) ;;
  if not_a_technician user then
    ret (mkResponse 403 (Detail "This endpoint is only for technicians"))
  else
    jobs <- query (fun db => assigned_jobs db user) ;;
    if negb (QuerySet.exists_ jobs) then
      ret (mkResponse 200 (Detail "No jobs assigned yet"))
    else
      grouped_jobs <-
        query (fun db => fold_left (group_job db today) jobs
                                   GroupedJobs.empty) ;;
      ret (mkResponse 200
             (Dashboard grouped_jobs
                (Summary.mk
                   (List.length (List.concat (GroupedJobs.values grouped_jobs)))
                   (List.length (GroupedJobs.today grouped_jobs))
                   (List.length (GroupedJobs.overdue grouped_jobs))))).

(** ** TechnicianTaskUpdateView *)

Definition set_task_status (s : string) (c : option datetime)
  (t : JobTask.t) : JobTask.t :=
  JobTask.mk (JobTask.id t) (JobTask.title t) (JobTask.description t)
    (JobTask.order t) c s (JobTask.job t).

(** [task.job]. *)
Definition related_job (task : JobTask.t) : M Job.t :=
  fun db =>
    match QuerySet.get Job.id (JobTask.job task) (jobs db) with
    | Some j => (Ok j, db)
    | None => (Raise DoesNotExist, db)
    end.

(** [request.data.get('status')] is [None] when the key is absent. *)
Definition status_not_in (new_status : option string) (l : list string)
  : bool :=
  match new_status with
  | Some s => negb (str_in s l)
  | None => true
  end.

(** [TechnicianTaskUpdateView.patch], with [timezone.now()] passed in. *)
Definition TechnicianTaskUpdateView_patch
  (now : datetime) (user : RequestUser) (task_id : Z)
  (new_status : option string) : M Response :=
  check_permissions (IsAuthenticated user) ;;
  if not_a_technician user then
    ret (mkResponse 403 (Detail "This endpoint is only for technicians"))
  else
    task <- get_object_or_404 job_tasks JobTask.id task_id ;;
    job <- related_job task ;;
    if negb (is_user (Job.assigned_to job) user) then
      ret (mkResponse 403
             (Detail "You can only update tasks for jobs assigned to you"))
    else if status_not_in new_status
              ["NOT_STARTED"; "IN_PROGRESS"; "COMPLETED"]%string then
      ret (mkResponse 400
             (Detail "Invalid status. Must be one of: NOT_STARTED, IN_PROGRESS, COMPLETED"))
    else
      let new_status := or_else new_status EmptyString in
      let old_status := JobTask.status task in
      let completed_at :=
        if String.eqb new_status "COMPLETED"
           && negb (truthy (JobTask.completed_at task))
        then Some now
        else if negb (String.eqb new_status "COMPLETED") then None
        else JobTask.completed_at task in
      let task := set_task_status new_status completed_at task in
      modify (fun db =>
        with_job_tasks (QuerySet.save JobTask.id task (job_tasks db)) db) ;;
      ret (mkResponse 200
             (TaskStatusUpdated
                ("Task status updated from " ++ old_status
                   ++ " to " ++ new_status)%string
                (JobTask.id task) (JobTask.title task)
                (JobTask.status task) (JobTask.completed_at task))).

(** ** TechnicianJobUpdateView *)

Definition incomplete_tasks (db : DB) (job : Job.t) : list JobTask.t :=
  QuerySet.exclude (fun t => String.eqb (JobTask.status t) "COMPLETED")
                   (jobtask_set db job).

Definition incomplete_list (ts : list JobTask.t) : list IncompleteTask.t :=
  map (fun t => IncompleteTask.mk (JobTask.id t) (JobTask.title t)
                                  (JobTask.status t))
      ts.

(** [TechnicianJobUpdateView.patch]. *)
Definition TechnicianJobUpdateView_patch
  (user : RequestUser) (job_id : Z) (new_status : option string)
  : M Response :=
  check_permissions (IsAuthenticated user) ;;
  if not_a_technician user then
    ret (mkResponse 403 (Detail "This endpoint is only for technicians"))
  else
    job <- get_object_or_404 jobs Job.id job_id ;;
    if negb (is_user (Job.assigned_to job) user) then
      ret (mkResponse 403
             (Detail "You can only update jobs assigned to you"))
    else if status_not_in new_status
              ["PENDING"; "IN_PROGRESS"; "COMPLETED"; "CANCELLED"]%string then
      ret (mkResponse 400
             (Detail "Invalid status. Must be one of: PENDING, IN_PROGRESS, COMPLETED, CANCELLED"))
    else
      let new_status := or_else new_status EmptyString in
      (* An early [return] inside the [if]: [Some r] is the response
         returned there, [None] falls through. *)
      early <-
        (if String.eqb new_status "COMPLETED" then
           incomplete_tasks <- query (fun db => incomplete_tasks db job) ;;
           if QuerySet.exists_ incomplete_tasks then
             ret (Some (mkResponse 400
                          (IncompleteTasks
                             "Cannot complete job until all tasks are completed"
                             (incomplete_list incomplete_tasks))))
           else ret None
         else ret None) ;;
      match early with
      | Some response => ret response
      | None =>
          let old_status := Job.status job in
          let job := Job.set_status new_status job in
          modify (fun db =>
            with_jobs (QuerySet.save Job.id job (jobs db)) db) ;;
          ret (mkResponse 200
                 (JobStatusUpdated
                    ("Job status updated from " ++ old_status
                       ++ " to " ++ new_status)%string
                    (Job.id job) (Job.title job) (Job.status job)
                    (Job.client_name job)))
      end.
End Views.


(* ================================================================== *)
(** * Notions the statements below are written with *)

(** The condition both passes of the sweep share, read off one row. *)
Definition due_at (now : datetime) (j : Job.t) : bool :=
  Tasks.scheduled_date__lt now j
  && Tasks.status__in ["PENDING"; "IN_PROGRESS"]%string j.

(** The responses of [TechnicianJobUpdateView.patch], by name. *)
Module JobResponses.
Import Views.

Definition JOB_STATUSES : list string :=
  ["PENDING"; "IN_PROGRESS"; "COMPLETED"; "CANCELLED"]%string.

Definition job_status_updated (job : Job.t) (new_status : string)
  : Response :=
  mkResponse 200
    (JobStatusUpdated
       ("Job status updated from " ++ Job.status job
          ++ " to " ++ new_status)%string
       (Job.id job) (Job.title job) new_status (Job.client_name job)).

Definition job_not_assigned : Response :=
  mkResponse 403 (Detail "You can only update jobs assigned to you").

Definition job_invalid_status : Response :=
  mkResponse 400
    (Detail "Invalid status. Must be one of: PENDING, IN_PROGRESS, COMPLETED, CANCELLED").

Definition job_incomplete (entries : list IncompleteTask.t) : Response :=
  mkResponse 400
    (IncompleteTasks "Cannot complete job until all tasks are completed"
                     entries).
End JobResponses.

(** What one ledger row stores, and what one submitted requirement asks
    to be stored once the defaults of [.get('quantity', 1)] and
    [.get('notes', '')] are applied.  A row always has its equipment; an
    item may lack the key, and then matches no row. *)
Definition ledger_entry (r : JobTaskEquipment.t) : option Z * Z * string :=
  (Some (JobTaskEquipment.equipment_id r), JobTaskEquipment.quantity r,
   JobTaskEquipment.notes r).

Definition requested_entry (q : Serializers.EquipmentRequirement.t)
  : option Z * Z * string :=
  (Serializers.EquipmentRequirement.equipment_id q,
   Serializers.or_else (Serializers.EquipmentRequirement.quantity q) 1,
   Serializers.or_else (Serializers.EquipmentRequirement.notes q) EmptyString).

(** A requirement list the loop of inserts takes: every item has its
    equipment id, the id names a catalog row, no id occurs twice, no
    quantity is below zero. *)
Definition acceptable (catalog : list Equipment.t)
  (reqs : list Serializers.EquipmentRequirement.t) : Prop :=
  NoDup (map Serializers.EquipmentRequirement.equipment_id reqs)
  /\ Forall
       (fun q =>
          match Serializers.EquipmentRequirement.equipment_id q with
          | Some equipment_id =>
              QuerySet.get Equipment.id equipment_id catalog <> None
          | None => False
          end
          /\ 0 <= Serializers.or_else
                    (Serializers.EquipmentRequirement.quantity q) 1)
       reqs.

(** A task row the database lets [save()] write. *)
Definition savable (db : DB) (instance : JobTask.t) : Prop :=
  Serializers.JobTask_save_refused db instance = false.

(** The instance [JobTaskSerializer.update] saves and returns: the
    attributes assigned, then the completion stamp. *)
Definition updated_instance (now : datetime) (instance : JobTask.t)
  (validated_data : Serializers.TaskData.t) : JobTask.t :=
  let instance := Serializers.setattrs instance validated_data in
  if String.eqb (JobTask.status instance) "COMPLETED"
     && negb (truthy (JobTask.completed_at instance))
  then Serializers.set_completed_at (Some now) instance
  else instance.

(** The four keys of [grouped_jobs]. *)
Inductive Bucket := Today | Upcoming | Overdue | Unscheduled.

Definition Bucket_eqb (a b : Bucket) : bool :=
  match a, b with
  | Today, Today | Upcoming, Upcoming | Overdue, Overdue
  | Unscheduled, Unscheduled => true
  | _, _ => false
  end.

Definition bucket (g : Views.GroupedJobs.t) (b : Bucket)
  : list Views.JobData.t :=
  match b with
  | Today => Views.GroupedJobs.today g
  | Upcoming => Views.GroupedJobs.upcoming g
  | Overdue => Views.GroupedJobs.overdue g
  | Unscheduled => Views.GroupedJobs.unscheduled g
  end.

(** The key the [if]/[elif] chain of the dashboard loop picks. *)
Definition bucket_of (today : date) (job : Job.t) : Bucket :=
  match Job.scheduled_date job with
  | None => Unscheduled
  | Some d =>
      if datetime_date d =? today then Today
      else if datetime_date d >? today then Upcoming
      else Overdue
  end.

(** The jobs the loop does not [continue] over. *)
Definition listed (job : Job.t) : bool :=
  negb (String.eqb (Job.status job) "COMPLETED").

(** A dashboard entry that shows [job]: the job's own fields, read off
    the entry one by one. *)
Definition entry_of (job : Job.t) (e : Views.JobData.t) : Prop :=
  Views.JobData.id e = Job.id job
  /\ Views.JobData.title e = Job.title job
  /\ Views.JobData.client_name e = Job.client_name job
  /\ Views.JobData.status e = Job.status job
  /\ Views.JobData.priority e = Job.priority job
  /\ Views.JobData.scheduled_date e = Job.scheduled_date job
  /\ Views.JobData.description e = Job.description job.

(** The summary the dashboard computes from the buckets. *)
Definition summary_of (g : Views.GroupedJobs.t) : Views.Summary.t :=
  Views.Summary.mk
    (List.length (List.concat (Views.GroupedJobs.values g)))
    (List.length (Views.GroupedJobs.today g))
    (List.length (Views.GroupedJobs.overdue g)).

(** The buckets the dashboard loop builds for a caller. *)
Definition grouped_for (db : DB) (today : date) (user : RequestUser)
  : Views.GroupedJobs.t :=
  fold_left (Views.group_job db today) (Views.assigned_jobs db user)
            Views.GroupedJobs.empty.

(** A job row with its [overdue] flag rewritten at will. *)
Definition reflag (flag : Job.t -> bool) (j : Job.t) : Job.t :=
  Job.set_overdue (flag j) j.

(** The responses of [TechnicianTaskUpdateView.patch], by name. *)
Module TaskResponses.
Import Views.

Definition TASK_STATUSES : list string :=
  ["NOT_STARTED"; "IN_PROGRESS"; "COMPLETED"]%string.

Definition task_not_assigned : Response :=
  mkResponse 403
    (Detail "You can only update tasks for jobs assigned to you").

Definition task_invalid_status : Response :=
  mkResponse 400
    (Detail "Invalid status. Must be one of: NOT_STARTED, IN_PROGRESS, COMPLETED").

Definition task_status_updated (task : JobTask.t) (new_status : string)
  (completed_at : option datetime) : Response :=
  mkResponse 200
    (TaskStatusUpdated
       ("Task status updated from " ++ JobTask.status task
          ++ " to " ++ new_status)%string
       (JobTask.id task) (JobTask.title task) new_status completed_at).

(** The timestamp the view writes next to the new status. *)
Definition stamp (now : datetime) (task : JobTask.t) (new_status : string)
  : option datetime :=
  if String.eqb new_status "COMPLETED"
     && negb (truthy (JobTask.completed_at task))
  then Some now
  else if negb (String.eqb new_status "COMPLETED") then None
  else JobTask.completed_at task.
End TaskResponses.

(** A small store to run the code on: three jobs of technician 7 (one in
    progress with an open and a completed task, one cancelled, one
    completed), a job of technician 9, a technician 8 without jobs, an
    admin, and two catalog items. *)
Module Sample.
Definition technician : User.t := User.mk 7 "TECHNICIAN".
Definition idle_technician : User.t := User.mk 8 "TECHNICIAN".
Definition admin : User.t := User.mk 1 "ADMIN".

Definition day : Z := microseconds_per_day.

Definition job1 : Job.t :=
  Job.mk 1 "Install" "" "ACME" (Some (3 * day + 5)) "IN_PROGRESS" "MEDIUM"
         1 7 (1 * day) false.

Definition job2 : Job.t :=
  Job.mk 2 "Survey" "" "ACME" (Some (2 * day)) "CANCELLED" "LOW"
         1 7 (2 * day) true.

Definition job3 : Job.t :=
  Job.mk 3 "Repair" "" "Initech" (Some (1 * day)) "COMPLETED" "HIGH"
         1 7 (1 * day) true.

Definition job4 : Job.t :=
  Job.mk 4 "Inspect" "" "Globex" (Some (1 * day)) "PENDING" "URGENT"
         1 9 (3 * day) false.

Definition task1 : JobTask.t :=
  JobTask.mk 10 "Mount" "" 1 None "NOT_STARTED" 1.

Definition task2 : JobTask.t :=
  JobTask.mk 11 "Wire" "" 2 (Some (2 * day)) "COMPLETED" 1.

Definition task3 : JobTask.t :=
  JobTask.mk 12 "Measure" "" 1 (Some (2 * day)) "COMPLETED" 2.

Definition drill : Equipment.t := Equipment.mk 5 "Drill" "tool" "SN-5" true.
Definition ladder : Equipment.t := Equipment.mk 6 "Ladder" "tool" "SN-6" true.

Definition db : DB :=
  mkDB [job1; job2; job3; job4] [task1; task2; task3] [drill; ladder] [] 1.

Definition req (equipment_id : Z) (quantity : option Z)
  : Serializers.EquipmentRequirement.t :=
  Serializers.EquipmentRequirement.mk (Some equipment_id) quantity None.

(** The upper limit of a [PositiveIntegerField] on the database the
    sample runs on, SQLite's. *)
Definition max_quantity : Z := 9223372036854775807.

Definition item (equipment_id : Z) (quantity : option Z)
  : Views.RequirementItem.t :=
  Views.RequirementItem.mk (Some equipment_id) quantity.

Definition only_requirements
  (reqs : option (list Serializers.EquipmentRequirement.t))
  : Serializers.TaskData.t :=
  Serializers.TaskData.mk None None None None None None reqs.
End Sample.

(* ================================================================== *)
(** * serializers.py, continued: creating a task *)

Module TaskCreation.
Import Serializers.

(** [JobTask.objects.create] on the validated data.  A key that is missing
    takes the model field's default ([order] 1, [status] NOT_STARTED, no
    [completed_at], empty text).  [pk] is the key the table hands out
    for the new row.  The insert is refused when a row already has that
    key, when [job] is missing or names no job, when the job already has
    a task with that [order] ([unique_together]), and when [order] is
    below zero ([PositiveIntegerField]). *)
Definition JobTask_objects_create (pk : Z) (v : TaskData.t) : M JobTask.t :=
  fun db =>
    match TaskData.job v with
    | None => (Raise IntegrityError, db)
    | Some job_pk =>
        let task :=
          JobTask.mk pk
            (or_else (TaskData.title v) EmptyString)
            (or_else (TaskData.description v) EmptyString)
            (or_else (TaskData.order v) 1)
            (or_else (TaskData.completed_at v) None)
            (or_else (TaskData.status v) "NOT_STARTED"%string)
            job_pk in
        match QuerySet.get Job.id job_pk (jobs db) with
        | None => (Raise IntegrityError, db)
        | Some _ =>
            if existsb (fun t => JobTask.id t =? pk) (job_tasks db)
            then (Raise IntegrityError, db)
            else if existsb (fun t => (JobTask.job t =? job_pk)
                                      && (JobTask.order t =? JobTask.order task))
                            (job_tasks db)
            then (Raise IntegrityError, db)
            else if JobTask.order task <? 0 then (Raise IntegrityError, db)
            else (Ok task, with_job_tasks (job_tasks db ++ [task]) db)
        end
    end.

(** [JobTaskSerializer.create(validated_data)]. *)
Definition JobTaskSerializer_create (pk : Z) (validated_data : TaskData.t)
  : M JobTask.t :=
  let equipment_requirements :=
    or_else (TaskData.equipment_requirements validated_data) [] in
  task <- JobTask_objects_create pk validated_data ;;
  create_requirements (JobTask.id task) equipment_requirements ;;
  ret task.
End TaskCreation.

(* ================================================================== *)
(** * More notions the statements are written with *)

(** The pair [unique_together] of [JobTaskEquipment] is about. *)
Definition ledger_pair (r : JobTaskEquipment.t) : Z * Z :=
  (JobTaskEquipment.job_task r, JobTaskEquipment.equipment_id r).

(** The response of the technician endpoints to any other role. *)
Definition technicians_only : Views.Response :=
  Views.mkResponse 403 (Views.Detail "This endpoint is only for technicians").

(** A before/after pair of job rows whose flag went up, or down. *)
Definition flag_raised (p : Job.t * Job.t) : bool :=
  negb (Job.overdue (fst p)) && Job.overdue (snd p).

Definition flag_dropped (p : Job.t * Job.t) : bool :=
  Job.overdue (fst p) && negb (Job.overdue (snd p)).

(** More of the sample store: a sales agent, an account whose role is
    none of the three, and the sample store with one ledger row (two
    drills for task 10). *)
Module MoreSamples.
Definition sales_agent : User.t := User.mk 2 "SALES_AGENT".
Definition guest : User.t := User.mk 3 "GUEST".

Definition two_drills : JobTaskEquipment.t :=
  JobTaskEquipment.mk 1 10 Sample.drill 2 EmptyString.

Definition db_with_ledger : DB :=
  mkDB [Sample.job1; Sample.job2; Sample.job3; Sample.job4]
       [Sample.task1; Sample.task2; Sample.task3]
       [Sample.drill; Sample.ladder] [two_drills] 2.

Definition new_task : Serializers.TaskData.t :=
  Serializers.TaskData.mk (Some "Test"%string) None (Some 3)
    (Some "COMPLETED"%string) None (Some 1)
    (Some [Sample.req 6 (Some 2)]).
End MoreSamples.
(* ================================================================== *)
(** * Generic facts about the ORM calls *)

Lemma str_in_cons (x y : string) (l : list string) :
  str_in x (y :: l) = true <-> x = y \/ str_in x l = true.
Proof.
  unfold str_in; simpl. rewrite orb_true_iff, String.eqb_eq. tauto.
Qed.

Lemma str_in_two (x a b : string) :
  str_in x [a; b] = true <-> x = a \/ x = b.
Proof.
  rewrite !str_in_cons. unfold str_in; simpl. intuition discriminate.
Qed.

Lemma filter_none {A : Type} (p : A -> bool) (l : list A) :
  (forall x, In x l -> p x = false) -> filter p l = [].
Proof.
  induction l as [|a l IH]; intros H; simpl; [reflexivity|].
  rewrite (H a (or_introl eq_refl)). apply IH.
  intros x Hx. apply H. now right.
Qed.

Lemma map_id_on {A : Type} (f : A -> A) (l : list A) :
  (forall x, In x l -> f x = x) -> map f l = l.
Proof.
  induction l as [|a l IH]; intros H; simpl; [reflexivity|].
  rewrite (H a (or_introl eq_refl)), IH; [reflexivity|].
  intros x Hx. apply H. now right.
Qed.

Lemma filter_map_comm {A : Type} (p : A -> bool) (f : A -> A) (l : list A) :
  (forall x, p (f x) = p x) ->
  List.length (filter p (map f l)) = List.length (filter p l).
Proof.
  intros H. induction l as [|a l IH]; simpl; [reflexivity|].
  rewrite H. destruct (p a); simpl; now rewrite IH.
Qed.

(* ================================================================== *)
(** * The overdue sweep *)

Section OverdueSweep.
Import Tasks.

Variable now : datetime.


(** Both passes on one row: split on the three things they read. *)
Ltac sweep_cases :=
  let s := fresh "s" in
  let o := fresh "o" in
  let E1 := fresh "E" in
  let E2 := fresh "E" in
  intros [? ? ? ? s ? ? ? ? ? o];
  unfold overdue_jobs, not_overdue_jobs, due_at, Job.set_overdue,
    scheduled_date__lt, status__in;
  cbn [Job.id Job.title Job.description Job.client_name
       Job.scheduled_date Job.status Job.priority Job.created_by
       Job.assigned_to Job.created_at Job.overdue];
  destruct s as [?d|]; [destruct (_ <? now) eqn:E1|];
  destruct (str_in _ _) eqn:E2; destruct o;
  cbn -[str_in Z.ltb]; rewrite ?E1, ?E2; reflexivity.

Lemma due_spec (j : Job.t) :
  due_at now j = true <->
  (exists d, Job.scheduled_date j = Some d /\ d < now)
  /\ (Job.status j = "PENDING"%string \/ Job.status j = "IN_PROGRESS"%string).
Proof.
  unfold due_at, scheduled_date__lt, status__in.
  rewrite andb_true_iff, str_in_two.
  destruct (Job.scheduled_date j) as [d|].
  - rewrite Z.ltb_lt. split.
    + intros [H1 H2]. split; [exists d; auto | exact H2].
    + intros [[d' [E H1]] H2]. inversion E; subst. auto.
  - split.
    + intros [H _]. discriminate.
    + intros [[d' [E _]] _]. discriminate.
Qed.

(** After both passes every row carries [due] in its flag and is
    otherwise the row it was. *)
Lemma sweep_rows (db : DB) :
  jobs (snd (check_overdue_jobs now db))
  = map (fun j => Job.set_overdue (due_at now j) j) (jobs db).
Proof.
  unfold check_overdue_jobs, QuerySet.update. simpl.
  rewrite map_map. apply map_ext. sweep_cases.
Qed.

Lemma sweep_other_tables (db : DB) :
  let db' := snd (check_overdue_jobs now db) in
  job_tasks db' = job_tasks db
  /\ equipment_catalog db' = equipment_catalog db
  /\ job_task_equipment db' = job_task_equipment db
  /\ job_task_equipment_seq db' = job_task_equipment_seq db.
Proof. unfold check_overdue_jobs; simpl. auto. Qed.

Lemma due_set_overdue (b : bool) (j : Job.t) :
  due_at now (Job.set_overdue b j) = due_at now j.
Proof. reflexivity. Qed.

(** C3: after one run of the sweep at [now], a job's [overdue] flag is
    true exactly when its [scheduled_date] is set and earlier than [now]
    and its status is PENDING or IN_PROGRESS; the rows are otherwise
    unchanged.  In particular a PENDING job scheduled in the past with
    the flag off comes out with the flag on, and a flagged job whose
    status is COMPLETED comes out with the flag off. *)
Theorem sweep_flags_exactly_the_due_jobs (db : DB) :
  let db' := snd (check_overdue_jobs now db) in
  map (Job.set_overdue false) (jobs db')
    = map (Job.set_overdue false) (jobs db)
  /\ (forall j, In j (jobs db') ->
        (Job.overdue j = true <->
         (exists d, Job.scheduled_date j = Some d /\ d < now)
         /\ (Job.status j = "PENDING"%string
             \/ Job.status j = "IN_PROGRESS"%string)))
  /\ (forall j d, In j (jobs db) ->
        Job.scheduled_date j = Some d -> d < now ->
        Job.status j = "PENDING"%string -> Job.overdue j = false ->
        In (Job.set_overdue true j) (jobs db'))
  /\ (forall j, In j (jobs db) ->
        Job.overdue j = true -> Job.status j = "COMPLETED"%string ->
        In (Job.set_overdue false j) (jobs db')).
Proof.
  intros db'. subst db'. rewrite sweep_rows.
  split; [|split; [|split]].
  - rewrite map_map. apply map_ext. reflexivity.
  - intros j Hin. apply in_map_iff in Hin as [j0 [<- _]].
    change (Job.overdue (Job.set_overdue (due_at now j0) j0)) with (due_at now j0).
    apply (due_spec j0).
  - intros j d Hin Hs Hlt Hst _. apply in_map_iff. exists j.
    split; [|exact Hin].
    replace (due_at now j) with true; [reflexivity|].
    symmetry. apply due_spec. split; [exists d; auto | now left].
  - intros j Hin _ Hst. apply in_map_iff. exists j.
    split; [|exact Hin].
    replace (due_at now j) with false; [reflexivity|].
    symmetry. destruct (due_at now j) eqn:E; [|reflexivity].
    apply due_spec in E. destruct E as [_ [E|E]]; rewrite Hst in E;
      discriminate.
Qed.

(** A store whose flags already agree with [due] is a fixed point of
    the sweep, and both counts are zero there. *)
Lemma sweep_settled (db : DB) :
  (forall j, In j (jobs db) -> Job.overdue j = due_at now j) ->
  check_overdue_jobs now db = (mkReport 0 0 now, db).
Proof.
  intros Hflag.
  assert (Hmark : forall j, In j (jobs db) -> overdue_jobs now j = false).
  { intros j Hin. unfold overdue_jobs. fold (due_at now j).
    rewrite (Hflag j Hin). destruct (due_at now j); reflexivity. }
  assert (Hclear : forall j, In j (jobs db) ->
                             not_overdue_jobs now j = false).
  { intros j Hin. unfold not_overdue_jobs. fold (due_at now j).
    rewrite (Hflag j Hin). destruct (due_at now j); reflexivity. }
  assert (Hid : map (fun r => if overdue_jobs now r
                              then Job.set_overdue true r else r) (jobs db)
                = jobs db).
  { apply map_id_on. intros j Hin. now rewrite (Hmark j Hin). }
  unfold check_overdue_jobs, QuerySet.update.
  rewrite Hid, (filter_none _ _ Hmark), (filter_none _ _ Hclear).
  rewrite (map_id_on (fun r => if not_overdue_jobs now r
                               then Job.set_overdue false r else r)).
  - destruct db; reflexivity.
  - intros j Hin. now rewrite (Hclear j Hin).
Qed.

(** C5: a second run at the same [now] marks nothing, clears nothing
    and leaves the store as the first run left it; a row the mark pass
    matches is matched by the clear pass neither as it stands nor as the
    mark pass rewrites it (and the other way round); and running the
    clear pass first gives the same counts and the same store. *)
Theorem sweep_idempotent_and_order_independent (db : DB) :
  let first := check_overdue_jobs now db in
  let second := check_overdue_jobs now (snd first) in
  marked_overdue (fst second) = 0%nat
  /\ cleared_overdue (fst second) = 0%nat
  /\ snd second = snd first
  /\ (forall j, overdue_jobs now j = true ->
        not_overdue_jobs now j = false
        /\ not_overdue_jobs now (Job.set_overdue true j) = false)
  /\ (forall j, not_overdue_jobs now j = true ->
        overdue_jobs now j = false
        /\ overdue_jobs now (Job.set_overdue false j) = false)
  /\ check_overdue_jobs_clear_first now db = check_overdue_jobs now db.
Proof.
  intros first second.
  assert (Hsecond : second = (mkReport 0 0 now, snd first)).
  { subst second. apply sweep_settled. intros j Hin.
    subst first. rewrite sweep_rows in Hin.
    apply in_map_iff in Hin as [j0 [<- _]]. reflexivity. }
  rewrite Hsecond. cbn [fst snd marked_overdue cleared_overdue].
  split; [reflexivity|]. split; [reflexivity|]. split; [reflexivity|].
  split; [|split].
  - intros j Hj. unfold overdue_jobs in Hj. fold (due_at now j) in Hj.
    unfold not_overdue_jobs.
    fold (due_at now (Job.set_overdue true j)). fold (due_at now j).
    rewrite due_set_overdue.
    apply andb_true_iff in Hj as [Hd Ho]. rewrite Hd. simpl.
    rewrite !andb_false_r. auto.
  - intros j Hj. unfold not_overdue_jobs in Hj. fold (due_at now j) in Hj.
    unfold overdue_jobs.
    fold (due_at now (Job.set_overdue false j)). fold (due_at now j).
    rewrite due_set_overdue.
    apply andb_true_iff in Hj as [Ho Hd].
    apply negb_true_iff in Hd. rewrite Hd. simpl. auto.
  - unfold check_overdue_jobs_clear_first, check_overdue_jobs,
      QuerySet.update. simpl.
    assert (Hc : List.length (filter (overdue_jobs now)
                   (map (fun r => if not_overdue_jobs now r
                                  then Job.set_overdue false r else r)
                        (jobs db)))
                 = List.length (filter (overdue_jobs now) (jobs db))).
    { apply filter_map_comm. sweep_cases. }
    assert (Hm : List.length (filter (not_overdue_jobs now)
                   (map (fun r => if overdue_jobs now r
                                  then Job.set_overdue true r else r)
                        (jobs db)))
                 = List.length (filter (not_overdue_jobs now) (jobs db))).
    { apply filter_map_comm. sweep_cases. }
    rewrite Hc, Hm. f_equal. f_equal.
    rewrite !map_map. apply map_ext. sweep_cases.
Qed.
End OverdueSweep.

(* ================================================================== *)
(** * Lookups, saves and orderings *)

Section RowFacts.
Context {A : Type}.
Variable pk_of : A -> Z.

Lemma get_found (pk : Z) (table : list A) (r : A) :
  QuerySet.get pk_of pk table = Some r -> In r table /\ pk_of r = pk.
Proof.
  unfold QuerySet.get. intros H. apply find_some in H as [Hin Hpk].
  split; [exact Hin | now apply Z.eqb_eq].
Qed.

(** Saving a row under the key it was fetched with makes the next fetch
    return the saved row. *)
Lemma get_save (pk : Z) (table : list A) (r r' : A) :
  QuerySet.get pk_of pk table = Some r ->
  pk_of r' = pk ->
  QuerySet.get pk_of pk (QuerySet.save pk_of r' table) = Some r'.
Proof.
  unfold QuerySet.get, QuerySet.save. intros Hget Hpk. subst pk.
  induction table as [|a table IH]; simpl in *; [discriminate|].
  destruct (pk_of a =? pk_of r') eqn:Ea; simpl.
  - now rewrite Z.eqb_refl.
  - rewrite Ea. now apply IH.
Qed.

(** Rows under other keys are not touched by a save. *)
Lemma get_save_other (pk : Z) (table : list A) (r' : A) :
  pk_of r' <> pk ->
  QuerySet.get pk_of pk (QuerySet.save pk_of r' table)
  = QuerySet.get pk_of pk table.
Proof.
  unfold QuerySet.get, QuerySet.save. intros Hpk.
  induction table as [|a table IH]; simpl; [reflexivity|].
  destruct (pk_of a =? pk_of r') eqn:Ea.
  - apply Z.eqb_eq in Ea.
    assert (E1 : (pk_of r' =? pk) = false) by now apply Z.eqb_neq.
    assert (E2 : (pk_of a =? pk) = false) by (rewrite Ea; exact E1).
    now rewrite E1, E2.
  - destruct (pk_of a =? pk); [reflexivity | exact IH].
Qed.

End RowFacts.

Lemma in_insert_by {A : Type} (key : A -> Z) (x y : A) (l : list A) :
  In y (QuerySet.insert_by key x l) <-> y = x \/ In y l.
Proof.
  induction l as [|a l IH]; simpl.
  - intuition.
  - destruct (key x <? key a); simpl; [intuition|].
    rewrite IH. intuition.
Qed.

Lemma in_order_by {A : Type} (key : A -> Z) (y : A) (l : list A) :
  In y (QuerySet.order_by key l) <-> In y l.
Proof.
  induction l as [|a l IH]; simpl; [tauto|].
  rewrite in_insert_by, IH. intuition.
Qed.

Lemma in_exclude {A : Type} (p : A -> bool) (y : A) (l : list A) :
  In y (QuerySet.exclude p l) <-> In y l /\ p y = false.
Proof.
  unfold QuerySet.exclude. rewrite filter_In, negb_true_iff. tauto.
Qed.

Lemma exists_false_iff {A : Type} (l : list A) :
  QuerySet.exists_ l = false <-> l = [].
Proof. destruct l; simpl; split; intros; congruence. Qed.

Lemma get_object_or_404_found {A : Type}
  (table : DB -> list A) (pk_of : A -> Z) (pk : Z) (db : DB) (r : A) :
  QuerySet.get pk_of pk (table db) = Some r ->
  get_object_or_404 table pk_of pk db = (Ok r, db).
Proof. unfold get_object_or_404. now intros ->. Qed.

Lemma bind_ok {A B : Type} (m : M A) (k : A -> M B) (db db' : DB) (a : A) :
  m db = (Ok a, db') -> bind m k db = k a db'.
Proof. unfold bind. now intros ->. Qed.

(* ================================================================== *)
(** * Job lifecycle *)

Section JobLifecycle.
Import Permissions Serializers Views JobResponses.

(** The whole of [TechnicianJobUpdateView.patch] for a technician and a
    job that exists, as one decision list. *)
Lemma technician_job_patch_cases
  (db : DB) (u : User.t) (job_id : Z) (job : Job.t)
  (new_status : option string) :
  User.role u = "TECHNICIAN"%string ->
  QuerySet.get Job.id job_id (jobs db) = Some job ->
  TechnicianJobUpdateView_patch (AuthUser u) job_id new_status db
  = if negb (Job.assigned_to job =? User.id u) then
      (Ok job_not_assigned, db)
    else if status_not_in new_status JOB_STATUSES then
      (Ok job_invalid_status, db)
    else if String.eqb (or_else new_status EmptyString) "COMPLETED"
            && QuerySet.exists_ (incomplete_tasks db job) then
      (Ok (job_incomplete (incomplete_list (incomplete_tasks db job))), db)
    else
      (Ok (job_status_updated job (or_else new_status EmptyString)),
       with_jobs
         (QuerySet.save Job.id
            (Job.set_status (or_else new_status EmptyString) job)
            (jobs db))
         db).
Proof.
  intros Hrole Hget.
  unfold TechnicianJobUpdateView_patch, not_a_technician.
  rewrite Hrole, String.eqb_refl.
  cbn [negb IsAuthenticated is_authenticated check_permissions].
  unfold bind at 1. cbn [ret].
  rewrite (bind_ok _ _ _ _ _ (get_object_or_404_found jobs Job.id _ _ _ Hget)).
  cbn [is_user].
  destruct (negb (Job.assigned_to job =? User.id u)); [reflexivity|].
  fold JOB_STATUSES.
  destruct (status_not_in new_status JOB_STATUSES); [reflexivity|].
  unfold bind, query, ret, modify.
  destruct (String.eqb (or_else new_status EmptyString) "COMPLETED");
    [|reflexivity].
  destruct (QuerySet.exists_ (incomplete_tasks db job)); reflexivity.
Qed.
(** [JobViewSet.partial_update] for an admin or a sales agent, a job that
    exists and any of the four statuses: the status is written, whatever
    the job's tasks, assignee or former status. *)
Lemma job_viewset_sets_status
  (db : DB) (u : User.t) (pk : Z) (job : Job.t) (s : string) :
  User.role u = "ADMIN"%string \/ User.role u = "SALES_AGENT"%string ->
  QuerySet.get Job.id pk (jobs db) = Some job ->
  str_in s Job.STATUS_CHOICES = true ->
  JobViewSet_partial_update (AuthUser u) pk (Some s) db
  = (Ok (mkResponse 200 (JobRepresentation (Job.set_status s job))),
     with_jobs (QuerySet.save Job.id (Job.set_status s job) (jobs db)) db).
Proof.
  intros Hrole Hget Hs.
  unfold JobViewSet_partial_update, IsAdminOrSalesAgent, role_in.
  cbn [is_authenticated andb].
  replace (str_in (User.role u) ["ADMIN"; "SALES_AGENT"]%string) with true
    by (symmetry; now apply str_in_two).
  cbn [check_permissions]. unfold bind at 1. cbn [ret].
  rewrite (bind_ok _ _ _ _ _ (get_object_or_404_found jobs Job.id _ _ _ Hget)).
  cbn [choice_is_valid]. rewrite Hs. reflexivity.
Qed.

(** The rows [incomplete_tasks] returns are the tasks of the job whose
    status is not COMPLETED. *)
Lemma in_incomplete_tasks (db : DB) (job : Job.t) (t : JobTask.t) :
  In t (incomplete_tasks db job) <->
  (In t (job_tasks db) /\ JobTask.job t = Job.id job)
  /\ JobTask.status t <> "COMPLETED"%string.
Proof.
  unfold incomplete_tasks, jobtask_set.
  rewrite in_exclude, in_order_by, filter_In, Z.eqb_eq.
  split.
  - intros [H1 H2]. split; [exact H1|].
    intros E. apply String.eqb_eq in E. congruence.
  - intros [H1 H2]. split; [exact H1|].
    destruct (String.eqb (JobTask.status t) "COMPLETED") eqn:E;
      [|reflexivity].
    apply String.eqb_eq in E. contradiction.
Qed.

(** C1, as the code has it: on the technician's status endpoint, for the
    technician the job is assigned to, a move to COMPLETED is refused
    with status 400 and the list of every task of the job that is not
    COMPLETED (id, title, status), the store untouched, as soon as one
    such task exists; with no task, or every task COMPLETED, the move is
    made and the job reads COMPLETED afterwards. *)
Theorem technician_completion_gate
  (db : DB) (u : User.t) (job_id : Z) (job : Job.t) :
  User.role u = "TECHNICIAN"%string ->
  QuerySet.get Job.id job_id (jobs db) = Some job ->
  Job.assigned_to job = User.id u ->
  let outcome :=
    TechnicianJobUpdateView_patch (AuthUser u) job_id (Some "COMPLETED"%string)
                                  db in
  let child t := In t (job_tasks db) /\ JobTask.job t = Job.id job in
  ((exists t, child t /\ JobTask.status t <> "COMPLETED"%string) ->
   exists entries,
     outcome = (Ok (job_incomplete entries), db)
     /\ forall e, In e entries <->
          exists t, (child t /\ JobTask.status t <> "COMPLETED"%string)
                    /\ e = IncompleteTask.mk (JobTask.id t) (JobTask.title t)
                                             (JobTask.status t))
  /\ ((forall t, child t -> JobTask.status t = "COMPLETED"%string) ->
      outcome
      = (Ok (job_status_updated job "COMPLETED"),
         with_jobs
           (QuerySet.save Job.id (Job.set_status "COMPLETED" job) (jobs db))
           db)
      /\ QuerySet.get Job.id job_id (jobs (snd outcome))
         = Some (Job.set_status "COMPLETED" job)).
Proof.
  intros Hrole Hget Hassigned outcome child.
  assert (Hcases := technician_job_patch_cases db u job_id job
                      (Some "COMPLETED"%string) Hrole Hget).
  fold outcome in Hcases.
  rewrite Hassigned, Z.eqb_refl in Hcases.
  cbn [negb status_not_in or_else] in Hcases.
  change (negb (str_in "COMPLETED" JOB_STATUSES)) with false in Hcases.
  rewrite String.eqb_refl in Hcases. cbn [andb] in Hcases.
  split.
  - intros [t [Hchild Hst]].
    assert (Hin : In t (incomplete_tasks db job))
      by (apply in_incomplete_tasks; split; assumption).
    destruct (QuerySet.exists_ (incomplete_tasks db job)) eqn:Hex.
    + exists (incomplete_list (incomplete_tasks db job)).
      split; [exact Hcases|].
      intros e. unfold incomplete_list. rewrite in_map_iff. split.
      * intros [t' [<- Ht']]. exists t'. split; [|reflexivity].
        now apply in_incomplete_tasks.
      * intros [t' [Ht' ->]]. exists t'. split; [reflexivity|].
        now apply in_incomplete_tasks.
    + apply exists_false_iff in Hex. rewrite Hex in Hin. destruct Hin.
  - intros Hall.
    assert (Hex : QuerySet.exists_ (incomplete_tasks db job) = false).
    { apply exists_false_iff.
      destruct (incomplete_tasks db job) as [|t l] eqn:E; [reflexivity|].
      assert (Hin : In t (incomplete_tasks db job)) by (rewrite E; now left).
      apply in_incomplete_tasks in Hin as [Hchild Hst].
      elim Hst. now apply Hall. }
    rewrite Hex in Hcases. split; [exact Hcases|].
    rewrite Hcases. cbn [snd with_jobs jobs].
    apply get_save with (r := job); [exact Hget|].
    apply (get_found Job.id) in Hget. cbn [Job.set_status Job.id]. tauto.
Qed.

(** C4, as the code has it: who may move a job depends on the endpoint.
    On the technician's status endpoint a technician who is not the
    job's assignee gets 403 whatever status is asked for (valid or not)
    and the store is untouched; the assignee is answered, and never with
    403; every other role, admin and sales agent included, gets 403
    there.  Through [JobViewSet] an admin or a sales agent moves an
    existing job to any of the four statuses, whatever its tasks: the
    answer is 200, the stored job carries the new status and every
    other field as it was; a technician, the assignee included, is
    refused there. *)
Theorem job_transition_authorization
  (db : DB) (u : User.t) (job_id : Z) (job : Job.t) :
  QuerySet.get Job.id job_id (jobs db) = Some job ->
  (User.role u = "TECHNICIAN"%string ->
   Job.assigned_to job <> User.id u ->
   forall new_status,
     TechnicianJobUpdateView_patch (AuthUser u) job_id new_status db
     = (Ok (mkResponse 403
              (Detail "You can only update jobs assigned to you")), db))
  /\ (User.role u = "TECHNICIAN"%string ->
      Job.assigned_to job = User.id u ->
      forall new_status, exists response db',
        TechnicianJobUpdateView_patch (AuthUser u) job_id new_status db
        = (Ok response, db')
        /\ status_code response <> 403)
  /\ (User.role u <> "TECHNICIAN"%string ->
      forall new_status,
        TechnicianJobUpdateView_patch (AuthUser u) job_id new_status db
        = (Ok (mkResponse 403
                 (Detail "This endpoint is only for technicians")), db))
  /\ (User.role u = "ADMIN"%string \/ User.role u = "SALES_AGENT"%string ->
      forall s, str_in s Job.STATUS_CHOICES = true ->
        exists job' db',
          JobViewSet_partial_update (AuthUser u) job_id (Some s) db
          = (Ok (mkResponse 200 (JobRepresentation job')), db')
          /\ QuerySet.get Job.id job_id (jobs db') = Some job'
          /\ Job.status job' = s
          /\ Job.id job' = Job.id job
          /\ Job.title job' = Job.title job
          /\ Job.description job' = Job.description job
          /\ Job.client_name job' = Job.client_name job
          /\ Job.scheduled_date job' = Job.scheduled_date job
          /\ Job.priority job' = Job.priority job
          /\ Job.created_by job' = Job.created_by job
          /\ Job.assigned_to job' = Job.assigned_to job
          /\ Job.created_at job' = Job.created_at job
          /\ Job.overdue job' = Job.overdue job)
  /\ (User.role u = "TECHNICIAN"%string ->
      forall status,
        JobViewSet_partial_update (AuthUser u) job_id status db
        = (Raise PermissionDenied, db)).
Proof.
  intros Hget. split; [|split; [|split; [|split]]].
  - intros Hrole Hother new_status.
    rewrite (technician_job_patch_cases db u job_id job new_status Hrole Hget).
    apply Z.eqb_neq in Hother. now rewrite Hother.
  - intros Hrole Hassigned new_status.
    rewrite (technician_job_patch_cases db u job_id job new_status Hrole Hget).
    rewrite Hassigned, Z.eqb_refl. cbn [negb].
    destruct (status_not_in new_status JOB_STATUSES).
    { eexists; eexists; split; [reflexivity | discriminate]. }
    destruct (String.eqb (or_else new_status EmptyString) "COMPLETED"
              && QuerySet.exists_ (incomplete_tasks db job)).
    { eexists; eexists; split; [reflexivity | discriminate]. }
    eexists; eexists; split; [reflexivity | discriminate].
  - intros Hrole new_status.
    unfold TechnicianJobUpdateView_patch.
    cbn [IsAuthenticated is_authenticated check_permissions not_a_technician].
    unfold bind at 1. cbn [ret].
    destruct (String.eqb (User.role u) "TECHNICIAN") eqn:E;
      [|reflexivity].
    apply String.eqb_eq in E. contradiction.
  - intros Hrole s Hs.
    rewrite (job_viewset_sets_status db u job_id job s Hrole Hget Hs).
    exists (Job.set_status s job). eexists. split; [reflexivity|].
    split; [|cbn [Job.set_status Job.status Job.id Job.title
                  Job.description Job.client_name Job.scheduled_date
                  Job.priority Job.created_by Job.assigned_to
                  Job.created_at Job.overdue]; repeat split].
    cbn [with_jobs jobs].
    apply get_save with (r := job); [exact Hget|].
    apply (get_found Job.id) in Hget. cbn [Job.set_status Job.id]. tauto.
  - intros Hrole status.
    unfold JobViewSet_partial_update, IsAdminOrSalesAgent.
    cbn [is_authenticated role_in andb]. rewrite Hrole. reflexivity.
Qed.

End JobLifecycle.

(* ================================================================== *)
(** * Task equipment ledger *)

Section Ledger.
Import Permissions Serializers Views.

Lemma for_each_cons {A : Type} (body : A -> M unit) (x : A) (xs : list A)
  (db : DB) :
  for_each body (x :: xs) db
  = match body x db with
    | (Ok _, db') => for_each body xs db'
    | (Raise e, db') => (Raise e, db')
    end.
Proof. reflexivity. Qed.

Lemma JobTaskEquipment_create_ok
  (task_pk equipment_id quantity : Z) (notes : string) (db : DB)
  (e : Equipment.t) :
  QuerySet.get Equipment.id equipment_id (equipment_catalog db) = Some e ->
  (forall r, In r (job_task_equipment db) ->
             JobTaskEquipment.job_task r = task_pk ->
             JobTaskEquipment.equipment_id r <> equipment_id) ->
  0 <= quantity ->
  JobTaskEquipment_create task_pk equipment_id quantity notes db
  = (Ok tt,
     with_job_task_equipment
       (job_task_equipment db
          ++ [JobTaskEquipment.mk (job_task_equipment_seq db) task_pk e
                                  quantity notes])
       (job_task_equipment_seq db + 1) db).
Proof.
  intros Hget Hfresh Hq. unfold JobTaskEquipment_create. rewrite Hget.
  replace (existsb _ (job_task_equipment db)) with false.
  - apply Z.ltb_ge in Hq. now rewrite Hq.
  - symmetry. apply not_true_is_false. intros Hex.
    apply existsb_exists in Hex as [r [Hin Hr]].
    apply andb_true_iff in Hr as [H1 H2].
    apply Z.eqb_eq in H1, H2. exact (Hfresh r Hin H1 H2).
Qed.

(** The insert never stores a quantity below zero, whatever it is asked. *)
Lemma JobTaskEquipment_create_nonneg
  (task_pk equipment_id quantity : Z) (notes : string) (db db' : DB) :
  JobTaskEquipment_create task_pk equipment_id quantity notes db
  = (Ok tt, db') ->
  0 <= quantity.
Proof.
  unfold JobTaskEquipment_create.
  destruct (QuerySet.get _ _ _); [|discriminate].
  destruct (existsb _ _); [discriminate|].
  destruct (quantity <? 0) eqn:E; [discriminate|].
  intros _. now apply Z.ltb_ge.
Qed.

(** One turn of the loop of inserts: the item's [equipment_id] is read
    first, and the loop ends there when the key is missing. *)
Lemma create_requirements_cons
  (task_pk : Z) (q : EquipmentRequirement.t)
  (reqs : list EquipmentRequirement.t) (db : DB) :
  create_requirements task_pk (q :: reqs) db
  = match EquipmentRequirement.equipment_id q with
    | None => (Raise KeyError, db)
    | Some equipment_id =>
        match JobTaskEquipment_create task_pk equipment_id
                (or_else (EquipmentRequirement.quantity q) 1)
                (or_else (EquipmentRequirement.notes q) EmptyString) db with
        | (Ok _, db') => create_requirements task_pk reqs db'
        | (Raise e, db') => (Raise e, db')
        end
    end.
Proof.
  unfold create_requirements. rewrite for_each_cons.
  destruct (EquipmentRequirement.equipment_id q); reflexivity.
Qed.

(** The loop of inserts, on a list the database takes: every requirement
    becomes one row of the task, in order, after the rows already there. *)
Lemma create_requirements_ok (task_pk : Z) (catalog : list Equipment.t) :
  forall (reqs : list EquipmentRequirement.t) (db : DB),
    equipment_catalog db = catalog ->
    acceptable catalog reqs ->
    (forall r, In r (job_task_equipment db) ->
               JobTaskEquipment.job_task r = task_pk ->
               ~ In (Some (JobTaskEquipment.equipment_id r))
                    (map EquipmentRequirement.equipment_id reqs)) ->
    exists rows seq',
      create_requirements task_pk reqs db
      = (Ok tt,
         with_job_task_equipment (job_task_equipment db ++ rows) seq' db)
      /\ map ledger_entry rows = map requested_entry reqs
      /\ Forall (fun r => JobTaskEquipment.job_task r = task_pk) rows.
Proof.
  induction reqs as [|q reqs IH]; intros db Hcat [Hnodup Hall] Hfresh.
  - exists [], (job_task_equipment_seq db). rewrite app_nil_r.
    split; [destruct db; reflexivity | split; [reflexivity | constructor]].
  - rewrite create_requirements_cons.
    destruct q as [[eid|] quantity notes];
      cbn [EquipmentRequirement.equipment_id EquipmentRequirement.quantity
           EquipmentRequirement.notes map] in *;
      inversion Hall as [|? ? [Hfound Hq] Hall']; subst; [|contradiction].
    inversion Hnodup as [|? ? Hnotin Hnodup']; subst.
    destruct (QuerySet.get Equipment.id eid (equipment_catalog db))
      as [e|] eqn:Hget; [|contradiction].
    rewrite (JobTaskEquipment_create_ok _ _ _ _ _ e Hget); [|
      intros r Hin Htask E; apply (Hfresh r Hin Htask); left; now rewrite E
      | exact Hq].
    set (row := JobTaskEquipment.mk (job_task_equipment_seq db) task_pk e
                  (or_else quantity 1) (or_else notes EmptyString)).
    set (db1 := with_job_task_equipment (job_task_equipment db ++ [row])
                  (job_task_equipment_seq db + 1) db).
    assert (Hrow : JobTaskEquipment.equipment_id row = eid)
      by (apply (get_found Equipment.id) in Hget; tauto).
    destruct (IH db1) as [rows [seq' [Hrun [Hrows Htasks]]]].
    + reflexivity.
    + split; assumption.
    + intros r Hin Htask. subst db1. cbn [with_job_task_equipment
        job_task_equipment] in Hin.
      apply in_app_or in Hin as [Hin|[<-|[]]].
      * intros Hmem. apply (Hfresh r Hin Htask). now right.
      * rewrite Hrow. exact Hnotin.
    + exists (row :: rows), seq'. split; [|split].
      * rewrite Hrun.
        subst db1. cbn [with_job_task_equipment job_task_equipment jobs
          job_tasks equipment_catalog]. now rewrite <- app_assoc.
      * cbn [map]. rewrite Hrows. f_equal.
        unfold ledger_entry, requested_entry. rewrite Hrow. reflexivity.
      * constructor; [reflexivity | exact Htasks].
Qed.

Lemma filter_exclude_same {A : Type} (p : A -> bool) (l : list A) :
  filter p (QuerySet.exclude p l) = [].
Proof.
  apply filter_none. intros x Hx. apply in_exclude in Hx. tauto.
Qed.

Lemma filter_exclude_other {A : Type} (p p' : A -> bool) (l : list A) :
  (forall x, p' x = true -> p x = false) ->
  filter p' (QuerySet.exclude p l) = filter p' l.
Proof.
  intros H. unfold QuerySet.exclude.
  induction l as [|a l IH]; simpl; [reflexivity|].
  destruct (p a) eqn:Ep; simpl.
  - destruct (p' a) eqn:Ep'; [|exact IH].
    apply H in Ep'. congruence.
  - destruct (p' a); now rewrite IH.
Qed.

Lemma filter_all {A : Type} (p : A -> bool) (l : list A) :
  Forall (fun x => p x = true) l -> filter p l = l.
Proof.
  induction 1 as [|a l Ha _ IH]; simpl; [reflexivity|].
  now rewrite Ha, IH.
Qed.

Lemma updated_instance_id (now : datetime) (t : JobTask.t) (v : TaskData.t) :
  JobTask.id (updated_instance now t v) = JobTask.id t.
Proof.
  unfold updated_instance.
  destruct (_ && _); reflexivity.
Qed.

(** [JobTaskSerializer.update], step by step: the save, which the
    database may refuse and then nothing is written; then, when a list
    was sent, the delete and the loop of inserts. *)
Lemma update_runs
  (now : datetime) (task : JobTask.t) (v : TaskData.t) (db : DB) :
  JobTaskSerializer_update now task v db
  = if JobTask_save_refused db (updated_instance now task v)
    then (Raise IntegrityError, db)
    else
      match TaskData.equipment_requirements v with
      | None =>
          (Ok (updated_instance now task v),
           with_job_tasks
             (QuerySet.save JobTask.id (updated_instance now task v)
                            (job_tasks db)) db)
      | Some reqs =>
          match create_requirements (JobTask.id task) reqs
                  (with_job_task_equipment
                     (QuerySet.exclude
                        (fun r => JobTaskEquipment.job_task r
                                  =? JobTask.id task)
                        (job_task_equipment db))
                     (job_task_equipment_seq db)
                     (with_job_tasks
                        (QuerySet.save JobTask.id
                           (updated_instance now task v) (job_tasks db))
                        db)) with
          | (Ok _, db') => (Ok (updated_instance now task v), db')
          | (Raise e, db') => (Raise e, db')
          end
      end.
Proof.
  unfold JobTaskSerializer_update.
  fold (updated_instance now task v).
  unfold bind at 1. unfold JobTask_save.
  destruct (JobTask_save_refused db (updated_instance now task v));
    [reflexivity|].
  destruct (TaskData.equipment_requirements v) as [reqs|]; [|reflexivity].
  unfold delete_requirements, bind, modify, ret. cbv beta iota.
  rewrite updated_instance_id.
  cbn [with_job_tasks job_task_equipment job_task_equipment_seq].
  match goal with
  | |- context [create_requirements ?pk ?l ?d] =>
      destruct (create_requirements pk l d) as [[[]|e] db1]; reflexivity
  end.
Qed.

(** Whether a task row can be saved does not depend on what an earlier
    save wrote into the row of the same task, nor on the ledger. *)
Lemma save_refused_after_save (db db1 : DB) (inst1 inst2 : JobTask.t) :
  jobs db1 = jobs db ->
  job_tasks db1 = QuerySet.save JobTask.id inst1 (job_tasks db) ->
  JobTask.id inst2 = JobTask.id inst1 ->
  JobTask_save_refused db1 inst2 = JobTask_save_refused db inst2.
Proof.
  intros Hjobs Htasks Hid. unfold JobTask_save_refused.
  rewrite Hjobs, Htasks.
  set (other := fun t => negb (JobTask.id t =? JobTask.id inst2)
                         && (JobTask.job t =? JobTask.job inst2)
                         && (JobTask.order t =? JobTask.order inst2)).
  assert (Hsame : forall l,
             existsb other (QuerySet.save JobTask.id inst1 l)
             = existsb other l).
  { unfold QuerySet.save.
    induction l as [|r l IH]; cbn [map existsb]; [reflexivity|].
    rewrite IH. f_equal.
    destruct (JobTask.id r =? JobTask.id inst1) eqn:E; [|reflexivity].
    apply Z.eqb_eq in E. unfold other.
    rewrite E, <- Hid, Z.eqb_refl. reflexivity. }
  now rewrite Hsame.
Qed.

(** One call of [JobTaskSerializer.update] that carries a requirement
    list the database takes, on a row the database lets it save: the
    call returns, the task's ledger is that list and nothing else, and
    the ledgers of other tasks are as before. *)
Lemma update_replaces_requirements
  (now : datetime) (db : DB) (task : JobTask.t) (v : TaskData.t)
  (reqs : list EquipmentRequirement.t) :
  TaskData.equipment_requirements v = Some reqs ->
  savable db (updated_instance now task v) ->
  acceptable (equipment_catalog db) reqs ->
  exists db',
    JobTaskSerializer_update now task v db
    = (Ok (updated_instance now task v), db')
    /\ equipment_catalog db' = equipment_catalog db
    /\ jobs db' = jobs db
    /\ job_tasks db'
       = QuerySet.save JobTask.id (updated_instance now task v) (job_tasks db)
    /\ map ledger_entry (jobtaskequipment_set db' (JobTask.id task))
       = map requested_entry reqs
    /\ (forall pk, pk <> JobTask.id task ->
          jobtaskequipment_set db' pk = jobtaskequipment_set db pk).
Proof.
  intros Hreqs Hsave Hacc.
  rewrite update_runs, Hsave, Hreqs.
  set (inst := updated_instance now task v).
  set (db_cleared :=
         with_job_task_equipment
           (QuerySet.exclude
              (fun r => JobTaskEquipment.job_task r =? JobTask.id task)
              (job_task_equipment db))
           (job_task_equipment_seq db)
           (with_job_tasks (QuerySet.save JobTask.id inst (job_tasks db)) db)).
  destruct (create_requirements_ok (JobTask.id task) (equipment_catalog db)
              reqs db_cleared) as [rows [seq' [Hrun [Hrows Htasks]]]].
  - reflexivity.
  - exact Hacc.
  - intros r Hin Htask. subst db_cleared.
    cbn [with_job_task_equipment job_task_equipment] in Hin.
    apply in_exclude in Hin as [_ Hne].
    apply Z.eqb_neq in Hne. contradiction.
  - rewrite Hrun.
    exists (with_job_task_equipment (job_task_equipment db_cleared ++ rows)
              seq' db_cleared).
    split; [reflexivity|].
    split; [reflexivity|]. split; [reflexivity|]. split; [reflexivity|].
    split.
    + unfold jobtaskequipment_set.
      cbn [with_job_task_equipment job_task_equipment].
      rewrite filter_app. subst db_cleared.
      cbn [with_job_task_equipment job_task_equipment].
      rewrite filter_exclude_same. cbn [app].
      rewrite filter_all; [exact Hrows|].
      eapply Forall_impl; [|exact Htasks].
      intros r Hr. now apply Z.eqb_eq.
    + intros pk Hpk. unfold jobtaskequipment_set.
      cbn [with_job_task_equipment job_task_equipment].
      rewrite filter_app. subst db_cleared.
      cbn [with_job_task_equipment job_task_equipment].
      rewrite filter_exclude_other.
      * rewrite (filter_none _ rows); [now rewrite app_nil_r|].
        intros r Hr. apply Z.eqb_neq.
        rewrite Forall_forall in Htasks. rewrite (Htasks r Hr). congruence.
      * intros r Hr. apply Z.eqb_eq in Hr. apply Z.eqb_neq. congruence.
Qed.

(** An update that carries no requirement list leaves the ledger table
    as it is, however it ends, and returns when the database lets the
    row be saved. *)
Lemma update_without_requirements
  (now : datetime) (db : DB) (task : JobTask.t) (v : TaskData.t) :
  TaskData.equipment_requirements v = None ->
  job_task_equipment (snd (JobTaskSerializer_update now task v db))
  = job_task_equipment db
  /\ job_task_equipment_seq (snd (JobTaskSerializer_update now task v db))
     = job_task_equipment_seq db
  /\ (savable db (updated_instance now task v) ->
      exists db',
        JobTaskSerializer_update now task v db
        = (Ok (updated_instance now task v), db')).
Proof.
  intros Hnone. rewrite update_runs, Hnone. unfold savable.
  destruct (JobTask_save_refused db (updated_instance now task v)).
  - split; [reflexivity|]. split; [reflexivity | discriminate].
  - split; [reflexivity|]. split; [reflexivity|]. intros _. eauto.
Qed.

(** Whenever the loop of inserts returns, what it added is the list it
    was given, row for row. *)
Lemma create_requirements_shape (task_pk : Z) :
  forall (reqs : list EquipmentRequirement.t) (db db' : DB),
    create_requirements task_pk reqs db = (Ok tt, db') ->
    exists rows seq',
      db' = with_job_task_equipment (job_task_equipment db ++ rows) seq' db
      /\ map ledger_entry rows = map requested_entry reqs
      /\ Forall (fun r => JobTaskEquipment.job_task r = task_pk) rows.
Proof.
  induction reqs as [|q reqs IH]; intros db db' Hrun.
  - inversion Hrun; subst. exists [], (job_task_equipment_seq db').
    rewrite app_nil_r.
    split; [destruct db'; reflexivity | split; [reflexivity | constructor]].
  - rewrite create_requirements_cons in Hrun.
    destruct q as [[eid|] quantity notes];
      cbn [EquipmentRequirement.equipment_id EquipmentRequirement.quantity
           EquipmentRequirement.notes] in Hrun; [|discriminate].
    unfold JobTaskEquipment_create in Hrun at 1.
    destruct (QuerySet.get Equipment.id eid (equipment_catalog db))
      as [e|] eqn:Hget; [|discriminate].
    destruct (existsb _ (job_task_equipment db)); [discriminate|].
    destruct (_ <? 0); [discriminate|].
    apply IH in Hrun as [rows [seq' [-> [Hrows Htasks]]]].
    eexists (_ :: rows), seq'. split; [|split].
    + cbn [with_job_task_equipment job_task_equipment jobs job_tasks
           equipment_catalog]. rewrite <- app_assoc. reflexivity.
    + cbn [map]. rewrite Hrows. f_equal.
      unfold ledger_entry, requested_entry, JobTaskEquipment.equipment_id.
      cbn [JobTaskEquipment.equipment JobTaskEquipment.quantity
           JobTaskEquipment.notes EquipmentRequirement.equipment_id
           EquipmentRequirement.quantity EquipmentRequirement.notes].
      apply (get_found Equipment.id) in Hget as [_ ->]. reflexivity.
    + constructor; [reflexivity | exact Htasks].
Qed.

(** Whenever an update that carries a requirement list returns, the row
    was one the database lets it save, the task's ledger is that list,
    the ledgers of other tasks are as before, and the instance returned
    is the one saved. *)
Lemma update_requirements_shape
  (now : datetime) (db db' : DB) (task t' : JobTask.t) (v : TaskData.t)
  (reqs : list EquipmentRequirement.t) :
  TaskData.equipment_requirements v = Some reqs ->
  JobTaskSerializer_update now task v db = (Ok t', db') ->
  t' = updated_instance now task v
  /\ savable db t'
  /\ jobs db' = jobs db
  /\ job_tasks db' = QuerySet.save JobTask.id t' (job_tasks db)
  /\ map ledger_entry (jobtaskequipment_set db' (JobTask.id task))
     = map requested_entry reqs
  /\ (forall pk, pk <> JobTask.id task ->
        jobtaskequipment_set db' pk = jobtaskequipment_set db pk).
Proof.
  intros Hreqs Hrun. rewrite update_runs, Hreqs in Hrun.
  destruct (JobTask_save_refused db (updated_instance now task v))
    eqn:Hsave; [discriminate|].
  match type of Hrun with
  | context [create_requirements ?pk ?l ?d] =>
      destruct (create_requirements pk l d) as [[[]|e] db1] eqn:Hloop;
      [|discriminate]
  end.
  inversion Hrun; subst.
  apply create_requirements_shape in Hloop
    as [rows [seq' [-> [Hrows Htasks]]]].
  split; [reflexivity|]. split; [exact Hsave|].
  split; [reflexivity|]. split; [reflexivity|].
  unfold jobtaskequipment_set.
  cbn [with_job_task_equipment with_job_tasks job_task_equipment].
  split.
  - rewrite filter_app, filter_exclude_same. cbn [app].
    rewrite filter_all; [exact Hrows|].
    eapply Forall_impl; [|exact Htasks].
    intros r Hr. now apply Z.eqb_eq.
  - intros pk Hpk. rewrite filter_app, filter_exclude_other.
    + rewrite (filter_none _ rows); [now rewrite app_nil_r|].
      intros r Hr. apply Z.eqb_neq.
      rewrite Forall_forall in Htasks. rewrite (Htasks r Hr). congruence.
    + intros r Hr. apply Z.eqb_eq in Hr. apply Z.eqb_neq. congruence.
Qed.

(** [JobTaskViewSet.partial_update] for an admin or a sales agent and a
    task that exists: validation, then the serializer's update on the
    items as validated. *)
Lemma task_viewset_cases
  (max_quantity : Z) (now : datetime) (db : DB) (u : User.t) (pk : Z)
  (task : JobTask.t) (status : option string)
  (items : option (list RequirementItem.t)) :
  User.role u = "ADMIN"%string \/ User.role u = "SALES_AGENT"%string ->
  QuerySet.get JobTask.id pk (job_tasks db) = Some task ->
  JobTaskViewSet_partial_update max_quantity now (AuthUser u) pk status
                                items db
  = if negb (choice_is_valid JobTask.STATUS_CHOICES status
             && forallb (requirement_is_valid max_quantity)
                  (or_else (option_map (map RequirementItem.validated) items)
                           []))
    then (Raise ValidationError, db)
    else
      match JobTaskSerializer_update now task
              (TaskData.mk None None None status None None
                 (option_map (map RequirementItem.validated) items)) db with
      | (Ok instance, db') =>
          (Ok (mkResponse 200 (TaskRepresentation instance)), db')
      | (Raise e, db') => (Raise e, db')
      end.
Proof.
  intros Hrole Hget.
  assert (Hin : str_in (User.role u) ["ADMIN"; "SALES_AGENT"]%string = true)
    by now apply str_in_two.
  assert (Hnot : String.eqb (User.role u) "TECHNICIAN" = false)
    by (destruct Hrole as [-> | ->]; reflexivity).
  unfold JobTaskViewSet_partial_update, CanManageTasks_has_permission,
    CanManageTasks_has_object_permission.
  cbn [role_in role_is is_authenticated negb].
  rewrite Hin, Hnot. cbn [check_permissions].
  unfold bind at 1. cbn [ret].
  rewrite (bind_ok _ _ _ _ _
             (get_object_or_404_found job_tasks JobTask.id _ _ _ Hget)).
  unfold bind at 1, lift. unfold bind at 1. cbn [check_permissions ret].
  destruct (negb _); [reflexivity|].
  unfold bind at 1, ret.
  destruct (JobTaskSerializer_update _ _ _ _) as [[inst|e] db']; reflexivity.
Qed.

Lemma requirement_is_valid_spec
  (max_quantity : Z) (q : EquipmentRequirement.t) :
  requirement_is_valid max_quantity q = true <->
  (forall n, EquipmentRequirement.quantity q = Some n ->
             0 <= n <= max_quantity).
Proof.
  unfold requirement_is_valid, quantity_is_valid.
  destruct (EquipmentRequirement.quantity q) as [n|].
  - rewrite andb_true_iff, !Z.leb_le. split.
    + intros H n' E. inversion E; subst. exact H.
    + intros H. now apply H.
  - split; [intros _ n E; discriminate | reflexivity].
Qed.

(** A task row read from a store that keeps the constraints of its
    table can be saved again once only its status has been set: its
    job and its order are the ones the database already holds. *)
Lemma savable_status_only
  (now : datetime) (db : DB) (task : JobTask.t) (status : option string)
  (reqs : option (list EquipmentRequirement.t)) :
  savable db (updated_instance now task
                (TaskData.mk None None None status None None reqs))
  <-> savable db task.
Proof.
  unfold savable, JobTask_save_refused, updated_instance.
  destruct (_ && _); reflexivity.
Qed.

Lemma JobTaskEquipment_create_outcome
  (task_pk equipment_id quantity : Z) (notes : string) (db : DB) :
  (exists e,
     QuerySet.get Equipment.id equipment_id (equipment_catalog db) = Some e
     /\ existsb (fun r => (JobTaskEquipment.job_task r =? task_pk)
                          && (JobTaskEquipment.equipment_id r =? equipment_id))
                (job_task_equipment db) = false
     /\ 0 <= quantity
     /\ JobTaskEquipment_create task_pk equipment_id quantity notes db
        = (Ok tt,
           with_job_task_equipment
             (job_task_equipment db
                ++ [JobTaskEquipment.mk (job_task_equipment_seq db) task_pk e
                                        quantity notes])
             (job_task_equipment_seq db + 1) db))
  \/ JobTaskEquipment_create task_pk equipment_id quantity notes db
     = (Raise IntegrityError, db).
Proof.
  unfold JobTaskEquipment_create.
  destruct (QuerySet.get Equipment.id equipment_id (equipment_catalog db))
    as [e|]; [|right; reflexivity].
  destruct (existsb _ (job_task_equipment db)) eqn:Ex; [right; reflexivity|].
  destruct (quantity <? 0) eqn:Eq; [right; reflexivity|].
  left. exists e. apply Z.ltb_ge in Eq. auto.
Qed.

(** A property of the store that one successful insert keeps is kept by
    the loop of inserts, however the loop ends. *)
Lemma create_requirements_keeps (I : DB -> Prop) (task_pk : Z) :
  (forall equipment_id quantity notes db db',
     I db ->
     JobTaskEquipment_create task_pk equipment_id quantity notes db
     = (Ok tt, db') ->
     I db') ->
  forall reqs db, I db -> I (snd (create_requirements task_pk reqs db)).
Proof.
  intros Hstep. induction reqs as [|q reqs IH]; intros db HI; [exact HI|].
  rewrite create_requirements_cons.
  destruct (EquipmentRequirement.equipment_id q) as [eid|]; [|exact HI].
  destruct (JobTaskEquipment_create_outcome task_pk eid
              (or_else (EquipmentRequirement.quantity q) 1)
              (or_else (EquipmentRequirement.notes q) EmptyString) db)
    as [[e [_ [_ [_ Hok]]]] | Hraise].
  - rewrite Hok. apply IH. exact (Hstep _ _ _ _ _ HI Hok).
  - rewrite Hraise. exact HI.
Qed.

(** The store an update leaves, however it ends. *)
Lemma update_store (now : datetime) (task : JobTask.t) (v : TaskData.t)
  (db : DB) :
  snd (JobTaskSerializer_update now task v db)
  = if JobTask_save_refused db (updated_instance now task v) then db
    else
      match TaskData.equipment_requirements v with
      | None =>
          with_job_tasks
            (QuerySet.save JobTask.id (updated_instance now task v)
                           (job_tasks db)) db
      | Some reqs =>
          snd (create_requirements (JobTask.id task) reqs
                 (with_job_task_equipment
                    (QuerySet.exclude
                       (fun r => JobTaskEquipment.job_task r
                                 =? JobTask.id task)
                       (job_task_equipment db))
                    (job_task_equipment_seq db)
                    (with_job_tasks
                       (QuerySet.save JobTask.id
                          (updated_instance now task v) (job_tasks db))
                       db)))
      end.
Proof.
  rewrite update_runs.
  destruct (JobTask_save_refused db (updated_instance now task v));
    [reflexivity|].
  destruct (TaskData.equipment_requirements v) as [reqs|]; [|reflexivity].
  match goal with
  | |- context [create_requirements ?pk ?l ?d] =>
      destruct (create_requirements pk l d) as [[[]|e] db1]; reflexivity
  end.
Qed.

(** Every ledger row an update adds has a quantity of at least zero,
    however the update ends and whatever quantities were sent. *)
Lemma update_adds_nonnegative
  (now : datetime) (task : JobTask.t) (v : TaskData.t) (db : DB)
  (r : JobTaskEquipment.t) :
  In r (job_task_equipment (snd (JobTaskSerializer_update now task v db))) ->
  In r (job_task_equipment db) \/ 0 <= JobTaskEquipment.quantity r.
Proof.
  rewrite update_store.
  destruct (JobTask_save_refused db (updated_instance now task v));
    [now left|].
  destruct (TaskData.equipment_requirements v) as [reqs|]; [|now left].
  revert r.
  apply (create_requirements_keeps
           (fun d => forall r, In r (job_task_equipment d) ->
                               In r (job_task_equipment db)
                               \/ 0 <= JobTaskEquipment.quantity r)).
  - intros eid q n d d' Hd Hok r Hr.
    assert (Hq := JobTaskEquipment_create_nonneg _ _ _ _ _ _ Hok).
    unfold JobTaskEquipment_create in Hok.
    destruct (QuerySet.get Equipment.id eid (equipment_catalog d));
      [|discriminate].
    destruct (existsb _ _); [discriminate|].
    destruct (q <? 0); [discriminate|].
    inversion Hok; subst d'.
    cbn [with_job_task_equipment job_task_equipment] in Hr.
    apply in_app_or in Hr as [Hr | [<- | []]]; [now apply Hd|].
    right. exact Hq.
  - intros r Hr. left.
    cbn [with_job_task_equipment with_job_tasks job_task_equipment] in Hr.
    apply in_exclude in Hr. tauto.
Qed.

(** C6, as the code has it: on the task update a requirement's quantity
    must not be below zero (an absent quantity stands for 1).  A list
    with a negative quantity is turned down with a validation error and
    nothing is stored; however the request ends, every ledger row it
    adds has a quantity of at least zero; when the update is answered,
    the task's ledger is the submitted list, item for item; and a list
    the database takes, a quantity of zero included, is answered 200 and
    stored as sent, provided the task row can be saved and no quantity
    is above the limit the database backend sets. *)
Theorem requirement_quantity_is_nonnegative
  (max_quantity : Z) (now : datetime) (db : DB) (u : User.t) (pk : Z)
  (task : JobTask.t) (status : option string)
  (items : list RequirementItem.t) :
  User.role u = "ADMIN"%string \/ User.role u = "SALES_AGENT"%string ->
  QuerySet.get JobTask.id pk (job_tasks db) = Some task ->
  let outcome :=
    JobTaskViewSet_partial_update max_quantity now (AuthUser u) pk status
                                  (Some items) db in
  ((exists i n, In i items /\ RequirementItem.quantity i = Some n /\ n < 0) ->
   outcome = (Raise ValidationError, db))
  /\ (forall r, In r (job_task_equipment (snd outcome)) ->
                In r (job_task_equipment db)
                \/ 0 <= JobTaskEquipment.quantity r)
  /\ (forall response db',
        outcome = (Ok response, db') ->
        status_code response = 200
        /\ map ledger_entry (jobtaskequipment_set db' pk)
           = map requested_entry (map RequirementItem.validated items)
        /\ forall r, In r (jobtaskequipment_set db' pk) ->
                     0 <= JobTaskEquipment.quantity r)
  /\ (choice_is_valid JobTask.STATUS_CHOICES status = true ->
      savable db task ->
      acceptable (equipment_catalog db)
                 (map RequirementItem.validated items) ->
      (forall i n, In i items -> RequirementItem.quantity i = Some n ->
                   n <= max_quantity) ->
      exists response db',
        outcome = (Ok response, db')
        /\ status_code response = 200
        /\ map ledger_entry (jobtaskequipment_set db' pk)
           = map requested_entry (map RequirementItem.validated items)).
Proof.
  intros Hrole Hget outcome.
  assert (Hpk : JobTask.id task = pk)
    by (apply (get_found JobTask.id) in Hget; tauto).
  assert (Hcases := task_viewset_cases max_quantity now db u pk task status
                      (Some items) Hrole Hget).
  fold outcome in Hcases. cbn [option_map or_else] in Hcases.
  set (reqs := map RequirementItem.validated items) in *.
  set (v := TaskData.mk None None None status None None (Some reqs)) in *.
  split; [|split; [|split]].
  - intros [i [n [Hin [Hq Hneg]]]].
    assert (Hinvalid : forallb (requirement_is_valid max_quantity) reqs
                       = false).
    { apply not_true_is_false. intros Hall.
      rewrite forallb_forall in Hall.
      assert (Hi : In (RequirementItem.validated i) reqs)
        by (apply in_map; exact Hin).
      apply Hall in Hi.
      apply requirement_is_valid_spec with (n := n) in Hi; [lia | exact Hq]. }
    rewrite Hinvalid, andb_false_r in Hcases. exact Hcases.
  - intros r Hr. rewrite Hcases in Hr.
    destruct (negb _); [left; exact Hr|].
    assert (Hadd := update_adds_nonnegative now task v db r).
    destruct (JobTaskSerializer_update now task v db) as [[inst|e] d];
      cbn [snd] in Hr, Hadd; now apply Hadd.
  - intros response db' Hout. rewrite Hout in Hcases.
    destruct (choice_is_valid JobTask.STATUS_CHOICES status
              && forallb (requirement_is_valid max_quantity) reqs)
      eqn:Hvalid; cbn [negb] in Hcases; [|discriminate].
    destruct (JobTaskSerializer_update now task v db) as [[inst|e] db1]
      eqn:Hrun; [|discriminate].
    inversion Hcases; subst db1.
    destruct (update_requirements_shape now db db' task inst v reqs
                eq_refl Hrun) as [_ [_ [_ [_ [Hset _]]]]].
    rewrite Hpk in Hset. split; [reflexivity|]. split; [exact Hset|].
    intros r Hr.
    apply andb_true_iff in Hvalid as [_ Hall].
    rewrite forallb_forall in Hall.
    assert (Hentry : In (ledger_entry r) (map requested_entry reqs))
      by (rewrite <- Hset; now apply in_map).
    apply in_map_iff in Hentry as [q [Eq Hq]].
    apply Hall in Hq.
    assert (Hquantity : JobTaskEquipment.quantity r
                        = or_else (EquipmentRequirement.quantity q) 1)
      by (unfold ledger_entry, requested_entry in Eq; congruence).
    rewrite Hquantity.
    destruct (EquipmentRequirement.quantity q) as [n|] eqn:En.
    + cbn [or_else].
      apply (proj1 (requirement_is_valid_spec max_quantity q) Hq n En).
    + cbn [or_else]. lia.
  - intros Hstatus Hsave Hacc Hrange.
    assert (Hall : forallb (requirement_is_valid max_quantity) reqs = true).
    { apply forallb_forall. intros q Hq.
      apply requirement_is_valid_spec. intros n En.
      destruct Hacc as [_ Hacc]. rewrite Forall_forall in Hacc.
      destruct (Hacc q Hq) as [_ Hlow]. rewrite En in Hlow.
      cbn [or_else] in Hlow. split; [exact Hlow|].
      apply in_map_iff in Hq as [i [<- Hi]]. exact (Hrange i n Hi En). }
    rewrite Hstatus, Hall in Hcases. cbn [andb negb] in Hcases.
    apply (savable_status_only now db task status (Some reqs)) in Hsave.
    destruct (update_replaces_requirements now db task v reqs eq_refl
                Hsave Hacc) as [db' [Hrun [_ [_ [_ [Hset _]]]]]].
    rewrite Hrun in Hcases.
    eexists; exists db'. split; [exact Hcases|].
    split; [reflexivity|]. now rewrite <- Hpk.
Qed.

(** C7: [equipment_requirements] replaces the task's ledger.  Whenever
    an update with list [A] and then an update with list [B] return, the
    task holds exactly the entries of [B], in order (after the first
    call it held exactly those of [A]), and the ledgers of other tasks
    are as they were.  Both calls do return when the lists are ones the
    database takes and the task row is one it lets each call save.  An
    update that carries no list leaves the ledger table as it is,
    however it ends, and returns when the row can be saved. *)
Theorem set_requirements_full_replace
  (now1 now2 : datetime) (db : DB) (task : JobTask.t)
  (A B : list EquipmentRequirement.t) (vA vB vN : TaskData.t) :
  TaskData.equipment_requirements vA = Some A ->
  TaskData.equipment_requirements vB = Some B ->
  TaskData.equipment_requirements vN = None ->
  (forall t1 db1 t2 db2,
     JobTaskSerializer_update now1 task vA db = (Ok t1, db1) ->
     JobTaskSerializer_update now2 t1 vB db1 = (Ok t2, db2) ->
     map ledger_entry (jobtaskequipment_set db1 (JobTask.id task))
     = map requested_entry A
     /\ map ledger_entry (jobtaskequipment_set db2 (JobTask.id task))
        = map requested_entry B
     /\ (forall pk, pk <> JobTask.id task ->
           jobtaskequipment_set db2 pk = jobtaskequipment_set db pk))
  /\ (savable db (updated_instance now1 task vA) ->
      savable db (updated_instance now2 (updated_instance now1 task vA) vB) ->
      acceptable (equipment_catalog db) A ->
      acceptable (equipment_catalog db) B ->
      exists t1 db1 t2 db2,
        JobTaskSerializer_update now1 task vA db = (Ok t1, db1)
        /\ JobTaskSerializer_update now2 t1 vB db1 = (Ok t2, db2))
  /\ job_task_equipment (snd (JobTaskSerializer_update now1 task vN db))
     = job_task_equipment db
  /\ (savable db (updated_instance now1 task vN) ->
      exists t' db',
        JobTaskSerializer_update now1 task vN db = (Ok t', db')
        /\ job_task_equipment db' = job_task_equipment db).
Proof.
  intros HA HB HN. split; [|split; [|split]].
  - intros t1 db1 t2 db2 Hrun1 Hrun2.
    destruct (update_requirements_shape now1 db db1 task t1 vA A HA Hrun1)
      as [Ht1 [_ [_ [_ [Hset1 Hother1]]]]].
    destruct (update_requirements_shape now2 db1 db2 t1 t2 vB B HB Hrun2)
      as [_ [_ [_ [_ [Hset2 Hother2]]]]].
    assert (Hid : JobTask.id t1 = JobTask.id task)
      by (rewrite Ht1; apply updated_instance_id).
    rewrite Hid in Hset2, Hother2.
    split; [exact Hset1|]. split; [exact Hset2|].
    intros pk Hpk. rewrite Hother2 by exact Hpk. now apply Hother1.
  - intros Hsave1 Hsave2 HaccA HaccB.
    destruct (update_replaces_requirements now1 db task vA A HA Hsave1 HaccA)
      as [db1 [Hrun1 [Hcat1 [Hjobs1 [Htasks1 _]]]]].
    rewrite <- Hcat1 in HaccB.
    assert (Hsave2' : savable db1 (updated_instance now2
                                     (updated_instance now1 task vA) vB)).
    { unfold savable.
      rewrite (save_refused_after_save db db1
                 (updated_instance now1 task vA)) by
        (try assumption; apply updated_instance_id).
      exact Hsave2. }
    destruct (update_replaces_requirements now2 db1
                (updated_instance now1 task vA) vB B HB Hsave2' HaccB)
      as [db2 [Hrun2 _]].
    eauto 8.
  - apply (update_without_requirements now1 db task vN HN).
  - intros Hsave.
    destruct (update_without_requirements now1 db task vN HN)
      as [Hrows [_ Hreturn]].
    destruct (Hreturn Hsave) as [db' Hrun].
    exists (updated_instance now1 task vN), db'. split; [exact Hrun|].
    rewrite Hrun in Hrows. exact Hrows.
Qed.
End Ledger.

(* ================================================================== *)
(** * Technician dashboard *)

Section Dashboard.
Import Permissions Serializers Views.

Variable today : date.

Lemma Bucket_eqb_eq (a b : Bucket) : Bucket_eqb a b = true <-> a = b.
Proof. destruct a, b; simpl; split; intros; congruence. Qed.

(** One turn of the loop appends the job's entry to the bucket the chain
    picks, unless the job is COMPLETED, and touches no other bucket. *)
Lemma group_job_bucket (db : DB) (g : GroupedJobs.t) (job : Job.t)
  (b : Bucket) :
  bucket (group_job db today g job) b
  = bucket g b
    ++ (if listed job && Bucket_eqb (bucket_of today job) b
        then [job_data db job] else []).
Proof.
  unfold group_job, listed, bucket_of.
  destruct (String.eqb (Job.status job) "COMPLETED"); cbn [negb andb].
  - now rewrite app_nil_r.
  - destruct g as [gt gu go gn].
    destruct (Job.scheduled_date job) as [d|];
      [destruct (datetime_date d =? today);
       [|destruct (datetime_date d >? today)]|];
      destruct b; cbn [bucket Bucket_eqb GroupedJobs.today
        GroupedJobs.upcoming GroupedJobs.overdue GroupedJobs.unscheduled];
      rewrite ?app_nil_r; reflexivity.
Qed.

(** The loop as a whole: each bucket is the entries of the jobs that
    belong in it, in the order the jobs are visited. *)
Lemma fold_group_job_bucket (db : DB) (b : Bucket) :
  forall (js : list Job.t) (g : GroupedJobs.t),
    bucket (fold_left (group_job db today) js g) b
    = bucket g b
      ++ map (job_data db)
             (filter (fun j => listed j && Bucket_eqb (bucket_of today j) b)
                     js).
Proof.
  induction js as [|j js IH]; intros g; simpl.
  - now rewrite app_nil_r.
  - rewrite IH, group_job_bucket, <- app_assoc. f_equal.
    destruct (listed j && Bucket_eqb (bucket_of today j) b); reflexivity.
Qed.

Lemma bucket_grouped_for (db : DB) (user : RequestUser) (b : Bucket) :
  bucket (grouped_for db today user) b
  = map (job_data db)
        (filter (fun j => listed j && Bucket_eqb (bucket_of today j) b)
                (assigned_jobs db user)).
Proof.
  unfold grouped_for. rewrite fold_group_job_bucket.
  destruct b; reflexivity.
Qed.

Lemma in_assigned_jobs (db : DB) (u : User.t) (j : Job.t) :
  In j (assigned_jobs db (AuthUser u)) <->
  In j (jobs db) /\ Job.assigned_to j = User.id u.
Proof.
  unfold assigned_jobs. rewrite in_order_by, filter_In.
  cbn [is_user]. now rewrite Z.eqb_eq.
Qed.

(** [TechnicianDashboardView.get] for a technician, as one decision. *)
Lemma dashboard_cases (db : DB) (u : User.t) :
  User.role u = "TECHNICIAN"%string ->
  TechnicianDashboardView_get today (AuthUser u) db
  = if QuerySet.exists_ (assigned_jobs db (AuthUser u)) then
      (Ok (mkResponse 200
             (Dashboard (grouped_for db today (AuthUser u))
                        (summary_of (grouped_for db today (AuthUser u))))),
       db)
    else
      (Ok (mkResponse 200 (Detail "No jobs assigned yet")), db).
Proof.
  intros Hrole. unfold TechnicianDashboardView_get, not_a_technician.
  rewrite Hrole, String.eqb_refl.
  cbn [negb IsAuthenticated is_authenticated check_permissions].
  unfold bind, ret, query.
  destruct (QuerySet.exists_ (assigned_jobs db (AuthUser u))); reflexivity.
Qed.

Lemma exists_assigned (db : DB) (u : User.t) :
  QuerySet.exists_ (assigned_jobs db (AuthUser u)) = true <->
  exists j, In j (jobs db) /\ Job.assigned_to j = User.id u.
Proof.
  split.
  - destruct (assigned_jobs db (AuthUser u)) as [|j l] eqn:E;
      [discriminate|].
    intros _. exists j. apply in_assigned_jobs. rewrite E. now left.
  - intros [j Hj]. apply in_assigned_jobs in Hj.
    destruct (assigned_jobs db (AuthUser u)); [destruct Hj | reflexivity].
Qed.

(** Whether a job is listed, and in which bucket, can be read off its
    entry: the entry carries the status and the scheduled date. *)
Lemma job_data_determines (db : DB) (j j' : Job.t) :
  job_data db j = job_data db j' ->
  listed j = listed j' /\ bucket_of today j = bucket_of today j'.
Proof.
  intros E.
  assert (Hs : Job.status j = Job.status j')
    by exact (f_equal JobData.status E).
  assert (Hd : Job.scheduled_date j = Job.scheduled_date j')
    by exact (f_equal JobData.scheduled_date E).
  unfold listed, bucket_of. now rewrite Hs, Hd.
Qed.

(** An entry sits in a bucket exactly when its job is assigned to the
    caller, not COMPLETED, and the chain picks that bucket. *)
Lemma in_bucket (db : DB) (u : User.t) (job : Job.t) (b : Bucket) :
  In job (jobs db) -> Job.assigned_to job = User.id u ->
  (In (job_data db job) (bucket (grouped_for db today (AuthUser u)) b) <->
   listed job = true /\ bucket_of today job = b).
Proof.
  intros Hin Hassigned. rewrite bucket_grouped_for, in_map_iff. split.
  - intros [j' [E Hj']]. apply filter_In in Hj' as [_ Hj'].
    apply andb_true_iff in Hj' as [Hl Hb]. apply Bucket_eqb_eq in Hb.
    destruct (job_data_determines db j' job E) as [<- <-]. auto.
  - intros [Hl Hb]. exists job. split; [reflexivity|].
    apply filter_In. split; [now apply in_assigned_jobs|].
    rewrite Hl. now apply Bucket_eqb_eq.
Qed.

Lemma bucket_of_spec (job : Job.t) :
  (bucket_of today job = Unscheduled <-> Job.scheduled_date job = None)
  /\ (bucket_of today job = Today <->
      exists d, Job.scheduled_date job = Some d /\ datetime_date d = today)
  /\ (bucket_of today job = Upcoming <->
      exists d, Job.scheduled_date job = Some d /\ today < datetime_date d)
  /\ (bucket_of today job = Overdue <->
      exists d, Job.scheduled_date job = Some d /\ datetime_date d < today).
Proof.
  unfold bucket_of. destruct (Job.scheduled_date job) as [d|].
  - destruct (datetime_date d =? today) eqn:E1;
      [apply Z.eqb_eq in E1 | apply Z.eqb_neq in E1;
       destruct (datetime_date d >? today) eqn:E2;
       [apply Z.gtb_lt in E2 | rewrite Z.gtb_ltb in E2;
                               apply Z.ltb_ge in E2]];
      (repeat split; try discriminate; try (intros _; exists d; split;
        [reflexivity | lia]);
       try (intros [d' [Hd Hc]]; inversion Hd; subst; lia)).
  - repeat split; try discriminate; intros [d' [Hd _]]; discriminate.
Qed.

Lemma listed_spec (job : Job.t) :
  listed job = true <-> Job.status job <> "COMPLETED"%string.
Proof.
  unfold listed. rewrite negb_true_iff. split.
  - intros H E. rewrite E in H. discriminate.
  - intros H. destruct (String.eqb (Job.status job) "COMPLETED") eqn:E;
      [|reflexivity].
    apply String.eqb_eq in E. contradiction.
Qed.

Lemma length_buckets (db : DB) (user : RequestUser) :
  List.length
    (List.concat (GroupedJobs.values (grouped_for db today user)))
  = List.length (filter listed (assigned_jobs db user)).
Proof.
  unfold GroupedJobs.values. cbn [List.concat].
  change (GroupedJobs.today (grouped_for db today user))
    with (bucket (grouped_for db today user) Today).
  change (GroupedJobs.upcoming (grouped_for db today user))
    with (bucket (grouped_for db today user) Upcoming).
  change (GroupedJobs.overdue (grouped_for db today user))
    with (bucket (grouped_for db today user) Overdue).
  change (GroupedJobs.unscheduled (grouped_for db today user))
    with (bucket (grouped_for db today user) Unscheduled).
  rewrite !bucket_grouped_for, !length_app, !length_map.
  induction (assigned_jobs db user) as [|j js IH]; [reflexivity|].
  cbn [filter]. destruct (listed j); cbn [andb].
  - destruct (bucket_of today j); cbn [Bucket_eqb List.length];
      rewrite <- IH; cbn [List.length]; lia.
  - exact IH.
Qed.

Section FlagBlind.
Variable flag : Job.t -> bool.


Lemma insert_by_map {A : Type} (s : A -> A) (key : A -> Z) :
  (forall x, key (s x) = key x) ->
  forall x l,
    QuerySet.insert_by key (s x) (map s l)
    = map s (QuerySet.insert_by key x l).
Proof.
  intros Hkey x l. induction l as [|a l IH]; simpl; [reflexivity|].
  rewrite !Hkey. destruct (key x <? key a); simpl; [reflexivity|].
  now rewrite IH.
Qed.

Lemma order_by_map {A : Type} (s : A -> A) (key : A -> Z) :
  (forall x, key (s x) = key x) ->
  forall l, QuerySet.order_by key (map s l) = map s (QuerySet.order_by key l).
Proof.
  intros Hkey l. induction l as [|a l IH]; simpl; [reflexivity|].
  now rewrite IH, insert_by_map.
Qed.

Lemma filter_map_same {A : Type} (s : A -> A) (p : A -> bool) :
  (forall x, p (s x) = p x) ->
  forall l, filter p (map s l) = map s (filter p l).
Proof.
  intros Hp l. induction l as [|a l IH]; simpl; [reflexivity|].
  rewrite Hp. destruct (p a); simpl; now rewrite IH.
Qed.

Lemma assigned_jobs_reflag (db : DB) (user : RequestUser) :
  assigned_jobs (with_jobs (map (reflag flag) (jobs db)) db) user
  = map (reflag flag) (assigned_jobs db user).
Proof.
  unfold assigned_jobs. cbn [with_jobs jobs].
  rewrite filter_map_same by reflexivity.
  now rewrite order_by_map by reflexivity.
Qed.

Lemma grouped_for_reflag (db : DB) (user : RequestUser) :
  grouped_for (with_jobs (map (reflag flag) (jobs db)) db) today user
  = grouped_for db today user.
Proof.
  unfold grouped_for. rewrite assigned_jobs_reflag.
  generalize GroupedJobs.empty.
  induction (assigned_jobs db user) as [|j js IH]; intros g;
    [reflexivity|].
  cbn [map fold_left]. rewrite <- IH. reflexivity.
Qed.

Lemma exists_reflag (db : DB) (user : RequestUser) :
  QuerySet.exists_ (assigned_jobs (with_jobs (map (reflag flag) (jobs db)) db) user)
  = QuerySet.exists_ (assigned_jobs db user).
Proof.
  rewrite assigned_jobs_reflag.
  destruct (assigned_jobs db user); reflexivity.
Qed.

(** The dashboard answers the same whatever the [overdue] flags hold. *)
Lemma dashboard_ignores_overdue_flag (db : DB) (u : User.t) :
  User.role u = "TECHNICIAN"%string ->
  fst (TechnicianDashboardView_get today (AuthUser u)
         (with_jobs (map (reflag flag) (jobs db)) db))
  = fst (TechnicianDashboardView_get today (AuthUser u) db).
Proof.
  intros Hrole. rewrite !dashboard_cases by exact Hrole.
  rewrite exists_reflag, grouped_for_reflag.
  destruct (QuerySet.exists_ (assigned_jobs db (AuthUser u))); reflexivity.
Qed.
End FlagBlind.

(** C8: for a technician with at least one assigned job the dashboard
    answers with the four buckets, and every assigned job that is not
    COMPLETED has its entry in the bucket its [scheduled_date] picks
    against [today] and in no other: none in unscheduled, the date of
    [today] in today, a later date in upcoming, an earlier date in
    overdue.  The buckets hold one entry per such job and nothing else,
    no entry has status COMPLETED, and the answer is the same whatever
    the stored [overdue] flags are. *)
Theorem dashboard_bucketing (db : DB) (u : User.t) :
  User.role u = "TECHNICIAN"%string ->
  (exists j, In j (jobs db) /\ Job.assigned_to j = User.id u) ->
  let g := grouped_for db today (AuthUser u) in
  TechnicianDashboardView_get today (AuthUser u) db
  = (Ok (mkResponse 200 (Dashboard g (summary_of g))), db)
  /\ (forall job,
        In job (jobs db) -> Job.assigned_to job = User.id u ->
        Job.status job <> "COMPLETED"%string ->
        (In (job_data db job) (GroupedJobs.unscheduled g) <->
         Job.scheduled_date job = None)
        /\ (In (job_data db job) (GroupedJobs.today g) <->
            exists d, Job.scheduled_date job = Some d
                      /\ datetime_date d = today)
        /\ (In (job_data db job) (GroupedJobs.upcoming g) <->
            exists d, Job.scheduled_date job = Some d
                      /\ today < datetime_date d)
        /\ (In (job_data db job) (GroupedJobs.overdue g) <->
            exists d, Job.scheduled_date job = Some d
                      /\ datetime_date d < today)
        /\ (exists b, In (job_data db job) (bucket g b)
                      /\ forall b', In (job_data db job) (bucket g b') ->
                                    b' = b))
  /\ List.length (List.concat (GroupedJobs.values g))
     = List.length
         (filter (fun j => negb (String.eqb (Job.status j) "COMPLETED"))
                 (assigned_jobs db (AuthUser u)))
  /\ (forall job b,
        In job (jobs db) -> Job.assigned_to job = User.id u ->
        Job.status job = "COMPLETED"%string ->
        ~ In (job_data db job) (bucket g b))
  /\ (forall e b, In e (bucket g b) ->
                  JobData.status e <> "COMPLETED"%string)
  /\ (forall flag : Job.t -> bool,
        fst (TechnicianDashboardView_get today (AuthUser u)
               (with_jobs
                  (map (fun j => Job.set_overdue (flag j) j) (jobs db)) db))
        = Ok (mkResponse 200 (Dashboard g (summary_of g)))).
Proof.
  intros Hrole Hsome g.
  assert (Hget : TechnicianDashboardView_get today (AuthUser u) db
                 = (Ok (mkResponse 200 (Dashboard g (summary_of g))), db)).
  { rewrite dashboard_cases by exact Hrole.
    apply exists_assigned in Hsome. now rewrite Hsome. }
  split; [exact Hget|]. split; [|split; [|split; [|split]]].
  - intros job Hin Hassigned Hst. apply listed_spec in Hst.
    destruct (bucket_of_spec job) as [Hn [Ht [Hu Ho]]].
    assert (Hb : forall b, In (job_data db job) (bucket g b) <->
                           bucket_of today job = b).
    { intros b. subst g. rewrite (in_bucket db u job b Hin Hassigned).
      tauto. }
    split; [|split; [|split; [|split]]].
    + rewrite <- Hn. apply (Hb Unscheduled).
    + rewrite <- Ht. apply (Hb Today).
    + rewrite <- Hu. apply (Hb Upcoming).
    + rewrite <- Ho. apply (Hb Overdue).
    + exists (bucket_of today job). split; [now apply Hb|].
      intros b' Hb'. symmetry. now apply Hb.
  - apply length_buckets.
  - intros job b Hin Hassigned Hst Hmem.
    apply (in_bucket db u job b Hin Hassigned) in Hmem as [Hl _].
    apply listed_spec in Hl. contradiction.
  - intros e b He. subst g. rewrite bucket_grouped_for in He.
    apply in_map_iff in He as [j [<- Hj]].
    apply filter_In in Hj as [_ Hj]. apply andb_true_iff in Hj as [Hl _].
    now apply listed_spec.
  - intros flag.
    change (fun j => Job.set_overdue (flag j) j) with (reflag flag).
    rewrite (dashboard_ignores_overdue_flag flag db u Hrole).
    now rewrite Hget.
Qed.

(** C9, as the code has it: a technician with at least one assigned job
    is answered, in one response, with the four buckets and a summary of
    three counts: the size of all buckets together, of the today bucket
    and of the overdue bucket.  A technician with no assigned job is
    answered with the message that no jobs are assigned, and neither
    buckets nor counts. *)
Theorem dashboard_response_shape (db : DB) (u : User.t) :
  User.role u = "TECHNICIAN"%string ->
  ((exists j, In j (jobs db) /\ Job.assigned_to j = User.id u) ->
   exists g,
     TechnicianDashboardView_get today (AuthUser u) db
     = (Ok (mkResponse 200
              (Dashboard g
                 (Summary.mk
                    (List.length (GroupedJobs.today g)
                     + List.length (GroupedJobs.upcoming g)
                     + List.length (GroupedJobs.overdue g)
                     + List.length (GroupedJobs.unscheduled g))
                    (List.length (GroupedJobs.today g))
                    (List.length (GroupedJobs.overdue g))))),
        db))
  /\ ((forall j, In j (jobs db) -> Job.assigned_to j <> User.id u) ->
      TechnicianDashboardView_get today (AuthUser u) db
      = (Ok (mkResponse 200 (Detail "No jobs assigned yet")), db)).
Proof.
  intros Hrole. rewrite dashboard_cases by exact Hrole. split.
  - intros Hsome. apply exists_assigned in Hsome. rewrite Hsome.
    exists (grouped_for db today (AuthUser u)).
    unfold summary_of, GroupedJobs.values. cbn [List.concat].
    rewrite app_nil_r.
    assert (Hlen : forall a b c d : list JobData.t,
              List.length (a ++ b ++ c ++ d)
              = (List.length a + List.length b + List.length c
                 + List.length d)%nat)
      by (intros; rewrite !length_app; lia).
    now rewrite Hlen.
  - intros Hnone.
    destruct (QuerySet.exists_ (assigned_jobs db (AuthUser u))) eqn:E;
      [|reflexivity].
    apply exists_assigned in E as [j [Hin Ha]].
    elim (Hnone j Hin Ha).
Qed.

(** C10: the dashboard leaves out COMPLETED jobs only.  For a technician,
    an assigned job whose status is anything else, CANCELLED, PENDING
    and IN_PROGRESS included, has an entry in one of the buckets that
    shows the job's id, title, client, status, priority, date and
    description; and a CANCELLED job scheduled on an earlier date has
    its entry in overdue, with status CANCELLED and that date. *)
Theorem dashboard_lists_cancelled_jobs (db : DB) (u : User.t) (job : Job.t) :
  User.role u = "TECHNICIAN"%string ->
  In job (jobs db) -> Job.assigned_to job = User.id u ->
  exists g s,
    TechnicianDashboardView_get today (AuthUser u) db
    = (Ok (mkResponse 200 (Dashboard g s)), db)
    /\ (Job.status job <> "COMPLETED"%string ->
        exists e, In e (List.concat (GroupedJobs.values g))
                  /\ e = job_data db job /\ entry_of job e)
    /\ (Job.status job = "CANCELLED"%string
        \/ Job.status job = "PENDING"%string
        \/ Job.status job = "IN_PROGRESS"%string ->
        exists e, In e (List.concat (GroupedJobs.values g))
                  /\ e = job_data db job /\ entry_of job e)
    /\ (forall d,
          Job.status job = "CANCELLED"%string ->
          Job.scheduled_date job = Some d -> datetime_date d < today ->
          exists e, In e (GroupedJobs.overdue g)
                    /\ e = job_data db job
                    /\ JobData.id e = Job.id job
                    /\ JobData.title e = Job.title job
                    /\ JobData.client_name e = Job.client_name job
                    /\ JobData.status e = "CANCELLED"%string
                    /\ JobData.scheduled_date e = Some d).
Proof.
  intros Hrole Hin Hassigned.
  exists (grouped_for db today (AuthUser u)),
         (summary_of (grouped_for db today (AuthUser u))).
  assert (Hentry : entry_of job (job_data db job))
    by (unfold entry_of, job_data; cbn; repeat split).
  assert (Hlisted : Job.status job <> "COMPLETED"%string ->
                    exists e,
                      In e (List.concat
                              (GroupedJobs.values
                                 (grouped_for db today (AuthUser u))))
                      /\ e = job_data db job /\ entry_of job e).
  { intros Hst. apply listed_spec in Hst.
    assert (Hb : In (job_data db job)
                    (bucket (grouped_for db today (AuthUser u))
                            (bucket_of today job)))
      by (apply (in_bucket db u job _ Hin Hassigned); auto).
    exists (job_data db job). split; [|split; [reflexivity | exact Hentry]].
    unfold GroupedJobs.values. cbn [List.concat]. rewrite !in_app_iff.
    destruct (bucket_of today job); cbn [bucket] in Hb; tauto. }
  split; [|split; [|split]].
  - rewrite dashboard_cases by exact Hrole.
    replace (QuerySet.exists_ (assigned_jobs db (AuthUser u))) with true;
      [reflexivity|].
    symmetry. apply exists_assigned. now exists job.
  - exact Hlisted.
  - intros Hst. apply Hlisted.
    destruct Hst as [E|[E|E]]; rewrite E; discriminate.
  - intros d Hst Hd Hlt.
    exists (job_data db job). split.
    + apply (in_bucket db u job Overdue Hin Hassigned). split.
      * apply listed_spec. rewrite Hst. discriminate.
      * apply bucket_of_spec. now exists d.
    + unfold job_data.
      cbn [JobData.id JobData.title JobData.client_name JobData.status
           JobData.scheduled_date].
      rewrite Hst, Hd. repeat split.
Qed.
End Dashboard.

(* ================================================================== *)
(** * Task lifecycle *)

Section TaskLifecycle.
Import Permissions Serializers Views TaskResponses.

(** The whole of [TechnicianTaskUpdateView.patch] for a technician and a
    task that exists, as one decision list. *)
Lemma technician_task_patch_cases
  (now : datetime) (db : DB) (u : User.t) (task_id : Z) (task : JobTask.t)
  (job : Job.t) (new_status : option string) :
  User.role u = "TECHNICIAN"%string ->
  QuerySet.get JobTask.id task_id (job_tasks db) = Some task ->
  QuerySet.get Job.id (JobTask.job task) (jobs db) = Some job ->
  TechnicianTaskUpdateView_patch now (AuthUser u) task_id new_status db
  = if negb (Job.assigned_to job =? User.id u) then
      (Ok task_not_assigned, db)
    else if status_not_in new_status TASK_STATUSES then
      (Ok task_invalid_status, db)
    else
      let s := or_else new_status EmptyString in
      (Ok (task_status_updated task s (stamp now task s)),
       with_job_tasks
         (QuerySet.save JobTask.id
            (set_task_status s (stamp now task s) task) (job_tasks db))
         db).
Proof.
  intros Hrole Htask Hjob.
  unfold TechnicianTaskUpdateView_patch, not_a_technician.
  rewrite Hrole, String.eqb_refl.
  cbn [negb IsAuthenticated is_authenticated check_permissions].
  unfold bind at 1. cbn [ret].
  rewrite (bind_ok _ _ _ _ _
             (get_object_or_404_found job_tasks JobTask.id _ _ _ Htask)).
  unfold bind at 1, related_job. rewrite Hjob.
  cbn [is_user].
  destruct (negb (Job.assigned_to job =? User.id u)); [reflexivity|].
  fold TASK_STATUSES.
  destruct (status_not_in new_status TASK_STATUSES); reflexivity.
Qed.

(** X2: a technician who is not the assignee of the task's job gets 403
    whatever status is asked for, valid or not, and nothing is written. *)
Lemma technician_task_forbidden
  (now : datetime) (db : DB) (u : User.t) (task_id : Z) (task : JobTask.t)
  (job : Job.t) (new_status : option string) :
  User.role u = "TECHNICIAN"%string ->
  QuerySet.get JobTask.id task_id (job_tasks db) = Some task ->
  QuerySet.get Job.id (JobTask.job task) (jobs db) = Some job ->
  Job.assigned_to job <> User.id u ->
  TechnicianTaskUpdateView_patch now (AuthUser u) task_id new_status db
  = (Ok task_not_assigned, db).
Proof.
  intros Hrole Htask Hjob Hother.
  rewrite (technician_task_patch_cases now db u task_id task job new_status
             Hrole Htask Hjob).
  apply Z.eqb_neq in Hother. now rewrite Hother.
Qed.

Lemma stamp_spec (now : datetime) (task : JobTask.t) (s : string) :
  (stamp now task s <> None <-> s = "COMPLETED"%string)
  /\ (s = "COMPLETED"%string -> JobTask.completed_at task = None ->
      stamp now task s = Some now)
  /\ (s = "COMPLETED"%string ->
      forall c, JobTask.completed_at task = Some c ->
                stamp now task s = Some c).
Proof.
  unfold stamp.
  destruct (String.eqb s "COMPLETED") eqn:E.
  - apply String.eqb_eq in E. subst s.
    destruct (JobTask.completed_at task) as [c|]; cbn [truthy negb andb].
    + repeat split; try discriminate; intros; congruence.
    + repeat split; try discriminate; intros; congruence.
  - cbn [andb negb]. split; [|split].
    + split; [congruence|]. intros ->. discriminate.
    + intros ->. discriminate.
    + intros ->. discriminate.
Qed.

(** X1: on the technician's endpoint the invariant holds: after a
    transition by the assignee the saved task has [completed_at] set
    exactly when
    its status is COMPLETED; entering COMPLETED stamps [now] unless a
    stamp is already there, leaving COMPLETED clears it. *)
Lemma technician_task_transition_timestamp
  (now : datetime) (db : DB) (u : User.t) (task_id : Z) (task : JobTask.t)
  (job : Job.t) (s : string) :
  User.role u = "TECHNICIAN"%string ->
  QuerySet.get JobTask.id task_id (job_tasks db) = Some task ->
  QuerySet.get Job.id (JobTask.job task) (jobs db) = Some job ->
  Job.assigned_to job = User.id u ->
  str_in s TASK_STATUSES = true ->
  exists task' db',
    TechnicianTaskUpdateView_patch now (AuthUser u) task_id (Some s) db
    = (Ok (task_status_updated task s (JobTask.completed_at task')), db')
    /\ QuerySet.get JobTask.id task_id (job_tasks db') = Some task'
    /\ JobTask.status task' = s
    /\ (JobTask.completed_at task' <> None <-> s = "COMPLETED"%string)
    /\ (s = "COMPLETED"%string -> JobTask.completed_at task = None ->
        JobTask.completed_at task' = Some now)
    /\ (s = "COMPLETED"%string ->
        forall c, JobTask.completed_at task = Some c ->
                  JobTask.completed_at task' = Some c).
Proof.
  intros Hrole Htask Hjob Hassigned Hs.
  exists (set_task_status s (stamp now task s) task).
  eexists. split; [|split; [|split]].
  - rewrite (technician_task_patch_cases now db u task_id task job (Some s)
               Hrole Htask Hjob).
    rewrite Hassigned, Z.eqb_refl. cbn [negb status_not_in].
    rewrite Hs. cbn [negb or_else]. reflexivity.
  - cbn [with_job_tasks job_tasks].
    apply get_save with (r := task); [exact Htask|].
    apply (get_found JobTask.id) in Htask. cbn [set_task_status JobTask.id].
    tauto.
  - reflexivity.
  - cbn [set_task_status JobTask.completed_at]. apply stamp_spec.
Qed.

(** [JobTaskSerializer.update] never clears a stamp it is not handed. *)
Lemma serializer_update_never_clears
  (now : datetime) (task : JobTask.t) (v : TaskData.t) (c : datetime) :
  TaskData.completed_at v = None ->
  JobTask.completed_at task = Some c ->
  JobTask.completed_at (updated_instance now task v) = Some c.
Proof.
  intros Hv Hc. unfold updated_instance, setattrs.
  cbn [JobTask.status JobTask.completed_at]. rewrite Hv, Hc.
  cbn [or_else truthy negb]. rewrite andb_false_r.
  cbn [JobTask.completed_at]. reflexivity.
Qed.

(** C2, where the code departs from it: an admin moves the completed task
    11 of the sample store back to IN_PROGRESS through [JobTaskViewSet];
    the update is answered 200 and the saved task is IN_PROGRESS with
    the completion timestamp it had, whatever limit the database backend
    sets on quantities. *)
Theorem serializer_update_leaves_stale_completed_at :
  let task' :=
    JobTask.mk 11 "Wire" "" 2 (Some (2 * Sample.day)) "IN_PROGRESS" 1 in
  JobTask.status Sample.task2 = "COMPLETED"%string
  /\ (forall max_quantity,
        JobTaskViewSet_partial_update max_quantity (5 * Sample.day)
          (AuthUser Sample.admin) 11 (Some "IN_PROGRESS"%string) None
          Sample.db
        = (Ok (mkResponse 200 (TaskRepresentation task')),
           with_job_tasks [Sample.task1; task'; Sample.task3] Sample.db))
  /\ JobTask.status task' <> "COMPLETED"%string
  /\ JobTask.completed_at task' <> None.
Proof.
  cbv zeta. split; [reflexivity|].
  split; [intros max_quantity; vm_compute; reflexivity|].
  split; discriminate.
Qed.
End TaskLifecycle.

(* ================================================================== *)
(** * Runs on the sample store *)

Section Runs.
Import Permissions Serializers Views JobResponses TaskResponses.

(** The sweep of day 5 on the sample store: the PENDING job 4, scheduled
    on day 1 and not flagged, comes out flagged; the COMPLETED job 3,
    flagged, comes out unflagged; the flag of what comes out is the due
    condition. *)
Lemma sweep_flags_exactly_the_due_jobs_witness :
  let now := 5 * Sample.day in
  let db' := snd (Tasks.check_overdue_jobs now Sample.db) in
  (In Sample.job4 (jobs Sample.db)
   /\ Job.scheduled_date Sample.job4 = Some (1 * Sample.day)
   /\ 1 * Sample.day < now
   /\ Job.status Sample.job4 = "PENDING"%string
   /\ Job.overdue Sample.job4 = false)
  /\ In (Job.set_overdue true Sample.job4) (jobs db')
  /\ (In Sample.job3 (jobs Sample.db)
      /\ Job.overdue Sample.job3 = true
      /\ Job.status Sample.job3 = "COMPLETED"%string)
  /\ In (Job.set_overdue false Sample.job3) (jobs db')
  /\ (Job.overdue (Job.set_overdue true Sample.job4) = true <->
      (exists d, Job.scheduled_date (Job.set_overdue true Sample.job4)
                 = Some d /\ d < now)
      /\ (Job.status (Job.set_overdue true Sample.job4) = "PENDING"%string
          \/ Job.status (Job.set_overdue true Sample.job4)
             = "IN_PROGRESS"%string)).
Proof.
  intros now db'.
  destruct (sweep_flags_exactly_the_due_jobs now Sample.db)
    as [_ [Hiff [Hmark Hclear]]].
  assert (H4 : In Sample.job4 (jobs Sample.db))
    by (simpl; right; right; right; left; reflexivity).
  assert (H3 : In Sample.job3 (jobs Sample.db))
    by (simpl; right; right; left; reflexivity).
  assert (Hlt : 1 * Sample.day < now) by (vm_compute; reflexivity).
  pose proof (Hmark Sample.job4 (1 * Sample.day) H4 eq_refl Hlt eq_refl
                eq_refl) as Hmarked.
  pose proof (Hclear Sample.job3 H3 eq_refl eq_refl) as Hcleared.
  split; [repeat split; assumption|].
  split; [exact Hmarked|].
  split; [repeat split; assumption|].
  split; [exact Hcleared|].
  exact (Hiff _ Hmarked).
Defined.

(** Two sweeps of day 5 in a row on the sample store: job 1 is matched by
    the mark pass, so not by the clear pass; the second sweep counts
    nothing. *)
Lemma sweep_idempotent_and_order_independent_witness :
  let now := 5 * Sample.day in
  let first := Tasks.check_overdue_jobs now Sample.db in
  let second := Tasks.check_overdue_jobs now (snd first) in
  Tasks.overdue_jobs now Sample.job1 = true
  /\ Tasks.not_overdue_jobs now Sample.job1 = false
  /\ Tasks.not_overdue_jobs now (Job.set_overdue true Sample.job1) = false
  /\ Tasks.not_overdue_jobs now Sample.job2 = true
  /\ Tasks.overdue_jobs now Sample.job2 = false
  /\ Tasks.overdue_jobs now (Job.set_overdue false Sample.job2) = false
  /\ Tasks.marked_overdue (fst first) = 2%nat
  /\ Tasks.cleared_overdue (fst first) = 2%nat
  /\ Tasks.marked_overdue (fst second) = 0%nat
  /\ Tasks.cleared_overdue (fst second) = 0%nat
  /\ snd second = snd first.
Proof.
  intros now first second.
  destruct (sweep_idempotent_and_order_independent now Sample.db)
    as [Hm [Hc [Hsame [Hmark [Hclear _]]]]].
  assert (H1 : Tasks.overdue_jobs now Sample.job1 = true)
    by (vm_compute; reflexivity).
  assert (H2 : Tasks.not_overdue_jobs now Sample.job2 = true)
    by (vm_compute; reflexivity).
  destruct (Hmark Sample.job1 H1) as [Ha Hb].
  destruct (Hclear Sample.job2 H2) as [Hd He].
  repeat (split; [first [assumption | vm_compute; reflexivity]|]).
  exact Hsame.
Defined.

(** C1, refuted as stated: the admin moves job 1 of the sample store to
    COMPLETED through [JobViewSet] while its task 10 is NOT_STARTED; the
    request is answered 200 and the job is saved as COMPLETED. *)
Lemma completion_gate_bypassed_by_admin :
  In Sample.task1 (job_tasks Sample.db)
  /\ JobTask.job Sample.task1 = Job.id Sample.job1
  /\ JobTask.status Sample.task1 <> "COMPLETED"%string
  /\ JobViewSet_partial_update (AuthUser Sample.admin) 1
       (Some "COMPLETED"%string) Sample.db
     = (Ok (mkResponse 200
              (JobRepresentation (Job.set_status "COMPLETED" Sample.job1))),
        with_jobs [Job.set_status "COMPLETED" Sample.job1; Sample.job2;
                   Sample.job3; Sample.job4] Sample.db)
  /\ Job.status (Job.set_status "COMPLETED" Sample.job1)
     <> Job.status Sample.job1.
Proof.
  split; [simpl; left; reflexivity|]. split; [reflexivity|].
  split; [discriminate|]. split; [vm_compute; reflexivity | discriminate].
Qed.

(** The gate on the sample store: technician 7 may not complete job 1,
    whose task 10 is open, and is told so; the cancelled job 2, whose
    only task is COMPLETED, is moved to COMPLETED. *)
Lemma technician_completion_gate_witness :
  (User.role Sample.technician = "TECHNICIAN"%string
   /\ QuerySet.get Job.id 1 (jobs Sample.db) = Some Sample.job1
   /\ Job.assigned_to Sample.job1 = User.id Sample.technician
   /\ exists t, (In t (job_tasks Sample.db)
                 /\ JobTask.job t = Job.id Sample.job1)
                /\ JobTask.status t <> "COMPLETED"%string)
  /\ (exists entries,
        TechnicianJobUpdateView_patch (AuthUser Sample.technician) 1
          (Some "COMPLETED"%string) Sample.db
        = (Ok (job_incomplete entries), Sample.db)
        /\ In (IncompleteTask.mk 10 "Mount" "NOT_STARTED") entries)
  /\ (QuerySet.get Job.id 2 (jobs Sample.db) = Some Sample.job2
      /\ Job.assigned_to Sample.job2 = User.id Sample.technician
      /\ forall t, In t (job_tasks Sample.db)
                   /\ JobTask.job t = Job.id Sample.job2 ->
                   JobTask.status t = "COMPLETED"%string)
  /\ QuerySet.get Job.id 2
       (jobs (snd (TechnicianJobUpdateView_patch (AuthUser Sample.technician)
                     2 (Some "COMPLETED"%string) Sample.db)))
     = Some (Job.set_status "COMPLETED" Sample.job2).
Proof.
  assert (Hopen : exists t, (In t (job_tasks Sample.db)
                             /\ JobTask.job t = Job.id Sample.job1)
                            /\ JobTask.status t <> "COMPLETED"%string).
  { exists Sample.task1. split; [split|].
    - simpl. left. reflexivity.
    - reflexivity.
    - discriminate. }
  assert (Hdone : forall t, In t (job_tasks Sample.db)
                            /\ JobTask.job t = Job.id Sample.job2 ->
                            JobTask.status t = "COMPLETED"%string).
  { intros t [[<-|[<-|[<-|[]]]] Hjob]; try reflexivity; discriminate. }
  destruct (technician_completion_gate Sample.db Sample.technician 1
              Sample.job1 eq_refl eq_refl eq_refl) as [Hrefuse _].
  destruct (technician_completion_gate Sample.db Sample.technician 2
              Sample.job2 eq_refl eq_refl eq_refl) as [_ Hallow].
  destruct (Hrefuse Hopen) as [entries [Hout Hentries]].
  destruct (Hallow Hdone) as [_ Hsaved].
  split; [repeat split; try reflexivity; exact Hopen|].
  split.
  - exists entries. split; [exact Hout|].
    apply Hentries. exists Sample.task1. split; [|reflexivity].
    split; [split|].
    + simpl. left. reflexivity.
    + reflexivity.
    + discriminate.
  - split; [repeat split; try reflexivity; exact Hdone | exact Hsaved].
Defined.

(** C4, refuted as stated: on the technician's status endpoint the
    admin who asks to cancel job 1 of the sample store is answered 403,
    and through [JobViewSet] technician 7, the assignee of job 1, is
    refused. *)
Lemma job_transition_rules_differ_by_endpoint :
  User.role Sample.admin = "ADMIN"%string
  /\ TechnicianJobUpdateView_patch (AuthUser Sample.admin) 1
       (Some "CANCELLED"%string) Sample.db
     = (Ok (mkResponse 403 (Detail "This endpoint is only for technicians")),
        Sample.db)
  /\ Job.assigned_to Sample.job1 = User.id Sample.technician
  /\ JobViewSet_partial_update (AuthUser Sample.technician) 1
       (Some "CANCELLED"%string) Sample.db
     = (Raise PermissionDenied, Sample.db).
Proof.
  split; [reflexivity|]. split; [vm_compute; reflexivity|].
  split; [reflexivity | vm_compute; reflexivity].
Qed.

(** Authorization on the sample store: on the technician's endpoint
    technician 8 is refused job 1 even for a status that does not exist,
    technician 7 is not refused, the admin is; through [JobViewSet] the
    admin cancels job 1, which keeps its schedule and its flag, and
    technician 7 is refused. *)
Lemma job_transition_authorization_witness :
  QuerySet.get Job.id 1 (jobs Sample.db) = Some Sample.job1
  /\ (User.role Sample.idle_technician = "TECHNICIAN"%string
      /\ Job.assigned_to Sample.job1 <> User.id Sample.idle_technician)
  /\ TechnicianJobUpdateView_patch (AuthUser Sample.idle_technician) 1
       (Some "DONE"%string) Sample.db
     = (Ok (mkResponse 403
              (Detail "You can only update jobs assigned to you")),
        Sample.db)
  /\ (User.role Sample.technician = "TECHNICIAN"%string
      /\ Job.assigned_to Sample.job1 = User.id Sample.technician)
  /\ (exists response db',
        TechnicianJobUpdateView_patch (AuthUser Sample.technician) 1
          (Some "CANCELLED"%string) Sample.db
        = (Ok response, db')
        /\ status_code response <> 403)
  /\ User.role Sample.admin <> "TECHNICIAN"%string
  /\ TechnicianJobUpdateView_patch (AuthUser Sample.admin) 1
       (Some "CANCELLED"%string) Sample.db
     = (Ok (mkResponse 403 (Detail "This endpoint is only for technicians")),
        Sample.db)
  /\ (User.role Sample.admin = "ADMIN"%string
      /\ str_in "CANCELLED" Job.STATUS_CHOICES = true)
  /\ (exists job' db',
        JobViewSet_partial_update (AuthUser Sample.admin) 1
          (Some "CANCELLED"%string) Sample.db
        = (Ok (mkResponse 200 (JobRepresentation job')), db')
        /\ QuerySet.get Job.id 1 (jobs db') = Some job'
        /\ Job.status job' = "CANCELLED"%string
        /\ Job.scheduled_date job' = Some (3 * Sample.day + 5)
        /\ Job.overdue job' = false)
  /\ JobViewSet_partial_update (AuthUser Sample.technician) 1
       (Some "CANCELLED"%string) Sample.db
     = (Raise PermissionDenied, Sample.db).
Proof.
  assert (Hother : Job.assigned_to Sample.job1
                   <> User.id Sample.idle_technician) by discriminate.
  assert (Hadmin_role : User.role Sample.admin <> "TECHNICIAN"%string)
    by discriminate.
  destruct (job_transition_authorization Sample.db Sample.idle_technician 1
              Sample.job1 eq_refl) as [Hforbid _].
  destruct (job_transition_authorization Sample.db Sample.technician 1
              Sample.job1 eq_refl) as [_ [Hallow [_ [_ Hclosed]]]].
  destruct (job_transition_authorization Sample.db Sample.admin 1
              Sample.job1 eq_refl) as [_ [_ [Hnot [Hadmin _]]]].
  destruct (Hadmin (or_introl eq_refl) "CANCELLED"%string eq_refl)
    as [job' [db' [Hrun [Hsaved [Hst [_ [_ [_ [_ [Hsched [_ [_ [_ [_ Hflag
       ]]]]]]]]]]]]]].
  split; [reflexivity|].
  split; [split; [reflexivity | exact Hother]|].
  split; [exact (Hforbid eq_refl Hother (Some "DONE"%string))|].
  split; [split; reflexivity|].
  split; [exact (Hallow eq_refl eq_refl (Some "CANCELLED"%string))|].
  split; [exact Hadmin_role|].
  split; [exact (Hnot Hadmin_role (Some "CANCELLED"%string))|].
  split; [split; reflexivity|].
  split; [|exact (Hclosed eq_refl (Some "CANCELLED"%string))].
  exists job', db'. split; [exact Hrun|]. split; [exact Hsaved|].
  split; [exact Hst|]. split; [exact Hsched | exact Hflag].
Defined.

(** C6, refuted as stated: the admin submits a requirement of zero drills
    for task 10 of the sample store; the update is answered 200 and the
    row is stored with quantity 0. *)
Lemma zero_quantity_is_stored :
  exists db',
    JobTaskViewSet_partial_update Sample.max_quantity (5 * Sample.day)
      (AuthUser Sample.admin) 10 None (Some [Sample.item 5 (Some 0)])
      Sample.db
    = (Ok (mkResponse 200 (TaskRepresentation Sample.task1)), db')
    /\ jobtaskequipment_set db' 10
       = [JobTaskEquipment.mk 1 10 Sample.drill 0 EmptyString]
    /\ ~ (0 < JobTaskEquipment.quantity
                (JobTaskEquipment.mk 1 10 Sample.drill 0 EmptyString)).
Proof.
  eexists. split; [vm_compute; reflexivity|].
  split; [vm_compute; reflexivity|].
  cbn [JobTaskEquipment.quantity]. lia.
Qed.

Lemma sample_acceptable (reqs : list EquipmentRequirement.t) :
  reqs = [Sample.req 5 (Some 0); Sample.req 6 None]
  \/ reqs = [Sample.req 6 (Some 3)] ->
  acceptable (equipment_catalog Sample.db) reqs.
Proof.
  intros [-> | ->]; split.
  - repeat constructor; simpl; intuition discriminate.
  - repeat constructor; simpl; try discriminate; lia.
  - repeat constructor; simpl; intuition discriminate.
  - repeat constructor; simpl; try discriminate; lia.
Defined.

(** Quantities on the sample store: a requirement of minus one drill is
    turned down and nothing is stored; zero drills and a ladder with no
    quantity are answered 200 and stored as 0 and 1. *)
Lemma requirement_quantity_is_nonnegative_witness :
  let now := 5 * Sample.day in
  (User.role Sample.admin = "ADMIN"%string
   /\ QuerySet.get JobTask.id 10 (job_tasks Sample.db) = Some Sample.task1
   /\ exists i n, In i [Sample.item 5 (Some (-1))]
                  /\ RequirementItem.quantity i = Some n /\ n < 0)
  /\ JobTaskViewSet_partial_update Sample.max_quantity now
       (AuthUser Sample.admin) 10 None (Some [Sample.item 5 (Some (-1))])
       Sample.db
     = (Raise ValidationError, Sample.db)
  /\ (choice_is_valid JobTask.STATUS_CHOICES None = true
      /\ savable Sample.db Sample.task1
      /\ acceptable (equipment_catalog Sample.db)
                    (map RequirementItem.validated
                         [Sample.item 5 (Some 0); Sample.item 6 None])
      /\ forall i n, In i [Sample.item 5 (Some 0); Sample.item 6 None] ->
                     RequirementItem.quantity i = Some n ->
                     n <= Sample.max_quantity)
  /\ (exists response db',
        JobTaskViewSet_partial_update Sample.max_quantity now
          (AuthUser Sample.admin) 10 None
          (Some [Sample.item 5 (Some 0); Sample.item 6 None]) Sample.db
        = (Ok response, db')
        /\ status_code response = 200
        /\ map ledger_entry (jobtaskequipment_set db' 10)
           = [(Some 5, 0, EmptyString); (Some 6, 1, EmptyString)]
        /\ forall r, In r (jobtaskequipment_set db' 10) ->
                     0 <= JobTaskEquipment.quantity r).
Proof.
  intros now.
  assert (Hbad : exists i n, In i [Sample.item 5 (Some (-1))]
                             /\ RequirementItem.quantity i = Some n
                             /\ n < 0).
  { exists (Sample.item 5 (Some (-1))), (-1).
    split; [left; reflexivity | split; [reflexivity | lia]]. }
  assert (Hrange : forall i n,
             In i [Sample.item 5 (Some 0); Sample.item 6 None] ->
             RequirementItem.quantity i = Some n ->
             n <= Sample.max_quantity).
  { intros i n [<-|[<-|[]]] E; inversion E. discriminate. }
  assert (Hsave : savable Sample.db Sample.task1) by reflexivity.
  assert (Hacc : acceptable (equipment_catalog Sample.db)
                   (map RequirementItem.validated
                        [Sample.item 5 (Some 0); Sample.item 6 None]))
    by exact (sample_acceptable _ (or_introl eq_refl)).
  destruct (requirement_quantity_is_nonnegative Sample.max_quantity now
              Sample.db Sample.admin 10 Sample.task1 None
              [Sample.item 5 (Some (-1))] (or_introl eq_refl) eq_refl)
    as [Hreject _].
  destruct (requirement_quantity_is_nonnegative Sample.max_quantity now
              Sample.db Sample.admin 10 Sample.task1 None
              [Sample.item 5 (Some 0); Sample.item 6 None]
              (or_introl eq_refl) eq_refl)
    as [_ [_ [Hstored Haccept]]].
  destruct (Haccept eq_refl Hsave Hacc Hrange)
    as [response [db' [Hout [Hcode Hset]]]].
  split; [split; [reflexivity | split; [reflexivity | exact Hbad]]|].
  split; [exact (Hreject Hbad)|].
  split; [split; [reflexivity | split; [exact Hsave
                                       | split; [exact Hacc | exact Hrange]]]|].
  exists response, db'. split; [exact Hout|]. split; [exact Hcode|].
  split; [exact Hset | exact (proj2 (proj2 (Hstored response db' Hout)))].
Defined.

(** Full replace on the sample store: task 10 is given zero drills and a
    ladder, then three ladders; it ends with the three ladders and
    nothing else.  An update without a list changes no ledger row. *)
Lemma set_requirements_full_replace_witness :
  let A := [Sample.req 5 (Some 0); Sample.req 6 None] in
  let B := [Sample.req 6 (Some 3)] in
  let vA := Sample.only_requirements (Some A) in
  let vB := Sample.only_requirements (Some B) in
  let vN := Sample.only_requirements None in
  (savable Sample.db (updated_instance (5 * Sample.day) Sample.task1 vA)
   /\ savable Sample.db
        (updated_instance (6 * Sample.day)
           (updated_instance (5 * Sample.day) Sample.task1 vA) vB)
   /\ acceptable (equipment_catalog Sample.db) A
   /\ acceptable (equipment_catalog Sample.db) B
   /\ savable Sample.db (updated_instance (5 * Sample.day) Sample.task1 vN))
  /\ (exists t1 db1 t2 db2,
        JobTaskSerializer_update (5 * Sample.day) Sample.task1 vA Sample.db
        = (Ok t1, db1)
        /\ JobTaskSerializer_update (6 * Sample.day) t1 vB db1 = (Ok t2, db2)
        /\ map ledger_entry (jobtaskequipment_set db1 10)
           = [(Some 5, 0, EmptyString); (Some 6, 1, EmptyString)]
        /\ map ledger_entry (jobtaskequipment_set db2 10)
           = [(Some 6, 3, EmptyString)])
  /\ (exists t' db',
        JobTaskSerializer_update (5 * Sample.day) Sample.task1 vN Sample.db
        = (Ok t', db')
        /\ job_task_equipment db' = job_task_equipment Sample.db).
Proof.
  intros A B vA vB vN.
  assert (HA := sample_acceptable A (or_introl eq_refl)).
  assert (HB := sample_acceptable B (or_intror eq_refl)).
  assert (H1 : savable Sample.db
                 (updated_instance (5 * Sample.day) Sample.task1 vA))
    by reflexivity.
  assert (H2 : savable Sample.db
                 (updated_instance (6 * Sample.day)
                    (updated_instance (5 * Sample.day) Sample.task1 vA) vB))
    by reflexivity.
  assert (HN : savable Sample.db
                 (updated_instance (5 * Sample.day) Sample.task1 vN))
    by reflexivity.
  destruct (set_requirements_full_replace (5 * Sample.day) (6 * Sample.day)
              Sample.db Sample.task1 A B vA vB vN eq_refl eq_refl eq_refl)
    as [Hexact [Hreturn [_ Hnone]]].
  destruct (Hreturn H1 H2 HA HB) as [t1 [db1 [t2 [db2 [Hrun1 Hrun2]]]]].
  destruct (Hexact t1 db1 t2 db2 Hrun1 Hrun2) as [HsetA [HsetB _]].
  split; [split; [exact H1 | split; [exact H2 | split; [exact HA
         | split; [exact HB | exact HN]]]]|].
  split; [|exact (Hnone HN)].
  exists t1, db1, t2, db2.
  split; [exact Hrun1 | split; [exact Hrun2 | split; [exact HsetA
                                                     | exact HsetB]]].
Defined.

(** The dashboard of technician 7 on day 3 of the sample store: job 1,
    scheduled that day, is in today and not in overdue; the completed
    job 3 is not in overdue although its date has passed; the buckets
    hold two entries in all. *)
Lemma dashboard_bucketing_witness :
  let today := 3 in
  let g := grouped_for Sample.db today (AuthUser Sample.technician) in
  (User.role Sample.technician = "TECHNICIAN"%string
   /\ exists j, In j (jobs Sample.db)
                /\ Job.assigned_to j = User.id Sample.technician)
  /\ TechnicianDashboardView_get today (AuthUser Sample.technician) Sample.db
     = (Ok (mkResponse 200 (Dashboard g (summary_of g))), Sample.db)
  /\ (In Sample.job1 (jobs Sample.db)
      /\ Job.assigned_to Sample.job1 = User.id Sample.technician
      /\ Job.status Sample.job1 <> "COMPLETED"%string
      /\ exists d, Job.scheduled_date Sample.job1 = Some d
                   /\ datetime_date d = today)
  /\ In (job_data Sample.db Sample.job1) (GroupedJobs.today g)
  /\ ~ In (job_data Sample.db Sample.job1) (GroupedJobs.overdue g)
  /\ (In Sample.job3 (jobs Sample.db)
      /\ Job.assigned_to Sample.job3 = User.id Sample.technician
      /\ Job.status Sample.job3 = "COMPLETED"%string)
  /\ ~ In (job_data Sample.db Sample.job3) (bucket g Overdue)
  /\ List.length (List.concat (GroupedJobs.values g)) = 2%nat.
Proof.
  intros today g.
  assert (H1 : In Sample.job1 (jobs Sample.db)) by (simpl; auto).
  assert (H3 : In Sample.job3 (jobs Sample.db)) by (simpl; auto).
  assert (Hsome : exists j, In j (jobs Sample.db)
                            /\ Job.assigned_to j = User.id Sample.technician)
    by (exists Sample.job1; split; [exact H1 | reflexivity]).
  assert (Hopen : Job.status Sample.job1 <> "COMPLETED"%string)
    by discriminate.
  assert (Hdate : exists d, Job.scheduled_date Sample.job1 = Some d
                            /\ datetime_date d = today)
    by (eexists; split; [reflexivity | vm_compute; reflexivity]).
  destruct (dashboard_bucketing today Sample.db Sample.technician eq_refl
              Hsome) as [Hget [Hplace [Hlen [Hdone _]]]].
  destruct (Hplace Sample.job1 H1 eq_refl Hopen)
    as [_ [Htoday [_ [Hoverdue _]]]].
  split; [split; [reflexivity | exact Hsome]|].
  split; [exact Hget|].
  split; [repeat split; try assumption; reflexivity|].
  split; [apply Htoday; exact Hdate|].
  split.
  - intros Hin. apply Hoverdue in Hin as [d [Hd Hlt]].
    inversion Hd; subst d. vm_compute in Hlt. discriminate.
  - split; [repeat split; try assumption; reflexivity|].
    split; [exact (Hdone Sample.job3 Overdue H3 eq_refl eq_refl)|].
    fold g in Hlen. rewrite Hlen. vm_compute. reflexivity.
Defined.

(** C9, refuted as stated: technician 8 of the sample store has no job;
    the dashboard answers with a message, and with no bucket and no
    count. *)
Lemma dashboard_without_jobs_has_no_buckets :
  User.role Sample.idle_technician = "TECHNICIAN"%string
  /\ TechnicianDashboardView_get 3 (AuthUser Sample.idle_technician)
       Sample.db
     = (Ok (mkResponse 200 (Detail "No jobs assigned yet")), Sample.db)
  /\ forall g s,
       fst (TechnicianDashboardView_get 3 (AuthUser Sample.idle_technician)
              Sample.db)
       <> Ok (mkResponse 200 (Dashboard g s)).
Proof.
  split; [reflexivity|]. split; [vm_compute; reflexivity|].
  intros g s. vm_compute. discriminate.
Qed.

(** The two shapes of the answer on the sample store: buckets and three
    counts for technician 7, the message for technician 8. *)
Lemma dashboard_response_shape_witness :
  (User.role Sample.technician = "TECHNICIAN"%string
   /\ exists j, In j (jobs Sample.db)
                /\ Job.assigned_to j = User.id Sample.technician)
  /\ (exists g,
        TechnicianDashboardView_get 3 (AuthUser Sample.technician) Sample.db
        = (Ok (mkResponse 200
                 (Dashboard g
                    (Summary.mk
                       (List.length (GroupedJobs.today g)
                        + List.length (GroupedJobs.upcoming g)
                        + List.length (GroupedJobs.overdue g)
                        + List.length (GroupedJobs.unscheduled g))
                       (List.length (GroupedJobs.today g))
                       (List.length (GroupedJobs.overdue g))))),
           Sample.db))
  /\ (User.role Sample.idle_technician = "TECHNICIAN"%string
      /\ forall j, In j (jobs Sample.db) ->
                   Job.assigned_to j <> User.id Sample.idle_technician)
  /\ TechnicianDashboardView_get 3 (AuthUser Sample.idle_technician)
       Sample.db
     = (Ok (mkResponse 200 (Detail "No jobs assigned yet")), Sample.db).
Proof.
  assert (Hsome : exists j, In j (jobs Sample.db)
                            /\ Job.assigned_to j = User.id Sample.technician)
    by (exists Sample.job1; split; [simpl; auto | reflexivity]).
  assert (Hnone : forall j, In j (jobs Sample.db) ->
                            Job.assigned_to j
                            <> User.id Sample.idle_technician).
  { intros j [<-|[<-|[<-|[<-|[]]]]]; discriminate. }
  destruct (dashboard_response_shape 3 Sample.db Sample.technician eq_refl)
    as [Hfull _].
  destruct (dashboard_response_shape 3 Sample.db Sample.idle_technician
              eq_refl) as [_ Hempty].
  split; [split; [reflexivity | exact Hsome]|].
  split; [exact (Hfull Hsome)|].
  split; [split; [reflexivity | exact Hnone]|].
  exact (Hempty Hnone).
Defined.

(** The cancelled job 2 of the sample store, scheduled on day 2, on the
    dashboard of day 3: it is listed, in overdue, as job 2, CANCELLED. *)
Lemma dashboard_lists_cancelled_jobs_witness :
  (User.role Sample.technician = "TECHNICIAN"%string
   /\ In Sample.job2 (jobs Sample.db)
   /\ Job.assigned_to Sample.job2 = User.id Sample.technician
   /\ Job.status Sample.job2 = "CANCELLED"%string
   /\ Job.scheduled_date Sample.job2 = Some (2 * Sample.day)
   /\ datetime_date (2 * Sample.day) < 3)
  /\ exists g s,
       TechnicianDashboardView_get 3 (AuthUser Sample.technician) Sample.db
       = (Ok (mkResponse 200 (Dashboard g s)), Sample.db)
       /\ (exists e, In e (List.concat (GroupedJobs.values g))
                     /\ JobData.id e = 2
                     /\ JobData.status e = "CANCELLED"%string)
       /\ (exists e, In e (GroupedJobs.overdue g)
                     /\ JobData.id e = 2
                     /\ JobData.title e = "Survey"%string
                     /\ JobData.status e = "CANCELLED"%string
                     /\ JobData.scheduled_date e = Some (2 * Sample.day)).
Proof.
  assert (H2 : In Sample.job2 (jobs Sample.db)) by (simpl; auto).
  assert (Hlt : datetime_date (2 * Sample.day) < 3)
    by (vm_compute; reflexivity).
  destruct (dashboard_lists_cancelled_jobs 3 Sample.db Sample.technician
              Sample.job2 eq_refl H2 eq_refl)
    as [g [s [Hget [_ [Hlisted Hoverdue]]]]].
  split; [repeat split; try assumption; reflexivity|].
  exists g, s. split; [exact Hget|]. split.
  - destruct (Hlisted (or_introl eq_refl))
      as [e [He [_ [Hid [_ [_ [Hst _]]]]]]].
    exists e. split; [exact He|]. split; [exact Hid | exact Hst].
  - destruct (Hoverdue (2 * Sample.day) eq_refl eq_refl Hlt)
      as [e [He [_ [Hid [Htitle [_ [Hst Hd]]]]]]].
    exists e. split; [exact He|]. split; [exact Hid|].
    split; [exact Htitle|]. split; [exact Hst | exact Hd].
Defined.
End Runs.

(* ================================================================== *)
(** * What the technician endpoints write, and what they leave alone *)

Section EndpointFrames.
Import Permissions Serializers Views JobResponses TaskResponses.

Lemma map_pk_save {A : Type} (pk_of : A -> Z) (r : A) (table : list A) :
  map pk_of (QuerySet.save pk_of r table) = map pk_of table.
Proof.
  unfold QuerySet.save. rewrite map_map. apply map_ext_in.
  intros a _. destruct (pk_of a =? pk_of r) eqn:E; [|reflexivity].
  apply Z.eqb_eq in E. now symmetry.
Qed.

(** Whatever the caller and the request, the task endpoint either writes
    nothing or saves one existing task with a valid status and the
    timestamp that goes with it. *)
Lemma task_patch_writes
  (now : datetime) (user : RequestUser) (task_id : Z)
  (new_status : option string) (db : DB) :
  let db' :=
    snd (TechnicianTaskUpdateView_patch now user task_id new_status db) in
  db' = db
  \/ exists task s,
       QuerySet.get JobTask.id task_id (job_tasks db) = Some task
       /\ str_in s TASK_STATUSES = true
       /\ db' = with_job_tasks
                  (QuerySet.save JobTask.id
                     (set_task_status s (stamp now task s) task)
                     (job_tasks db))
                  db.
Proof.
  intros db'. subst db'.
  destruct (TechnicianTaskUpdateView_patch now user task_id new_status db)
    as [r dbx] eqn:E.
  cbn [snd]. unfold TechnicianTaskUpdateView_patch in E.
  destruct user as [|u]; [left; now inversion E|].
  cbn [IsAuthenticated is_authenticated check_permissions] in E.
  unfold bind at 1 in E. cbn [ret] in E.
  destruct (not_a_technician (AuthUser u)); [left; now inversion E|].
  unfold bind at 1, get_object_or_404 in E.
  destruct (QuerySet.get JobTask.id task_id (job_tasks db)) as [task|] eqn:Ht;
    [|left; now inversion E].
  unfold bind at 1, related_job in E.
  destruct (QuerySet.get Job.id (JobTask.job task) (jobs db)) as [job|];
    [|left; now inversion E].
  destruct (negb (is_user (Job.assigned_to job) (AuthUser u)));
    [left; now inversion E|].
  fold TASK_STATUSES in E.
  destruct new_status as [s|]; cbn [status_not_in] in E;
    [|left; now inversion E].
  destruct (str_in s TASK_STATUSES) eqn:Hs; cbn [negb] in E;
    [|left; now inversion E].
  right. exists task, s. split; [reflexivity|]. split; [exact Hs|].
  cbn [or_else] in E. unfold bind, modify, ret in E.
  now inversion E.
Qed.

(** X3: [TechnicianTaskUpdateView.patch] never touches the jobs, the
    ledger or the catalog, keeps the set of task keys, leaves every
    other task as it is, and changes nothing of the task itself but its
    status and completion stamp.  In particular completing a task does
    not complete its job. *)
Theorem task_patch_touches_one_task
  (now : datetime) (user : RequestUser) (task_id : Z)
  (new_status : option string) (db : DB) :
  let db' :=
    snd (TechnicianTaskUpdateView_patch now user task_id new_status db) in
  jobs db' = jobs db
  /\ job_task_equipment db' = job_task_equipment db
  /\ equipment_catalog db' = equipment_catalog db
  /\ map JobTask.id (job_tasks db') = map JobTask.id (job_tasks db)
  /\ (forall pk, pk <> task_id ->
        QuerySet.get JobTask.id pk (job_tasks db')
        = QuerySet.get JobTask.id pk (job_tasks db))
  /\ (forall t t',
        QuerySet.get JobTask.id task_id (job_tasks db) = Some t ->
        QuerySet.get JobTask.id task_id (job_tasks db') = Some t' ->
        JobTask.id t' = JobTask.id t
        /\ JobTask.title t' = JobTask.title t
        /\ JobTask.description t' = JobTask.description t
        /\ JobTask.order t' = JobTask.order t
        /\ JobTask.job t' = JobTask.job t).
Proof.
  intros db'.
  destruct (task_patch_writes now user task_id new_status db)
    as [Hsame | [task [s [Hget [_ Hwrite]]]]];
    [fold db' in Hsame | fold db' in Hwrite].
  - rewrite Hsame.
    split; [reflexivity|]. split; [reflexivity|]. split; [reflexivity|].
    split; [reflexivity|]. split; [reflexivity|].
    intros t t' Ht Ht'. rewrite Ht in Ht'. inversion Ht'. repeat split.
  - rewrite Hwrite. cbn [with_job_tasks jobs job_tasks job_task_equipment
                         equipment_catalog].
    assert (Hpk : JobTask.id task = task_id)
      by (apply (get_found JobTask.id) in Hget; tauto).
    split; [reflexivity|]. split; [reflexivity|]. split; [reflexivity|].
    split; [apply map_pk_save|]. split.
    + intros pk Hne. apply get_save_other.
      cbn [set_task_status JobTask.id]. congruence.
    + intros t t' Ht Ht'.
      rewrite (get_save JobTask.id task_id _ task _ Hget) in Ht'
        by exact Hpk.
      rewrite Hget in Ht. inversion Ht; inversion Ht'; subst.
      repeat split.
Qed.

(** Whatever the caller and the request, the job endpoint either writes
    nothing or saves one existing job with one of the four statuses. *)
Lemma job_patch_writes
  (user : RequestUser) (job_id : Z) (new_status : option string) (db : DB) :
  let db' := snd (TechnicianJobUpdateView_patch user job_id new_status db) in
  db' = db
  \/ exists job s,
       QuerySet.get Job.id job_id (jobs db) = Some job
       /\ str_in s JOB_STATUSES = true
       /\ db' = with_jobs
                  (QuerySet.save Job.id (Job.set_status s job) (jobs db)) db.
Proof.
  intros db'. subst db'.
  destruct (TechnicianJobUpdateView_patch user job_id new_status db)
    as [r dbx] eqn:E.
  cbn [snd]. unfold TechnicianJobUpdateView_patch in E.
  destruct user as [|u]; [left; now inversion E|].
  cbn [IsAuthenticated is_authenticated check_permissions] in E.
  unfold bind at 1 in E. cbn [ret] in E.
  destruct (not_a_technician (AuthUser u)); [left; now inversion E|].
  unfold bind at 1, get_object_or_404 in E.
  destruct (QuerySet.get Job.id job_id (jobs db)) as [job|] eqn:Hj;
    [|left; now inversion E].
  destruct (negb (is_user (Job.assigned_to job) (AuthUser u)));
    [left; now inversion E|].
  fold JOB_STATUSES in E.
  destruct new_status as [s|]; cbn [status_not_in] in E;
    [|left; now inversion E].
  destruct (str_in s JOB_STATUSES) eqn:Hs; cbn [negb] in E;
    [|left; now inversion E].
  cbn [or_else] in E. unfold bind, query, ret, modify in E.
  destruct (String.eqb s "COMPLETED").
  - destruct (QuerySet.exists_ (incomplete_tasks db job));
      [left; now inversion E|].
    right. exists job, s. inversion E. auto.
  - right. exists job, s. inversion E. auto.
Qed.

(** X4: [TechnicianJobUpdateView.patch] never touches tasks, ledger or
    catalog, keeps the set of job keys, leaves every other job as it is,
    and changes nothing of the job itself but its status, which is then
    one of the four choices: id, title, description, client, schedule,
    priority, creator, assignee, creation time and the [overdue] flag
    all stay as they were. *)
Theorem job_patch_touches_one_status
  (user : RequestUser) (job_id : Z) (new_status : option string) (db : DB) :
  let db' := snd (TechnicianJobUpdateView_patch user job_id new_status db) in
  job_tasks db' = job_tasks db
  /\ job_task_equipment db' = job_task_equipment db
  /\ equipment_catalog db' = equipment_catalog db
  /\ map Job.id (jobs db') = map Job.id (jobs db)
  /\ (forall pk, pk <> job_id ->
        QuerySet.get Job.id pk (jobs db') = QuerySet.get Job.id pk (jobs db))
  /\ (forall j j',
        QuerySet.get Job.id job_id (jobs db) = Some j ->
        QuerySet.get Job.id job_id (jobs db') = Some j' ->
        Job.id j' = Job.id j
        /\ Job.title j' = Job.title j
        /\ Job.description j' = Job.description j
        /\ Job.client_name j' = Job.client_name j
        /\ Job.scheduled_date j' = Job.scheduled_date j
        /\ Job.priority j' = Job.priority j
        /\ Job.created_by j' = Job.created_by j
        /\ Job.assigned_to j' = Job.assigned_to j
        /\ Job.created_at j' = Job.created_at j
        /\ Job.overdue j' = Job.overdue j
        /\ (Job.status j' = Job.status j
            \/ str_in (Job.status j') Job.STATUS_CHOICES = true)).
Proof.
  intros db'.
  destruct (job_patch_writes user job_id new_status db)
    as [Hsame | [job [s [Hget [Hs Hwrite]]]]];
    [fold db' in Hsame | fold db' in Hwrite].
  - rewrite Hsame.
    split; [reflexivity|]. split; [reflexivity|]. split; [reflexivity|].
    split; [reflexivity|]. split; [reflexivity|].
    intros j j' Hj Hj'. rewrite Hj in Hj'. inversion Hj'; subst j'.
    repeat (split; [reflexivity|]). now left.
  - rewrite Hwrite. cbn [with_jobs jobs job_tasks job_task_equipment
                         equipment_catalog].
    assert (Hpk : Job.id job = job_id)
      by (apply (get_found Job.id) in Hget; tauto).
    split; [reflexivity|]. split; [reflexivity|]. split; [reflexivity|].
    split; [apply map_pk_save|]. split.
    + intros pk Hne. apply get_save_other.
      cbn [Job.set_status Job.id]. congruence.
    + intros j j' Hj Hj'.
      rewrite (get_save Job.id job_id _ job _ Hget) in Hj' by exact Hpk.
      rewrite Hget in Hj. inversion Hj; inversion Hj'; subst.
      cbn [Job.set_status Job.id Job.title Job.description Job.client_name
           Job.scheduled_date Job.priority Job.created_by Job.assigned_to
           Job.created_at Job.overdue Job.status].
      repeat (split; [reflexivity|]). right. exact Hs.
Qed.
End EndpointFrames.

(* ================================================================== *)
(** * Who is answered what *)

Section Answers.
Import Permissions Serializers Views JobResponses TaskResponses.

Lemma not_a_technician_spec (u : User.t) :
  not_a_technician (AuthUser u) = true <->
  User.role u <> "TECHNICIAN"%string.
Proof.
  cbn [not_a_technician]. rewrite negb_true_iff. split.
  - intros H E. rewrite E in H. discriminate.
  - intros H. destruct (String.eqb (User.role u) "TECHNICIAN") eqn:E;
      [|reflexivity].
    apply String.eqb_eq in E. contradiction.
Qed.

(** X5: the three technician endpoints answer every authenticated caller
    whose role is not TECHNICIAN (admins and sales agents included) with
    403 and write nothing, whatever the ids and the status asked for;
    an anonymous caller is stopped by the permission check. *)
Theorem technician_endpoints_refuse_other_roles
  (now : datetime) (today : date) (db : DB) (u : User.t) (pk : Z)
  (new_status : option string) :
  (User.role u <> "TECHNICIAN"%string ->
   TechnicianDashboardView_get today (AuthUser u) db
   = (Ok technicians_only, db)
   /\ TechnicianTaskUpdateView_patch now (AuthUser u) pk new_status db
      = (Ok technicians_only, db)
   /\ TechnicianJobUpdateView_patch (AuthUser u) pk new_status db
      = (Ok technicians_only, db))
  /\ TechnicianDashboardView_get today AnonymousUser db
     = (Raise PermissionDenied, db)
  /\ TechnicianTaskUpdateView_patch now AnonymousUser pk new_status db
     = (Raise PermissionDenied, db)
  /\ TechnicianJobUpdateView_patch AnonymousUser pk new_status db
     = (Raise PermissionDenied, db).
Proof.
  split; [|repeat split].
  intros Hrole. apply not_a_technician_spec in Hrole.
  unfold TechnicianDashboardView_get, TechnicianTaskUpdateView_patch,
    TechnicianJobUpdateView_patch.
  cbn [IsAuthenticated is_authenticated check_permissions].
  unfold bind at 1 3 5. cbn [ret]. rewrite Hrole. repeat split.
Qed.

(** X6: a technician who asks for a job or a task that does not exist
    gets [Http404] before assignment or status are looked at, and
    nothing is written. *)
Theorem technician_patch_unknown_object
  (now : datetime) (db : DB) (u : User.t) (pk : Z)
  (new_status : option string) :
  User.role u = "TECHNICIAN"%string ->
  (QuerySet.get Job.id pk (jobs db) = None ->
   TechnicianJobUpdateView_patch (AuthUser u) pk new_status db
   = (Raise Http404, db))
  /\ (QuerySet.get JobTask.id pk (job_tasks db) = None ->
      TechnicianTaskUpdateView_patch now (AuthUser u) pk new_status db
      = (Raise Http404, db)).
Proof.
  intros Hrole.
  assert (Htech : not_a_technician (AuthUser u) = false).
  { cbn [not_a_technician]. now rewrite Hrole. }
  split; intros Hnone.
  - unfold TechnicianJobUpdateView_patch.
    cbn [IsAuthenticated is_authenticated check_permissions].
    unfold bind at 1. cbn [ret]. rewrite Htech.
    unfold bind at 1, get_object_or_404. now rewrite Hnone.
  - unfold TechnicianTaskUpdateView_patch.
    cbn [IsAuthenticated is_authenticated check_permissions].
    unfold bind at 1. cbn [ret]. rewrite Htech.
    unfold bind at 1, get_object_or_404. now rewrite Hnone.
Qed.

(** X7: the assigned technician who sends no status, or one outside the
    endpoint's list, is answered 400 and nothing is written.  The lists
    differ: CANCELLED is no task status, NOT_STARTED no job status. *)
Theorem technician_patch_invalid_status
  (now : datetime) (db : DB) (u : User.t) (job : Job.t) :
  User.role u = "TECHNICIAN"%string ->
  Job.assigned_to job = User.id u ->
  (forall job_id new_status,
     QuerySet.get Job.id job_id (jobs db) = Some job ->
     new_status = None
     \/ (exists s, new_status = Some s
                   /\ s <> "PENDING"%string /\ s <> "IN_PROGRESS"%string
                   /\ s <> "COMPLETED"%string /\ s <> "CANCELLED"%string) ->
     TechnicianJobUpdateView_patch (AuthUser u) job_id new_status db
     = (Ok job_invalid_status, db))
  /\ (forall task_id task new_status,
        QuerySet.get JobTask.id task_id (job_tasks db) = Some task ->
        QuerySet.get Job.id (JobTask.job task) (jobs db) = Some job ->
        new_status = None
        \/ (exists s, new_status = Some s
                      /\ s <> "NOT_STARTED"%string
                      /\ s <> "IN_PROGRESS"%string
                      /\ s <> "COMPLETED"%string) ->
        TechnicianTaskUpdateView_patch now (AuthUser u) task_id new_status db
        = (Ok task_invalid_status, db)).
Proof.
  intros Hrole Hassigned. split.
  - intros job_id new_status Hget Hbad.
    rewrite (technician_job_patch_cases db u job_id job new_status Hrole Hget).
    rewrite Hassigned, Z.eqb_refl. cbn [negb].
    replace (status_not_in new_status JOB_STATUSES) with true; [reflexivity|].
    symmetry. destruct Hbad as [-> | [s [-> [H1 [H2 [H3 H4]]]]]];
      [reflexivity|].
    cbn [status_not_in]. apply negb_true_iff. apply not_true_is_false.
    unfold JOB_STATUSES. rewrite !str_in_cons. unfold str_in; simpl.
    intuition discriminate.
  - intros task_id task new_status Htask Hjob Hbad.
    rewrite (technician_task_patch_cases now db u task_id task job new_status
               Hrole Htask Hjob).
    rewrite Hassigned, Z.eqb_refl. cbn [negb].
    replace (status_not_in new_status TASK_STATUSES) with true; [reflexivity|].
    symmetry. destruct Hbad as [-> | [s [-> [H1 [H2 H3]]]]];
      [reflexivity|].
    cbn [status_not_in]. apply negb_true_iff. apply not_true_is_false.
    unfold TASK_STATUSES. rewrite !str_in_cons. unfold str_in; simpl.
    intuition discriminate.
Qed.

(** X8: only the move to COMPLETED is gated.  The assigned technician
    moves a job to PENDING, IN_PROGRESS or CANCELLED from any status it
    has (COMPLETED included) and whatever its tasks are; the answer
    names the old and the new status. *)
Theorem ungated_job_transitions
  (db : DB) (u : User.t) (job_id : Z) (job : Job.t) (s : string) :
  User.role u = "TECHNICIAN"%string ->
  QuerySet.get Job.id job_id (jobs db) = Some job ->
  Job.assigned_to job = User.id u ->
  s = "PENDING"%string \/ s = "IN_PROGRESS"%string \/ s = "CANCELLED"%string ->
  exists db',
    TechnicianJobUpdateView_patch (AuthUser u) job_id (Some s) db
    = (Ok (mkResponse 200
             (JobStatusUpdated
                ("Job status updated from " ++ Job.status job
                   ++ " to " ++ s)%string
                (Job.id job) (Job.title job) s (Job.client_name job))),
       db')
    /\ QuerySet.get Job.id job_id (jobs db') = Some (Job.set_status s job).
Proof.
  intros Hrole Hget Hassigned Hs.
  rewrite (technician_job_patch_cases db u job_id job (Some s) Hrole Hget).
  rewrite Hassigned, Z.eqb_refl. cbn [negb status_not_in or_else].
  assert (Hvalid : str_in s JOB_STATUSES = true)
    by (destruct Hs as [-> | [-> | ->]]; reflexivity).
  assert (Hopen : String.eqb s "COMPLETED" = false)
    by (destruct Hs as [-> | [-> | ->]]; reflexivity).
  rewrite Hvalid, Hopen. cbn [negb andb].
  eexists. split; [reflexivity|].
  cbn [with_jobs jobs].
  apply get_save with (r := job); [exact Hget|].
  apply (get_found Job.id) in Hget. cbn [Job.set_status Job.id]. tauto.
Qed.

(** X9: the general endpoints are closed to technicians.  A technician,
    the job's own assignee included, and an anonymous caller are stopped
    by the permission check of [JobViewSet] and of [JobTaskViewSet]
    before anything is looked up or written.  [CanManageTasks] refuses
    them every method; its object check, which the views never reach
    for them, answers a technician no and raises on an anonymous caller,
    whose [role] it reads unguarded. *)
Theorem general_endpoints_refuse_technicians
  (max_quantity : Z) (now : datetime) (db : DB) (user : RequestUser)
  (pk : Z) (status : option string)
  (items : option (list RequirementItem.t)) :
  user = AnonymousUser
  \/ (exists u, user = AuthUser u /\ User.role u = "TECHNICIAN"%string) ->
  JobViewSet_partial_update user pk status db = (Raise PermissionDenied, db)
  /\ JobTaskViewSet_partial_update max_quantity now user pk status items db
     = (Raise PermissionDenied, db)
  /\ (forall method, CanManageTasks_has_permission user method = false)
  /\ CanManageTasks_has_object_permission user
     = match user with
       | AnonymousUser => Raise AttributeError
       | AuthUser _ => Ok false
       end.
Proof.
  intros [-> | [u [-> Hrole]]].
  - repeat split.
  - unfold JobViewSet_partial_update, JobTaskViewSet_partial_update,
      IsAdminOrSalesAgent, CanManageTasks_has_permission,
      CanManageTasks_has_object_permission.
    cbn [is_authenticated role_in role_is negb andb]. rewrite Hrole.
    repeat split.
Qed.

(** X10: [JobViewSet] turns a request of an admin or a sales agent down
    without writing when the job does not exist ([Http404]) and when the
    status is none of the four choices ([ValidationError]). *)
Theorem job_viewset_errors
  (db : DB) (u : User.t) (pk : Z) :
  User.role u = "ADMIN"%string \/ User.role u = "SALES_AGENT"%string ->
  (forall status,
     QuerySet.get Job.id pk (jobs db) = None ->
     JobViewSet_partial_update (AuthUser u) pk status db
     = (Raise Http404, db))
  /\ (forall job s,
        QuerySet.get Job.id pk (jobs db) = Some job ->
        s <> "PENDING"%string -> s <> "IN_PROGRESS"%string ->
        s <> "COMPLETED"%string -> s <> "CANCELLED"%string ->
        JobViewSet_partial_update (AuthUser u) pk (Some s) db
        = (Raise ValidationError, db)).
Proof.
  intros Hrole.
  assert (Hperm : IsAdminOrSalesAgent (AuthUser u) = true).
  { unfold IsAdminOrSalesAgent. cbn [is_authenticated role_in andb].
    now apply str_in_two. }
  split.
  - intros status Hnone. unfold JobViewSet_partial_update. rewrite Hperm.
    cbn [check_permissions]. unfold bind at 1. cbn [ret].
    unfold bind at 1, get_object_or_404. now rewrite Hnone.
  - intros job s Hget H1 H2 H3 H4.
    unfold JobViewSet_partial_update. rewrite Hperm.
    cbn [check_permissions]. unfold bind at 1. cbn [ret].
    rewrite (bind_ok _ _ _ _ _
               (get_object_or_404_found jobs Job.id _ _ _ Hget)).
    cbn [choice_is_valid].
    replace (str_in s Job.STATUS_CHOICES) with false; [reflexivity|].
    symmetry. apply not_true_is_false. unfold Job.STATUS_CHOICES.
    rewrite !str_in_cons. unfold str_in; simpl. intuition discriminate.
Qed.
End Answers.

(* ================================================================== *)
(** * Transitions in a row *)

Section Sequences.
Import Permissions Serializers Views JobResponses TaskResponses.

Lemma in_save {A : Type} (pk_of : A -> Z) (r x : A) (table : list A) :
  In x (QuerySet.save pk_of r table) ->
  x = r \/ (In x table /\ pk_of x <> pk_of r).
Proof.
  unfold QuerySet.save. intros Hin. apply in_map_iff in Hin as [a [E Ha]].
  destruct (pk_of a =? pk_of r) eqn:Epk.
  - left. now symmetry.
  - right. subst x. split; [exact Ha | now apply Z.eqb_neq].
Qed.

(** One transition by the assignee, with the store it leaves and the
    facts the next transition needs. *)
Lemma task_patch_step
  (now : datetime) (db : DB) (u : User.t) (task_id : Z) (task : JobTask.t)
  (job : Job.t) (s : string) :
  User.role u = "TECHNICIAN"%string ->
  QuerySet.get JobTask.id task_id (job_tasks db) = Some task ->
  QuerySet.get Job.id (JobTask.job task) (jobs db) = Some job ->
  Job.assigned_to job = User.id u ->
  str_in s TASK_STATUSES = true ->
  let task' := set_task_status s (stamp now task s) task in
  let db' :=
    with_job_tasks (QuerySet.save JobTask.id task' (job_tasks db)) db in
  TechnicianTaskUpdateView_patch now (AuthUser u) task_id (Some s) db
  = (Ok (task_status_updated task s (stamp now task s)), db')
  /\ QuerySet.get JobTask.id task_id (job_tasks db') = Some task'
  /\ QuerySet.get Job.id (JobTask.job task') (jobs db') = Some job.
Proof.
  intros Hrole Htask Hjob Hassigned Hs task' db'. split; [|split].
  - rewrite (technician_task_patch_cases now db u task_id task job (Some s)
               Hrole Htask Hjob).
    rewrite Hassigned, Z.eqb_refl. cbn [negb status_not_in].
    rewrite Hs. reflexivity.
  - subst db'. cbn [with_job_tasks job_tasks].
    apply get_save with (r := task); [exact Htask|].
    apply (get_found JobTask.id) in Htask. subst task'.
    cbn [set_task_status JobTask.id]. tauto.
  - exact Hjob.
Qed.

(** X11: on the technician endpoint the completion stamp is taken once
    per stay in COMPLETED.  Sending COMPLETED again, later, keeps the
    first stamp; leaving COMPLETED and entering it again stamps the time
    of the second entry. *)
Theorem completion_stamp_is_kept_and_renewed
  (db : DB) (u : User.t) (task_id : Z) (task : JobTask.t) (job : Job.t)
  (now1 now2 now3 : datetime) (s : string) :
  User.role u = "TECHNICIAN"%string ->
  QuerySet.get JobTask.id task_id (job_tasks db) = Some task ->
  QuerySet.get Job.id (JobTask.job task) (jobs db) = Some job ->
  Job.assigned_to job = User.id u ->
  JobTask.completed_at task = None ->
  s = "NOT_STARTED"%string \/ s = "IN_PROGRESS"%string ->
  let patch now status d :=
    snd (TechnicianTaskUpdateView_patch now (AuthUser u) task_id
           (Some status) d) in
  let stored d :=
    option_map JobTask.completed_at
               (QuerySet.get JobTask.id task_id (job_tasks d)) in
  stored (patch now1 "COMPLETED"%string db) = Some (Some now1)
  /\ stored (patch now2 "COMPLETED"%string
               (patch now1 "COMPLETED"%string db))
     = Some (Some now1)
  /\ stored (patch now2 s (patch now1 "COMPLETED"%string db)) = Some None
  /\ stored (patch now3 "COMPLETED"%string
               (patch now2 s (patch now1 "COMPLETED"%string db)))
     = Some (Some now3).
Proof.
  intros Hrole Htask Hjob Hassigned Hnone Hs patch stored.
  assert (Hvalid : str_in s TASK_STATUSES = true)
    by (destruct Hs as [-> | ->]; reflexivity).
  assert (Hopen : String.eqb s "COMPLETED" = false)
    by (destruct Hs as [-> | ->]; reflexivity).
  destruct (task_patch_step now1 db u task_id task job "COMPLETED"
              Hrole Htask Hjob Hassigned eq_refl) as [Hrun1 [Htask1 Hjob1]].
  set (task1 := set_task_status "COMPLETED" (stamp now1 task "COMPLETED") task)
    in *.
  set (db1 := with_job_tasks (QuerySet.save JobTask.id task1 (job_tasks db)) db)
    in *.
  assert (Hdb1 : patch now1 "COMPLETED"%string db = db1)
    by (unfold patch; now rewrite Hrun1).
  assert (Hc1 : JobTask.completed_at task1 = Some now1).
  { subst task1. cbn [set_task_status JobTask.completed_at].
    unfold stamp. rewrite Hnone. reflexivity. }
  destruct (task_patch_step now2 db1 u task_id task1 job "COMPLETED"
              Hrole Htask1 Hjob1 Hassigned eq_refl) as [Hrun2 [Htask2 _]].
  destruct (task_patch_step now2 db1 u task_id task1 job s
              Hrole Htask1 Hjob1 Hassigned Hvalid) as [Hrun3 [Htask3 Hjob3]].
  set (task3 := set_task_status s (stamp now2 task1 s) task1) in *.
  set (db3 := with_job_tasks (QuerySet.save JobTask.id task3 (job_tasks db1))
                db1) in *.
  assert (Hc3 : JobTask.completed_at task3 = None).
  { subst task3. cbn [set_task_status JobTask.completed_at].
    unfold stamp. rewrite Hopen. reflexivity. }
  destruct (task_patch_step now3 db3 u task_id task3 job "COMPLETED"
              Hrole Htask3 Hjob3 Hassigned eq_refl) as [Hrun4 [Htask4 _]].
  rewrite Hdb1. split; [|split; [|split]].
  - unfold stored. now rewrite Htask1, <- Hc1.
  - unfold stored, patch. rewrite Hrun2. cbn [snd]. rewrite Htask2.
    cbn [option_map set_task_status JobTask.completed_at].
    unfold stamp. now rewrite Hc1.
  - unfold stored, patch. rewrite Hrun3. cbn [snd]. fold db3.
    now rewrite Htask3, <- Hc3.
  - unfold stored, patch. rewrite Hrun3. cbn [snd]. fold db3.
    rewrite Hrun4. cbn [snd]. rewrite Htask4.
    cbn [option_map set_task_status JobTask.completed_at].
    unfold stamp. now rewrite Hc3.
Qed.

(** X12: completing the last open task opens the gate.  When every other
    task of the job is COMPLETED, the assignee's COMPLETED on the
    remaining task followed by COMPLETED on the job is answered 200 and
    the job is saved as COMPLETED; the task transition alone leaves the
    job's status as it was. *)
Theorem last_task_unlocks_completion
  (now : datetime) (db : DB) (u : User.t) (job_id task_id : Z)
  (job : Job.t) (task : JobTask.t) :
  User.role u = "TECHNICIAN"%string ->
  QuerySet.get Job.id job_id (jobs db) = Some job ->
  Job.assigned_to job = User.id u ->
  QuerySet.get JobTask.id task_id (job_tasks db) = Some task ->
  JobTask.job task = Job.id job ->
  (forall t, In t (job_tasks db) -> JobTask.job t = Job.id job ->
             JobTask.id t <> task_id ->
             JobTask.status t = "COMPLETED"%string) ->
  let db1 :=
    snd (TechnicianTaskUpdateView_patch now (AuthUser u) task_id
           (Some "COMPLETED"%string) db) in
  let outcome :=
    TechnicianJobUpdateView_patch (AuthUser u) job_id
      (Some "COMPLETED"%string) db1 in
  QuerySet.get Job.id job_id (jobs db1) = Some job
  /\ fst outcome = Ok (job_status_updated job "COMPLETED")
  /\ QuerySet.get Job.id job_id (jobs (snd outcome))
     = Some (Job.set_status "COMPLETED" job).
Proof.
  intros Hrole Hjob Hassigned Htask Hparent Hothers db1 outcome.
  assert (Hpk : Job.id job = job_id)
    by (apply (get_found Job.id) in Hjob; tauto).
  assert (Htid : JobTask.id task = task_id)
    by (apply (get_found JobTask.id) in Htask; tauto).
  assert (Hjob' : QuerySet.get Job.id (JobTask.job task) (jobs db) = Some job)
    by (rewrite Hparent, Hpk; exact Hjob).
  destruct (task_patch_step now db u task_id task job "COMPLETED"
              Hrole Htask Hjob' Hassigned eq_refl) as [Hrun [_ _]].
  set (task' := set_task_status "COMPLETED" (stamp now task "COMPLETED") task)
    in *.
  assert (Hdb1 : db1 = with_job_tasks
                         (QuerySet.save JobTask.id task' (job_tasks db)) db)
    by (subst db1; now rewrite Hrun).
  assert (Hjob1 : QuerySet.get Job.id job_id (jobs db1) = Some job)
    by (rewrite Hdb1; exact Hjob).
  assert (Hnone : QuerySet.exists_ (incomplete_tasks db1 job) = false).
  { apply exists_false_iff.
    destruct (incomplete_tasks db1 job) as [|t l] eqn:E; [reflexivity|].
    assert (Hin : In t (incomplete_tasks db1 job)) by (rewrite E; now left).
    apply in_incomplete_tasks in Hin as [[Hin Hj] Hst].
    rewrite Hdb1 in Hin. cbn [with_job_tasks job_tasks] in Hin.
    apply in_save in Hin as [-> | [Hin Hne]].
    - elim Hst. reflexivity.
    - elim Hst. apply Hothers; [exact Hin | exact Hj |].
      subst task'. cbn [set_task_status JobTask.id] in Hne. congruence. }
  assert (Hout := technician_job_patch_cases db1 u job_id job
                    (Some "COMPLETED"%string) Hrole Hjob1).
  fold outcome in Hout.
  rewrite Hassigned, Z.eqb_refl, Hnone in Hout.
  cbn [negb status_not_in or_else] in Hout.
  change (negb (str_in "COMPLETED" JOB_STATUSES)) with false in Hout.
  rewrite String.eqb_refl in Hout. cbn [andb] in Hout.
  split; [exact Hjob1|]. rewrite Hout. split; [reflexivity|].
  cbn [snd with_jobs jobs].
  apply get_save with (r := job); [exact Hjob1|].
  cbn [Job.set_status Job.id]. exact Hpk.
Qed.

(** X13: [JobTaskSerializer.update] keeps one half of the timestamp
    invariant.  Whenever it returns, the task it saved and returned is
    stamped if its status is COMPLETED: with the stamp that was there or
    was sent, else with the time of the update. *)
Theorem serializer_update_stamps_completed
  (now : datetime) (db db' : DB) (task t' : JobTask.t) (v : TaskData.t) :
  QuerySet.get JobTask.id (JobTask.id task) (job_tasks db) = Some task ->
  JobTaskSerializer_update now task v db = (Ok t', db') ->
  QuerySet.get JobTask.id (JobTask.id task) (job_tasks db') = Some t'
  /\ (JobTask.status t' = "COMPLETED"%string ->
      JobTask.completed_at t' <> None)
  /\ (JobTask.completed_at t' = Some now
      \/ JobTask.completed_at t'
         = or_else (TaskData.completed_at v) (JobTask.completed_at task)).
Proof.
  intros Hget Hrun.
  assert (Hresult : t' = updated_instance now task v
                    /\ job_tasks db'
                       = QuerySet.save JobTask.id (updated_instance now task v)
                                       (job_tasks db)).
  { rewrite update_runs in Hrun.
    destruct (JobTask_save_refused db (updated_instance now task v));
      [discriminate|].
    destruct (TaskData.equipment_requirements v) as [reqs|].
    - match type of Hrun with
      | context [create_requirements ?pk ?l ?d] =>
          destruct (create_requirements pk l d) as [[[]|e] db1] eqn:Hloop;
          [|discriminate]
      end.
      inversion Hrun; subst.
      apply create_requirements_shape in Hloop as [rows [seq' [-> _]]].
      split; reflexivity.
    - inversion Hrun; subst. split; reflexivity. }
  destruct Hresult as [-> Htable]. rewrite Htable.
  split; [|split].
  - apply get_save with (r := task); [exact Hget|].
    apply updated_instance_id.
  - unfold updated_instance.
    destruct (String.eqb (JobTask.status (setattrs task v)) "COMPLETED")
      eqn:Est; cbn [andb].
    + destruct (JobTask.completed_at (setattrs task v)) as [c|] eqn:Ec;
        cbn [truthy negb].
      * intros _. rewrite Ec. discriminate.
      * intros _. discriminate.
    + intros Hst. apply String.eqb_neq in Est. contradiction.
  - unfold updated_instance.
    destruct (String.eqb (JobTask.status (setattrs task v)) "COMPLETED"
              && negb (truthy (JobTask.completed_at (setattrs task v)))).
    + left. reflexivity.
    + right. reflexivity.
Qed.
End Sequences.

(* ================================================================== *)
(** * More on the overdue sweep *)

Section SweepReport.
Import Tasks.

Variable now : datetime.

Ltac flag_cases :=
  let s := fresh "s" in
  let o := fresh "o" in
  let E1 := fresh "E" in
  let E2 := fresh "E" in
  intros [? ? ? ? s ? ? ? ? ? o];
  unfold flag_raised, flag_dropped, overdue_jobs, not_overdue_jobs, due_at,
    Job.set_overdue, scheduled_date__lt, status__in;
  cbn [fst snd Job.id Job.title Job.description Job.client_name
       Job.scheduled_date Job.status Job.priority Job.created_by
       Job.assigned_to Job.created_at Job.overdue];
  destruct s as [?d|]; [destruct (_ <? _) eqn:E1|];
  destruct (str_in _ _) eqn:E2; destruct o;
  cbn -[str_in Z.ltb]; rewrite ?E1, ?E2; reflexivity.

Lemma filter_combine_map {A : Type} (f : A -> A) (p : A * A -> bool)
  (l : list A) :
  filter p (combine l (map f l))
  = map (fun x => (x, f x)) (filter (fun x => p (x, f x)) l).
Proof.
  induction l as [|a l IH]; simpl; [reflexivity|].
  destruct (p (a, f a)); simpl; now rewrite IH.
Qed.

Lemma length_filter_le {A : Type} (p : A -> bool) (l : list A) :
  (List.length (filter p l) <= List.length l)%nat.
Proof.
  induction l as [|a l IH]; simpl; [lia|].
  destruct (p a); simpl; lia.
Qed.

Lemma length_filter_disjoint {A : Type} (p q : A -> bool) (l : list A) :
  (forall x, p x = true -> q x = false) ->
  (List.length (filter p l) + List.length (filter q l) <= List.length l)%nat.
Proof.
  intros H. induction l as [|a l IH]; simpl; [lia|].
  destruct (p a) eqn:Ep.
  - rewrite (H a Ep). simpl. lia.
  - destruct (q a); simpl; lia.
Qed.

(** X14: the report of the sweep counts the rows it changed.  Row by row,
    [marked_overdue] is the number of flags that went from off to on,
    [cleared_overdue] the number that went from on to off; no row is
    added or removed, and the two counts together never exceed the
    number of jobs. *)
Theorem sweep_report_counts_flag_changes (db : DB) :
  let report := fst (check_overdue_jobs now db) in
  let db' := snd (check_overdue_jobs now db) in
  let changes := combine (jobs db) (jobs db') in
  List.length (jobs db') = List.length (jobs db)
  /\ marked_overdue report = List.length (filter flag_raised changes)
  /\ cleared_overdue report = List.length (filter flag_dropped changes)
  /\ (marked_overdue report + cleared_overdue report
      <= List.length (jobs db))%nat
  /\ timestamp report = now.
Proof.
  intros report db' changes.
  assert (Hrows : jobs db'
                  = map (fun j => Job.set_overdue (due_at now j) j) (jobs db))
    by apply sweep_rows.
  assert (Hmarked : marked_overdue report
                    = List.length (filter (overdue_jobs now) (jobs db)))
    by reflexivity.
  assert (Hcleared : cleared_overdue report
                     = List.length (filter (not_overdue_jobs now) (jobs db))).
  { subst report. unfold check_overdue_jobs, QuerySet.update.
    cbn [fst cleared_overdue].
    apply filter_map_comm. flag_cases. }
  split; [rewrite Hrows; apply length_map|].
  split; [|split; [|split]].
  - subst changes. rewrite Hrows, filter_combine_map, length_map, Hmarked.
    f_equal. apply filter_ext. flag_cases.
  - subst changes. rewrite Hrows, filter_combine_map, length_map, Hcleared.
    f_equal. apply filter_ext. flag_cases.
  - rewrite Hmarked, Hcleared. apply length_filter_disjoint.
    intros j Hj. revert Hj. generalize j.
    intros [? ? ? ? s ? ? ? ? ? o].
    unfold overdue_jobs, not_overdue_jobs.
    cbn [Job.overdue]. destruct o; cbn [Bool.eqb andb];
      [rewrite andb_false_r; discriminate | reflexivity].
  - reflexivity.
Qed.

Lemma due_at_mono (now' : datetime) (j : Job.t) :
  now <= now' -> due_at now j = true -> due_at now' j = true.
Proof.
  intros Hle. unfold due_at, scheduled_date__lt.
  rewrite !andb_true_iff. intros [Hd Hs]. split; [|exact Hs].
  destruct (Job.scheduled_date j) as [d|]; [|discriminate].
  apply Z.ltb_lt in Hd. apply Z.ltb_lt. lia.
Qed.

(** X15: time alone never clears a flag.  A sweep at [now] followed, with
    no change to any job, by a sweep at a later time clears nothing:
    every job flagged after the first is flagged after the second. *)
Theorem later_sweep_never_clears (now' : datetime) (db : DB) :
  now <= now' ->
  let first := check_overdue_jobs now db in
  let second := check_overdue_jobs now' (snd first) in
  cleared_overdue (fst second) = 0%nat
  /\ (forall p, In p (combine (jobs (snd first)) (jobs (snd second))) ->
                Job.overdue (fst p) = true -> Job.overdue (snd p) = true).
Proof.
  intros Hle first second.
  assert (H1 : jobs (snd first)
               = map (fun j => Job.set_overdue (due_at now j) j) (jobs db))
    by apply sweep_rows.
  assert (H2 : jobs (snd second)
               = map (fun j => Job.set_overdue (due_at now' j) j)
                     (jobs (snd first)))
    by apply sweep_rows.
  split.
  - assert (Hcleared :
        cleared_overdue (fst second)
        = List.length (filter (not_overdue_jobs now') (jobs (snd first)))).
    { subst second. unfold check_overdue_jobs at 1, QuerySet.update.
      cbn [fst cleared_overdue].
      apply filter_map_comm.
      intros [? ? ? ? s ? ? ? ? ? o].
      unfold overdue_jobs, not_overdue_jobs, Job.set_overdue,
        scheduled_date__lt, status__in.
      cbn [Job.scheduled_date Job.status Job.overdue].
      destruct s as [?d|]; [destruct (_ <? _) eqn:E1|];
        destruct (str_in _ _) eqn:E2; destruct o;
        cbn -[str_in Z.ltb]; rewrite ?E1, ?E2; reflexivity. }
    rewrite Hcleared, filter_none; [reflexivity|].
    intros j Hin. rewrite H1 in Hin.
    apply in_map_iff in Hin as [j0 [<- _]].
    unfold not_overdue_jobs.
    change (Job.overdue (Job.set_overdue (due_at now j0) j0))
      with (due_at now j0).
    change (scheduled_date__lt now' (Job.set_overdue (due_at now j0) j0)
            && status__in ["PENDING"%string; "IN_PROGRESS"%string]
                 (Job.set_overdue (due_at now j0) j0))
      with (due_at now' j0).
    destruct (due_at now j0) eqn:E; [|reflexivity].
    now rewrite (due_at_mono now' j0 Hle E).
  - intros p Hin Hflag. rewrite H2 in Hin.
    assert (Hp : exists j, In j (jobs (snd first))
                           /\ p = (j, Job.set_overdue (due_at now' j) j)).
    { revert Hin. generalize (jobs (snd first)).
      induction l as [|a l IH]; simpl; [tauto|].
      intros [<- | Hin]; [exists a; auto|].
      destruct (IH Hin) as [j [Hj E]]. exists j. auto. }
    destruct Hp as [j [Hj ->]]. cbn [fst snd] in *.
    rewrite H1 in Hj. apply in_map_iff in Hj as [j0 [<- _]].
    change (Job.overdue (Job.set_overdue (due_at now j0) j0))
      with (due_at now j0) in Hflag.
    change (Job.overdue
              (Job.set_overdue
                 (due_at now' (Job.set_overdue (due_at now j0) j0))
                 (Job.set_overdue (due_at now j0) j0)))
      with (due_at now' j0).
    now apply due_at_mono.
Qed.
End SweepReport.

(* ================================================================== *)
(** * Invariants of the ledger *)

Section LedgerInvariants.
Import Permissions Serializers Views.

Lemma filter_keeps_distinct {K R : Type} (key : R -> K) (keep : R -> bool) :
  forall rows : list R,
    NoDup (map key rows) -> NoDup (map key (filter keep rows)).
Proof.
  intros rows. induction rows as [|r rows IH]; cbn [map filter];
    intros Hdistinct; [constructor|].
  apply NoDup_cons_iff in Hdistinct as [Hnew Hrest].
  destruct (keep r); cbn [map]; [|exact (IH Hrest)].
  apply NoDup_cons; [|exact (IH Hrest)].
  intros Hin. apply Hnew. apply in_map_iff in Hin as [x [E Hx]].
  apply filter_In in Hx as [Hx _]. apply in_map_iff. now exists x.
Qed.

Lemma NoDup_map_snoc {A B : Type} (f : A -> B) (l : list A) (x : A) :
  NoDup (map f l) -> ~ In (f x) (map f l) -> NoDup (map f (l ++ [x])).
Proof.
  induction l as [|a l IH]; simpl; intros H Hx.
  - constructor; [tauto | constructor].
  - inversion H as [|? ? Hnotin Hrest]; subst.
    constructor.
    + rewrite map_app, in_app_iff. simpl. intros [Hin | [E | []]].
      * contradiction.
      * apply Hx. left. now symmetry.
    + apply IH; [exact Hrest | tauto].
Qed.

(** X16: no update makes the ledger hold two rows for the same task and
    equipment.  If every (task, equipment) pair occurs at most once
    before [JobTaskSerializer.update], it occurs at most once after,
    whether the update returns or raises. *)
Theorem ledger_pairs_stay_unique
  (now : datetime) (task : JobTask.t) (v : TaskData.t) (db : DB) :
  NoDup (map ledger_pair (job_task_equipment db)) ->
  NoDup (map ledger_pair
             (job_task_equipment
                (snd (JobTaskSerializer_update now task v db)))).
Proof.
  intros Hnodup. rewrite update_store.
  destruct (JobTask_save_refused db (updated_instance now task v));
    [exact Hnodup|].
  destruct (TaskData.equipment_requirements v) as [reqs|]; [|exact Hnodup].
  apply (create_requirements_keeps
           (fun d => NoDup (map ledger_pair (job_task_equipment d)))).
  - intros eid q n d d' Hd Hok.
    destruct (JobTaskEquipment_create_outcome (JobTask.id task) eid q n d)
      as [[e [Hget [Hfresh [_ Hrun]]]] | Hraise];
      [|rewrite Hraise in Hok; discriminate].
    rewrite Hrun in Hok. inversion Hok; subst d'.
    cbn [with_job_task_equipment job_task_equipment].
    apply NoDup_map_snoc; [exact Hd|].
    intros Hin. apply in_map_iff in Hin as [r [Er Hr]].
    assert (Hex : existsb
                    (fun r => (JobTaskEquipment.job_task r =? JobTask.id task)
                              && (JobTaskEquipment.equipment_id r =? eid))
                    (job_task_equipment d) = true).
    { apply existsb_exists. exists r. split; [exact Hr|].
      unfold ledger_pair in Er. inversion Er as [[E1 E2]].
      cbn [JobTaskEquipment.job_task JobTaskEquipment.equipment_id
           JobTaskEquipment.equipment].
      unfold JobTaskEquipment.equipment_id in E2 |- *.
      cbn [JobTaskEquipment.equipment] in E2.
      apply (get_found Equipment.id) in Hget as [_ Hid].
      rewrite E2, Hid, !Z.eqb_refl. reflexivity. }
    congruence.
  - cbn [with_job_task_equipment job_task_equipment with_job_tasks].
    unfold QuerySet.exclude. now apply filter_keeps_distinct.
Qed.

(** X17: no update stores a negative quantity or a row about equipment
    that is not in the catalog.  If every ledger row has a quantity of
    at least zero and a catalog item before [JobTaskSerializer.update],
    so has every row after, whether the update returns or raises, and
    whatever quantities were sent. *)
Theorem ledger_rows_stay_well_formed
  (now : datetime) (task : JobTask.t) (v : TaskData.t) (db : DB) :
  Forall (fun r => 0 <= JobTaskEquipment.quantity r
                   /\ In (JobTaskEquipment.equipment r)
                         (equipment_catalog db))
         (job_task_equipment db) ->
  let db' := snd (JobTaskSerializer_update now task v db) in
  equipment_catalog db' = equipment_catalog db
  /\ Forall (fun r => 0 <= JobTaskEquipment.quantity r
                      /\ In (JobTaskEquipment.equipment r)
                            (equipment_catalog db'))
            (job_task_equipment db').
Proof.
  intros Hwf db'. subst db'. rewrite update_store.
  destruct (JobTask_save_refused db (updated_instance now task v));
    [split; [reflexivity | exact Hwf]|].
  destruct (TaskData.equipment_requirements v) as [reqs|];
    [|split; [reflexivity | exact Hwf]].
  apply (create_requirements_keeps
           (fun d => equipment_catalog d = equipment_catalog db
                     /\ Forall (fun r => 0 <= JobTaskEquipment.quantity r
                                         /\ In (JobTaskEquipment.equipment r)
                                               (equipment_catalog d))
                               (job_task_equipment d))).
  - intros eid q n d d' [Hcat Hd] Hok.
    destruct (JobTaskEquipment_create_outcome (JobTask.id task) eid q n d)
      as [[e [Hget [_ [Hq Hrun]]]] | Hraise];
      [|rewrite Hraise in Hok; discriminate].
    rewrite Hrun in Hok. inversion Hok; subst d'.
    cbn [with_job_task_equipment job_task_equipment equipment_catalog].
    split; [exact Hcat|].
    apply Forall_app. split; [exact Hd|].
    constructor; [|constructor].
    cbn [JobTaskEquipment.quantity JobTaskEquipment.equipment].
    split; [exact Hq|]. apply (get_found Equipment.id) in Hget. tauto.
  - cbn [with_job_task_equipment job_task_equipment with_job_tasks
         equipment_catalog].
    split; [reflexivity|].
    unfold QuerySet.exclude. rewrite Forall_forall in Hwf |- *.
    intros r Hr. apply filter_In in Hr as [Hr _]. now apply Hwf.
Qed.



End LedgerInvariants.

(* ================================================================== *)
(** * Orderings *)

Section Orderings.
Context {A : Type}.
Variable key : A -> Z.

Lemma insert_by_sorted (x : A) (l : list A) :
  StronglySorted (fun a b => key a <= key b) l ->
  StronglySorted (fun a b => key a <= key b) (QuerySet.insert_by key x l).
Proof.
  induction 1 as [|a l Hsorted IH Hall]; simpl.
  - constructor; constructor.
  - destruct (key x <? key a) eqn:E.
    + apply Z.ltb_lt in E. constructor.
      * constructor; assumption.
      * constructor; [cbv beta; lia|].
        rewrite Forall_forall in Hall |- *. intros b Hb.
        specialize (Hall b Hb). cbv beta in *. lia.
    + apply Z.ltb_ge in E. constructor; [exact IH|].
      rewrite Forall_forall in Hall |- *. intros b Hb.
      apply in_insert_by in Hb as [-> | Hb];
        [exact E | now apply Hall].
Qed.

Lemma order_by_sorted (l : list A) :
  StronglySorted (fun a b => key a <= key b) (QuerySet.order_by key l).
Proof.
  induction l as [|a l IH]; simpl; [constructor|].
  now apply insert_by_sorted.
Qed.

Lemma length_filter_insert_by (p : A -> bool) (x : A) (l : list A) :
  List.length (filter p (QuerySet.insert_by key x l))
  = List.length (filter p (x :: l)).
Proof.
  induction l as [|a l IH]; [reflexivity|].
  simpl. destruct (key x <? key a); [reflexivity|].
  simpl in *. destruct (p a), (p x); simpl in *; lia.
Qed.

Lemma length_filter_order_by (p : A -> bool) (l : list A) :
  List.length (filter p (QuerySet.order_by key l))
  = List.length (filter p l).
Proof.
  induction l as [|a l IH]; [reflexivity|].
  simpl QuerySet.order_by. rewrite length_filter_insert_by.
  simpl. destruct (p a); simpl; now rewrite IH.
Qed.

Lemma length_insert_by (x : A) (l : list A) :
  List.length (QuerySet.insert_by key x l) = S (List.length l).
Proof.
  induction l as [|a l IH]; simpl; [reflexivity|].
  destruct (key x <? key a); simpl; [reflexivity | now rewrite IH].
Qed.

Lemma length_order_by (l : list A) :
  List.length (QuerySet.order_by key l) = List.length l.
Proof.
  induction l as [|a l IH]; simpl; [reflexivity|].
  now rewrite length_insert_by, IH.
Qed.
End Orderings.

Lemma sorted_filter {A : Type} (R : A -> A -> Prop) (p : A -> bool)
  (l : list A) :
  StronglySorted R l -> StronglySorted R (filter p l).
Proof.
  induction 1 as [|a l Hsorted IH Hall]; simpl; [constructor|].
  destruct (p a); [|exact IH].
  constructor; [exact IH|].
  rewrite Forall_forall in Hall |- *. intros b Hb.
  apply filter_In in Hb as [Hb _]. now apply Hall.
Qed.

Lemma sorted_map {A B : Type} (R : A -> A -> Prop) (S : B -> B -> Prop)
  (f : A -> B) (l : list A) :
  (forall a b, R a b -> S (f a) (f b)) ->
  StronglySorted R l -> StronglySorted S (map f l).
Proof.
  intros Hf. induction 1 as [|a l Hsorted IH Hall]; simpl; [constructor|].
  constructor; [exact IH|].
  rewrite Forall_forall in Hall |- *. intros b Hb.
  apply in_map_iff in Hb as [x [<- Hx]]. apply Hf. now apply Hall.
Qed.

Lemma length_filter_cover {A : Type} (p q : A -> bool) (l : list A) :
  (forall x, In x l -> p x = true -> q x = false) ->
  (forall x, In x l -> p x = true \/ q x = true) ->
  (List.length (filter p l) + List.length (filter q l))%nat = List.length l.
Proof.
  induction l as [|a l IH]; intros Hd Hc; [reflexivity|].
  assert (IH' := IH (fun x Hx => Hd x (or_intror Hx))
                    (fun x Hx => Hc x (or_intror Hx))).
  simpl. destruct (p a) eqn:Ep.
  - rewrite (Hd a (or_introl eq_refl) Ep). simpl. lia.
  - destruct (Hc a (or_introl eq_refl)) as [E | E]; [congruence|].
    rewrite E. simpl. lia.
Qed.

(* ================================================================== *)
(** * What a dashboard entry says about its job *)

Section DashboardEntries.
Import Permissions Serializers Views.

(** X19: the numbers in a dashboard entry add up.  [tasks_count] is the
    number of tasks of the job and [completed_tasks] the number of those
    that are COMPLETED; the active tasks listed and the completed ones
    together never exceed [tasks_count], and make it up exactly when
    every task of the job has one of the three task statuses. *)
Theorem dashboard_task_counts (db : DB) (job : Job.t) :
  let entry := job_data db job in
  let tasks :=
    filter (fun t => JobTask.job t =? Job.id job) (job_tasks db) in
  JobData.tasks_count entry = List.length tasks
  /\ JobData.completed_tasks entry
     = List.length
         (filter (fun t => String.eqb (JobTask.status t) "COMPLETED") tasks)
  /\ (List.length (JobData.active_tasks entry)
      + JobData.completed_tasks entry <= JobData.tasks_count entry)%nat
  /\ ((forall t, In t tasks ->
                 str_in (JobTask.status t) JobTask.STATUS_CHOICES = true) ->
      (List.length (JobData.active_tasks entry)
       + JobData.completed_tasks entry)%nat
      = JobData.tasks_count entry).
Proof.
  intros entry tasks.
  set (active := fun t : JobTask.t =>
                   str_in (JobTask.status t)
                          ["NOT_STARTED"; "IN_PROGRESS"]%string).
  set (done := fun t : JobTask.t => String.eqb (JobTask.status t) "COMPLETED").
  assert (Hcount : JobData.tasks_count entry = List.length tasks)
    by apply length_order_by.
  assert (Hdone : JobData.completed_tasks entry
                  = List.length (filter done tasks))
    by apply length_filter_order_by.
  assert (Hactive : List.length (JobData.active_tasks entry)
                    = List.length (filter active tasks)).
  { subst entry. unfold job_data. cbn [JobData.active_tasks].
    rewrite length_map, length_order_by. apply length_filter_order_by. }
  assert (Hdisjoint : forall t, active t = true -> done t = false).
  { intros t Ht. subst active done. cbn beta in *.
    apply str_in_two in Ht as [-> | ->]; reflexivity. }
  split; [exact Hcount|]. split; [exact Hdone|]. split.
  - rewrite Hcount, Hdone, Hactive.
    apply length_filter_disjoint. exact Hdisjoint.
  - intros Hall. rewrite Hcount, Hdone, Hactive.
    apply length_filter_cover.
    + intros t _. apply Hdisjoint.
    + intros t Ht. specialize (Hall t Ht). subst active done. cbn beta.
      unfold JobTask.STATUS_CHOICES in Hall.
      rewrite !str_in_cons in Hall. rewrite str_in_two, String.eqb_eq.
      unfold str_in in Hall; simpl in Hall. intuition discriminate.
Qed.

(** X20: the active tasks of a dashboard entry are the checklist still to
    do, in checklist order: exactly the tasks of the job whose status is
    NOT_STARTED or IN_PROGRESS, sorted by [order], each with its id,
    title, description, order and status, and with its equipment
    requirements: one line for every ledger row of that task, in ledger
    order, giving the name and type of the catalog item, the quantity
    and the notes of the row. *)
Theorem active_tasks_in_checklist_order (db : DB) (job : Job.t) :
  let entry := job_data db job in
  StronglySorted (fun a b => ActiveTask.order a <= ActiveTask.order b)
                 (JobData.active_tasks entry)
  /\ (forall a,
        In a (JobData.active_tasks entry) <->
        exists t,
          In t (job_tasks db) /\ JobTask.job t = Job.id job
          /\ (JobTask.status t = "NOT_STARTED"%string
              \/ JobTask.status t = "IN_PROGRESS"%string)
          /\ a = ActiveTask.mk (JobTask.id t) (JobTask.title t)
                   (JobTask.description t) (JobTask.order t)
                   (JobTask.status t)
                   (map (fun r =>
                           RequiredEquipment.mk
                             (Equipment.name (JobTaskEquipment.equipment r))
                             (Equipment.eq_type (JobTaskEquipment.equipment r))
                             (JobTaskEquipment.quantity r)
                             (JobTaskEquipment.notes r))
                        (filter (fun r => JobTaskEquipment.job_task r
                                          =? JobTask.id t)
                                (job_task_equipment db))))
  /\ (forall a,
        In a (JobData.active_tasks entry) ->
        map RequiredEquipment.quantity (ActiveTask.required_equipment a)
        = map JobTaskEquipment.quantity
              (filter (fun r => JobTaskEquipment.job_task r =? ActiveTask.id a)
                      (job_task_equipment db))
        /\ map RequiredEquipment.equipment_name
               (ActiveTask.required_equipment a)
           = map (fun r => Equipment.name (JobTaskEquipment.equipment r))
                 (filter (fun r => JobTaskEquipment.job_task r
                                   =? ActiveTask.id a)
                         (job_task_equipment db))).
Proof.
  intros entry. subst entry. unfold job_data. cbn [JobData.active_tasks].
  split; [|split].
  - eapply sorted_map; [|apply order_by_sorted].
    intros a b Hab. exact Hab.
  - intros a. rewrite in_map_iff. split.
    + intros [t [<- Ht]]. exists t.
      apply in_order_by in Ht. apply filter_In in Ht as [Ht Hs].
      unfold jobtask_set in Ht. apply in_order_by in Ht.
      apply filter_In in Ht as [Ht Hj].
      apply Z.eqb_eq in Hj. apply str_in_two in Hs. auto.
    + intros [t [Ht [Hj [Hs ->]]]]. exists t. split; [reflexivity|].
      apply in_order_by. apply filter_In. split.
      * unfold jobtask_set. apply in_order_by. apply filter_In.
        split; [exact Ht | now apply Z.eqb_eq].
      * now apply str_in_two.
  - intros a Ha. apply in_map_iff in Ha as [t [<- _]].
    cbn [ActiveTask.required_equipment ActiveTask.id].
    unfold required_equipment, jobtaskequipment_set.
    rewrite !map_map. split; reflexivity.
Qed.

(** X21: within every bucket of the dashboard the jobs come newest
    first: the bucket is the entries of the technician's jobs that
    belong in it, in non-increasing order of [created_at]. *)
Theorem buckets_newest_first
  (today : date) (db : DB) (u : User.t) (g : GroupedJobs.t) (s : Summary.t)
  (b : Bucket) :
  User.role u = "TECHNICIAN"%string ->
  TechnicianDashboardView_get today (AuthUser u) db
  = (Ok (mkResponse 200 (Dashboard g s)), db) ->
  exists js,
    bucket g b = map (job_data db) js
    /\ StronglySorted (fun j j' => Job.created_at j' <= Job.created_at j) js
    /\ (forall j, In j js <->
                  In j (jobs db) /\ Job.assigned_to j = User.id u
                  /\ Job.status j <> "COMPLETED"%string
                  /\ bucket_of today j = b).
Proof.
  intros Hrole Hget. rewrite dashboard_cases in Hget by exact Hrole.
  destruct (QuerySet.exists_ (assigned_jobs db (AuthUser u)));
    [|discriminate].
  inversion Hget; subst g s.
  exists (filter (fun j => listed j && Bucket_eqb (bucket_of today j) b)
                 (assigned_jobs db (AuthUser u))).
  split; [apply bucket_grouped_for|]. split.
  - apply sorted_filter. unfold assigned_jobs.
    eapply StronglySorted_ind with
      (P := fun l => StronglySorted
                       (fun j j' => Job.created_at j' <= Job.created_at j) l);
      [constructor | | apply (order_by_sorted (fun j => - Job.created_at j))].
    intros a l _ IH Hall. constructor; [exact IH|].
    rewrite Forall_forall in Hall |- *. intros x Hx.
    specialize (Hall x Hx). cbv beta in Hall. lia.
  - intros j. rewrite filter_In, in_assigned_jobs, andb_true_iff,
      listed_spec, Bucket_eqb_eq. tauto.
Qed.
End DashboardEntries.

(* ================================================================== *)
(** * Creating a task *)

Section Creation.
Import Permissions Serializers Views TaskCreation.

Lemma get_snoc {A : Type} (pk_of : A -> Z) (pk : Z) (l : list A) (x : A) :
  (forall r, In r l -> pk_of r <> pk) ->
  pk_of x = pk ->
  QuerySet.get pk_of pk (l ++ [x]) = Some x.
Proof.
  unfold QuerySet.get. intros Hfresh Hx.
  induction l as [|a l IH]; simpl.
  - rewrite Hx, Z.eqb_refl. reflexivity.
  - assert (Ha : (pk_of a =? pk) = false)
      by (apply Z.eqb_neq, Hfresh; now left).
    rewrite Ha. apply IH. intros r Hr. apply Hfresh. now right.
Qed.

Lemma get_snoc_other {A : Type} (pk_of : A -> Z) (pk : Z) (l : list A)
  (x : A) :
  pk_of x <> pk ->
  QuerySet.get pk_of pk (l ++ [x]) = QuerySet.get pk_of pk l.
Proof.
  unfold QuerySet.get. intros Hx.
  induction l as [|a l IH]; simpl.
  - apply Z.eqb_neq in Hx. now rewrite Hx.
  - destruct (pk_of a =? pk); [reflexivity | exact IH].
Qed.

(** X22: [JobTaskSerializer.create] stores the task and its requirements.
    For a new key, an existing job, an [order] the job does not use yet
    and a requirement list the database takes, the call returns the
    task; missing fields have the model defaults ([order] 1, status
    NOT_STARTED); the task can be fetched under its key; its ledger is the
    submitted list (empty when no list was sent); other tasks and their
    ledgers are as before.  The completion stamp is whatever was sent:
    creation does not stamp a task that is created COMPLETED. *)
Theorem task_creation
  (pk job_pk : Z) (v : TaskData.t) (db : DB) :
  TaskData.job v = Some job_pk ->
  QuerySet.get Job.id job_pk (jobs db) <> None ->
  (forall t, In t (job_tasks db) -> JobTask.id t <> pk) ->
  (forall t, In t (job_tasks db) -> JobTask.job t = job_pk ->
             JobTask.order t <> or_else (TaskData.order v) 1) ->
  0 <= or_else (TaskData.order v) 1 ->
  (forall r, In r (job_task_equipment db) ->
             JobTaskEquipment.job_task r <> pk) ->
  acceptable (equipment_catalog db)
             (or_else (TaskData.equipment_requirements v) []) ->
  let task :=
    JobTask.mk pk
      (or_else (TaskData.title v) EmptyString)
      (or_else (TaskData.description v) EmptyString)
      (or_else (TaskData.order v) 1)
      (or_else (TaskData.completed_at v) None)
      (or_else (TaskData.status v) "NOT_STARTED"%string)
      job_pk in
  exists db',
    JobTaskSerializer_create pk v db = (Ok task, db')
    /\ QuerySet.get JobTask.id pk (job_tasks db') = Some task
    /\ map ledger_entry (jobtaskequipment_set db' pk)
       = map requested_entry (or_else (TaskData.equipment_requirements v) [])
    /\ (forall pk', pk' <> pk ->
          QuerySet.get JobTask.id pk' (job_tasks db')
          = QuerySet.get JobTask.id pk' (job_tasks db)
          /\ jobtaskequipment_set db' pk' = jobtaskequipment_set db pk')
    /\ jobs db' = jobs db.
Proof.
  intros Hjob Hfound Hfresh Horder Hnonneg Hledger Hacc task.
  set (db1 := with_job_tasks (job_tasks db ++ [task]) db).
  assert (Hinsert : JobTask_objects_create pk v db = (Ok task, db1)).
  { unfold JobTask_objects_create. rewrite Hjob. fold task.
    destruct (QuerySet.get Job.id job_pk (jobs db)) as [parent|];
      [|contradiction].
    replace (existsb (fun t => JobTask.id t =? pk) (job_tasks db)) with false.
    - replace (existsb (fun t => (JobTask.job t =? job_pk)
                                 && (JobTask.order t =? JobTask.order task))
                       (job_tasks db)) with false.
      + apply Z.ltb_ge in Hnonneg. subst task. cbn [JobTask.order].
        now rewrite Hnonneg.
      + symmetry. apply not_true_is_false. intros Hex.
        apply existsb_exists in Hex as [t [Ht Hc]].
        apply andb_true_iff in Hc as [H1 H2]. apply Z.eqb_eq in H1, H2.
        exact (Horder t Ht H1 H2).
    - symmetry. apply not_true_is_false. intros Hex.
      apply existsb_exists in Hex as [t [Ht Hc]]. apply Z.eqb_eq in Hc.
      exact (Hfresh t Ht Hc). }
  destruct (create_requirements_ok pk (equipment_catalog db)
              (or_else (TaskData.equipment_requirements v) []) db1)
    as [rows [seq' [Hloop [Hrows Htasks]]]].
  - reflexivity.
  - exact Hacc.
  - intros r Hr Hpk. elim (Hledger r Hr Hpk).
  - exists (with_job_task_equipment (job_task_equipment db1 ++ rows) seq' db1).
    split; [|split; [|split; [|split]]].
    + unfold JobTaskSerializer_create. unfold bind at 1. rewrite Hinsert.
      unfold bind, ret. cbn [JobTask.id]. subst task. cbn [JobTask.id].
      now rewrite Hloop.
    + cbn [with_job_task_equipment with_job_tasks job_tasks].
      apply get_snoc; [exact Hfresh | reflexivity].
    + unfold jobtaskequipment_set.
      cbn [with_job_task_equipment with_job_tasks job_task_equipment].
      rewrite filter_app.
      rewrite (filter_none _ (job_task_equipment db)).
      * cbn [app]. rewrite filter_all; [exact Hrows|].
        eapply Forall_impl; [|exact Htasks].
        intros r Hr. now apply Z.eqb_eq.
      * intros r Hr. apply Z.eqb_neq. now apply Hledger.
    + intros pk' Hne. split.
      * cbn [with_job_task_equipment with_job_tasks job_tasks].
        apply get_snoc_other. subst task. cbn [JobTask.id]. congruence.
      * unfold jobtaskequipment_set.
        cbn [with_job_task_equipment with_job_tasks job_task_equipment].
        rewrite filter_app, (filter_none _ rows); [now rewrite app_nil_r|].
        intros r Hr. apply Z.eqb_neq.
        rewrite Forall_forall in Htasks. rewrite (Htasks r Hr). congruence.
    + reflexivity.
Qed.

(** X23: who may use the general task endpoints, read off
    [CanManageTasks].  An admin or a sales agent is granted every method
    and every object; any other authenticated role that is not
    TECHNICIAN is granted GET at the view level only and no object. *)
Theorem can_manage_tasks_by_role (u : User.t) (method : Method) :
  (CanManageTasks_has_permission (AuthUser u) method = true <->
   User.role u <> "TECHNICIAN"%string
   /\ (method = GET \/ User.role u = "ADMIN"%string
       \/ User.role u = "SALES_AGENT"%string))
  /\ (CanManageTasks_has_object_permission (AuthUser u) = Ok true <->
      User.role u = "ADMIN"%string \/ User.role u = "SALES_AGENT"%string).
Proof.
  unfold CanManageTasks_has_permission, CanManageTasks_has_object_permission.
  cbn [is_authenticated negb role_is role_in].
  destruct (String.eqb (User.role u) "TECHNICIAN") eqn:Et.
  - apply String.eqb_eq in Et. rewrite Et. split; split;
      try discriminate; intros H;
      [destruct H as [H _]; now elim H
      | destruct H as [H | H]; discriminate].
  - apply String.eqb_neq in Et. split.
    + destruct method; rewrite ?str_in_two; split;
        try (intros H; split; [exact Et | tauto]);
        try (intros [_ [H | H]]; [discriminate | exact H]);
        try reflexivity.
    + rewrite <- str_in_two. split.
      * intros H. congruence.
      * intros ->. reflexivity.
Qed.
End Creation.

(* ================================================================== *)
(** * More runs on the sample store *)

Section MoreRuns.
Import Permissions Serializers Views JobResponses TaskResponses TaskCreation.

(** Technician 7 completes the open task 10 on day 5: it is saved as
    COMPLETED with the stamp of day 5. *)
Lemma technician_task_transition_timestamp_witness :
  let now := 5 * Sample.day in
  (User.role Sample.technician = "TECHNICIAN"%string
   /\ QuerySet.get JobTask.id 10 (job_tasks Sample.db) = Some Sample.task1
   /\ QuerySet.get Job.id (JobTask.job Sample.task1) (jobs Sample.db)
      = Some Sample.job1
   /\ Job.assigned_to Sample.job1 = User.id Sample.technician
   /\ str_in "COMPLETED" TASK_STATUSES = true)
  /\ exists task' db',
       TechnicianTaskUpdateView_patch now (AuthUser Sample.technician) 10
         (Some "COMPLETED"%string) Sample.db
       = (Ok (task_status_updated Sample.task1 "COMPLETED"
                (JobTask.completed_at task')), db')
       /\ QuerySet.get JobTask.id 10 (job_tasks db') = Some task'
       /\ JobTask.status task' = "COMPLETED"%string
       /\ JobTask.completed_at task' = Some now.
Proof.
  intros now. split; [repeat split|].
  destruct (technician_task_transition_timestamp now Sample.db
              Sample.technician 10 Sample.task1 Sample.job1 "COMPLETED"
              eq_refl eq_refl eq_refl eq_refl eq_refl)
    as [task' [db' [Hrun [Hget [Hst [_ [Hstamp _]]]]]]].
  exists task', db'. repeat split; try assumption.
  exact (Hstamp eq_refl eq_refl).
Defined.

(** Technician 8 is refused task 10, which belongs to a job of
    technician 7. *)
Lemma technician_task_forbidden_witness :
  (User.role Sample.idle_technician = "TECHNICIAN"%string
   /\ QuerySet.get JobTask.id 10 (job_tasks Sample.db) = Some Sample.task1
   /\ QuerySet.get Job.id (JobTask.job Sample.task1) (jobs Sample.db)
      = Some Sample.job1
   /\ Job.assigned_to Sample.job1 <> User.id Sample.idle_technician)
  /\ TechnicianTaskUpdateView_patch (5 * Sample.day)
       (AuthUser Sample.idle_technician) 10 (Some "COMPLETED"%string)
       Sample.db
     = (Ok task_not_assigned, Sample.db).
Proof.
  assert (Hother : Job.assigned_to Sample.job1
                   <> User.id Sample.idle_technician) by discriminate.
  split; [repeat split; exact Hother|].
  exact (technician_task_forbidden (5 * Sample.day) Sample.db
           Sample.idle_technician 10 Sample.task1 Sample.job1
           (Some "COMPLETED"%string) eq_refl eq_refl eq_refl Hother).
Defined.

(** Completing task 10 leaves job 1 IN_PROGRESS, task 11 as it was, and
    task 10 with its title and order. *)
Lemma task_patch_touches_one_task_witness :
  let db' :=
    snd (TechnicianTaskUpdateView_patch (5 * Sample.day)
           (AuthUser Sample.technician) 10 (Some "COMPLETED"%string)
           Sample.db) in
  jobs db' = jobs Sample.db
  /\ (11 <> 10
      /\ QuerySet.get JobTask.id 11 (job_tasks db') = Some Sample.task2)
  /\ (QuerySet.get JobTask.id 10 (job_tasks Sample.db) = Some Sample.task1
      /\ exists t', QuerySet.get JobTask.id 10 (job_tasks db') = Some t'
                    /\ JobTask.title t' = JobTask.title Sample.task1
                    /\ JobTask.order t' = JobTask.order Sample.task1).
Proof.
  intros db'.
  destruct (task_patch_touches_one_task (5 * Sample.day)
              (AuthUser Sample.technician) 10 (Some "COMPLETED"%string)
              Sample.db) as [Hjobs [_ [_ [_ [Hother Hself]]]]].
  fold db' in Hjobs, Hother, Hself.
  assert (Hne : 11 <> 10) by discriminate.
  split; [exact Hjobs|]. split.
  - split; [exact Hne|]. rewrite (Hother 11 Hne). reflexivity.
  - split; [reflexivity|].
    destruct (QuerySet.get JobTask.id 10 (job_tasks db')) as [t'|] eqn:E.
    + exists t'. destruct (Hself Sample.task1 t' eq_refl eq_refl)
        as [_ [Ht [_ [Ho _]]]]. auto.
    + vm_compute in E. discriminate.
Defined.

(** Cancelling job 1 leaves its tasks, job 2, and the rest of job 1's
    row: its title, its schedule, its assignee and its overdue flag. *)
Lemma job_patch_touches_one_status_witness :
  let db' :=
    snd (TechnicianJobUpdateView_patch (AuthUser Sample.technician) 1
           (Some "CANCELLED"%string) Sample.db) in
  job_tasks db' = job_tasks Sample.db
  /\ (2 <> 1 /\ QuerySet.get Job.id 2 (jobs db') = Some Sample.job2)
  /\ (QuerySet.get Job.id 1 (jobs Sample.db) = Some Sample.job1
      /\ exists j', QuerySet.get Job.id 1 (jobs db') = Some j'
                    /\ Job.title j' = "Install"%string
                    /\ Job.scheduled_date j' = Some (3 * Sample.day + 5)
                    /\ Job.assigned_to j' = 7
                    /\ Job.overdue j' = false).
Proof.
  intros db'.
  destruct (job_patch_touches_one_status (AuthUser Sample.technician) 1
              (Some "CANCELLED"%string) Sample.db)
    as [Htasks [_ [_ [_ [Hother Hself]]]]].
  fold db' in Htasks, Hother, Hself.
  assert (Hne : 2 <> 1) by discriminate.
  split; [exact Htasks|]. split.
  - split; [exact Hne|]. rewrite (Hother 2 Hne). reflexivity.
  - split; [reflexivity|].
    destruct (QuerySet.get Job.id 1 (jobs db')) as [j'|] eqn:E.
    + exists j'. split; [reflexivity|].
      destruct (Hself Sample.job1 j' eq_refl eq_refl)
        as [_ [Htitle [_ [_ [Hsched [_ [_ [Hassigned [_ [Hflag _]]]]]]]]]].
      split; [exact Htitle|]. split; [exact Hsched|].
      split; [exact Hassigned | exact Hflag].
    + vm_compute in E. discriminate.
Defined.

(** The admin of the sample store on the three technician endpoints. *)
Lemma technician_endpoints_refuse_other_roles_witness :
  User.role Sample.admin <> "TECHNICIAN"%string
  /\ TechnicianDashboardView_get 3 (AuthUser Sample.admin) Sample.db
     = (Ok technicians_only, Sample.db)
  /\ TechnicianTaskUpdateView_patch (5 * Sample.day) (AuthUser Sample.admin)
       10 (Some "COMPLETED"%string) Sample.db
     = (Ok technicians_only, Sample.db)
  /\ TechnicianJobUpdateView_patch (AuthUser Sample.admin) 10
       (Some "COMPLETED"%string) Sample.db
     = (Ok technicians_only, Sample.db).
Proof.
  assert (Hrole : User.role Sample.admin <> "TECHNICIAN"%string)
    by discriminate.
  split; [exact Hrole|].
  exact (proj1 (technician_endpoints_refuse_other_roles (5 * Sample.day) 3
                  Sample.db Sample.admin 10 (Some "COMPLETED"%string))
               Hrole).
Defined.

(** Technician 7 asks for job 99 and task 99, which do not exist. *)
Lemma technician_patch_unknown_object_witness :
  (User.role Sample.technician = "TECHNICIAN"%string
   /\ QuerySet.get Job.id 99 (jobs Sample.db) = None
   /\ QuerySet.get JobTask.id 99 (job_tasks Sample.db) = None)
  /\ TechnicianJobUpdateView_patch (AuthUser Sample.technician) 99
       (Some "DONE"%string) Sample.db
     = (Raise Http404, Sample.db)
  /\ TechnicianTaskUpdateView_patch (5 * Sample.day)
       (AuthUser Sample.technician) 99 (Some "DONE"%string) Sample.db
     = (Raise Http404, Sample.db).
Proof.
  destruct (technician_patch_unknown_object (5 * Sample.day) Sample.db
              Sample.technician 99 (Some "DONE"%string) eq_refl)
    as [Hjob Htask].
  split; [repeat split|].
  split; [exact (Hjob eq_refl) | exact (Htask eq_refl)].
Defined.

(** Technician 7 sends NOT_STARTED for job 1 and CANCELLED for task 10. *)
Lemma technician_patch_invalid_status_witness :
  (User.role Sample.technician = "TECHNICIAN"%string
   /\ Job.assigned_to Sample.job1 = User.id Sample.technician
   /\ QuerySet.get Job.id 1 (jobs Sample.db) = Some Sample.job1
   /\ QuerySet.get JobTask.id 10 (job_tasks Sample.db) = Some Sample.task1)
  /\ TechnicianJobUpdateView_patch (AuthUser Sample.technician) 1
       (Some "NOT_STARTED"%string) Sample.db
     = (Ok job_invalid_status, Sample.db)
  /\ TechnicianTaskUpdateView_patch (5 * Sample.day)
       (AuthUser Sample.technician) 10 (Some "CANCELLED"%string) Sample.db
     = (Ok task_invalid_status, Sample.db)
  /\ TechnicianJobUpdateView_patch (AuthUser Sample.technician) 1 None
       Sample.db
     = (Ok job_invalid_status, Sample.db).
Proof.
  destruct (technician_patch_invalid_status (5 * Sample.day) Sample.db
              Sample.technician Sample.job1 eq_refl eq_refl)
    as [Hjob Htask].
  split; [repeat split|]. split; [|split].
  - apply (Hjob 1 (Some "NOT_STARTED"%string) eq_refl). right.
    exists "NOT_STARTED"%string. repeat split; discriminate.
  - apply (Htask 10 Sample.task1 (Some "CANCELLED"%string) eq_refl eq_refl).
    right. exists "CANCELLED"%string. repeat split; discriminate.
  - apply (Hjob 1 None eq_refl). left. reflexivity.
Defined.

(** Technician 7 moves the COMPLETED job 3 back to PENDING. *)
Lemma ungated_job_transitions_witness :
  (User.role Sample.technician = "TECHNICIAN"%string
   /\ QuerySet.get Job.id 3 (jobs Sample.db) = Some Sample.job3
   /\ Job.assigned_to Sample.job3 = User.id Sample.technician
   /\ Job.status Sample.job3 = "COMPLETED"%string)
  /\ exists db',
       TechnicianJobUpdateView_patch (AuthUser Sample.technician) 3
         (Some "PENDING"%string) Sample.db
       = (Ok (mkResponse 200
                (JobStatusUpdated
                   "Job status updated from COMPLETED to PENDING"
                   3 "Repair" "PENDING" "Initech")),
          db')
       /\ QuerySet.get Job.id 3 (jobs db')
          = Some (Job.set_status "PENDING" Sample.job3).
Proof.
  split; [repeat split|].
  exact (ungated_job_transitions Sample.db Sample.technician 3 Sample.job3
           "PENDING" eq_refl eq_refl eq_refl (or_introl eq_refl)).
Defined.

(** Technician 7 on the general endpoints, for the job and the task
    that are the technician's own. *)
Lemma general_endpoints_refuse_technicians_witness :
  (exists u, AuthUser Sample.technician = AuthUser u
             /\ User.role u = "TECHNICIAN"%string)
  /\ JobViewSet_partial_update (AuthUser Sample.technician) 1
       (Some "CANCELLED"%string) Sample.db
     = (Raise PermissionDenied, Sample.db)
  /\ JobTaskViewSet_partial_update Sample.max_quantity (5 * Sample.day)
       (AuthUser Sample.technician) 10 (Some "COMPLETED"%string) None
       Sample.db
     = (Raise PermissionDenied, Sample.db)
  /\ CanManageTasks_has_object_permission (AuthUser Sample.technician)
     = Ok false.
Proof.
  assert (Htech : exists u, AuthUser Sample.technician = AuthUser u
                            /\ User.role u = "TECHNICIAN"%string)
    by (exists Sample.technician; split; reflexivity).
  destruct (general_endpoints_refuse_technicians Sample.max_quantity
              (5 * Sample.day) Sample.db
              (AuthUser Sample.technician) 1 (Some "CANCELLED"%string) None
              (or_intror Htech)) as [Hjob _].
  destruct (general_endpoints_refuse_technicians Sample.max_quantity
              (5 * Sample.day) Sample.db
              (AuthUser Sample.technician) 10 (Some "COMPLETED"%string) None
              (or_intror Htech)) as [_ [Htask [_ Hobject]]].
  split; [exact Htech|]. split; [exact Hjob|].
  split; [exact Htask | exact Hobject].
Defined.

(** The sales agent asks [JobViewSet] for job 99 and for a status that
    does not exist. *)
Lemma job_viewset_errors_witness :
  (User.role MoreSamples.sales_agent = "SALES_AGENT"%string
   /\ QuerySet.get Job.id 99 (jobs Sample.db) = None
   /\ QuerySet.get Job.id 1 (jobs Sample.db) = Some Sample.job1)
  /\ JobViewSet_partial_update (AuthUser MoreSamples.sales_agent) 99
       (Some "PENDING"%string) Sample.db
     = (Raise Http404, Sample.db)
  /\ JobViewSet_partial_update (AuthUser MoreSamples.sales_agent) 1
       (Some "DONE"%string) Sample.db
     = (Raise ValidationError, Sample.db).
Proof.
  destruct (job_viewset_errors Sample.db MoreSamples.sales_agent 99
              (or_intror eq_refl)) as [Hmissing _].
  destruct (job_viewset_errors Sample.db MoreSamples.sales_agent 1
              (or_intror eq_refl)) as [_ Hinvalid].
  split; [repeat split|]. split.
  - exact (Hmissing (Some "PENDING"%string) eq_refl).
  - apply (Hinvalid Sample.job1 "DONE"%string eq_refl); discriminate.
Defined.

(** Task 10 on days 5, 6 and 7: completed, completed again, reopened,
    completed again. *)
Lemma completion_stamp_is_kept_and_renewed_witness :
  let patch now status d :=
    snd (TechnicianTaskUpdateView_patch now (AuthUser Sample.technician) 10
           (Some status) d) in
  let stored d :=
    option_map JobTask.completed_at
               (QuerySet.get JobTask.id 10 (job_tasks d)) in
  (User.role Sample.technician = "TECHNICIAN"%string
   /\ QuerySet.get JobTask.id 10 (job_tasks Sample.db) = Some Sample.task1
   /\ Job.assigned_to Sample.job1 = User.id Sample.technician
   /\ JobTask.completed_at Sample.task1 = None)
  /\ stored (patch (6 * Sample.day) "COMPLETED"%string
               (patch (5 * Sample.day) "COMPLETED"%string Sample.db))
     = Some (Some (5 * Sample.day))
  /\ stored (patch (7 * Sample.day) "COMPLETED"%string
               (patch (6 * Sample.day) "IN_PROGRESS"%string
                  (patch (5 * Sample.day) "COMPLETED"%string Sample.db)))
     = Some (Some (7 * Sample.day)).
Proof.
  intros patch stored.
  destruct (completion_stamp_is_kept_and_renewed Sample.db Sample.technician
              10 Sample.task1 Sample.job1
              (5 * Sample.day) (6 * Sample.day) (7 * Sample.day)
              "IN_PROGRESS" eq_refl eq_refl eq_refl eq_refl eq_refl
              (or_intror eq_refl))
    as [_ [Hkept [_ Hrenewed]]].
  split; [repeat split|]. split; [exact Hkept | exact Hrenewed].
Defined.

(** Job 1 has the open task 10 and the completed task 11: technician 7
    completes task 10, then the job. *)
Lemma last_task_unlocks_completion_witness :
  let db1 :=
    snd (TechnicianTaskUpdateView_patch (5 * Sample.day)
           (AuthUser Sample.technician) 10 (Some "COMPLETED"%string)
           Sample.db) in
  let outcome :=
    TechnicianJobUpdateView_patch (AuthUser Sample.technician) 1
      (Some "COMPLETED"%string) db1 in
  (User.role Sample.technician = "TECHNICIAN"%string
   /\ QuerySet.get Job.id 1 (jobs Sample.db) = Some Sample.job1
   /\ QuerySet.get JobTask.id 10 (job_tasks Sample.db) = Some Sample.task1
   /\ forall t, In t (job_tasks Sample.db) ->
                JobTask.job t = Job.id Sample.job1 -> JobTask.id t <> 10 ->
                JobTask.status t = "COMPLETED"%string)
  /\ fst outcome = Ok (job_status_updated Sample.job1 "COMPLETED")
  /\ QuerySet.get Job.id 1 (jobs (snd outcome))
     = Some (Job.set_status "COMPLETED" Sample.job1).
Proof.
  intros db1 outcome.
  assert (Hothers : forall t, In t (job_tasks Sample.db) ->
                              JobTask.job t = Job.id Sample.job1 ->
                              JobTask.id t <> 10 ->
                              JobTask.status t = "COMPLETED"%string).
  { intros t [<-|[<-|[<-|[]]]] Hjob Hid; try reflexivity.
    elim Hid. reflexivity. }
  destruct (last_task_unlocks_completion (5 * Sample.day) Sample.db
              Sample.technician 1 10 Sample.job1 Sample.task1
              eq_refl eq_refl eq_refl eq_refl eq_refl Hothers)
    as [_ [Hanswer Hsaved]].
  split; [repeat split; exact Hothers|].
  split; [exact Hanswer | exact Hsaved].
Defined.

(** The admin sets task 10 to COMPLETED through the serializer on day 5:
    the saved task is stamped with day 5. *)
Lemma serializer_update_stamps_completed_witness :
  let v :=
    TaskData.mk None None None (Some "COMPLETED"%string) None None None in
  let t' :=
    JobTask.mk 10 "Mount" "" 1 (Some (5 * Sample.day)) "COMPLETED" 1 in
  let db' := with_job_tasks [t'; Sample.task2; Sample.task3] Sample.db in
  (QuerySet.get JobTask.id (JobTask.id Sample.task1) (job_tasks Sample.db)
   = Some Sample.task1
   /\ JobTaskSerializer_update (5 * Sample.day) Sample.task1 v Sample.db
      = (Ok t', db'))
  /\ QuerySet.get JobTask.id 10 (job_tasks db') = Some t'
  /\ JobTask.completed_at t' <> None.
Proof.
  intros v t' db'.
  assert (Hrun : JobTaskSerializer_update (5 * Sample.day) Sample.task1 v
                   Sample.db = (Ok t', db'))
    by (vm_compute; reflexivity).
  destruct (serializer_update_stamps_completed (5 * Sample.day) Sample.db db'
              Sample.task1 t' v eq_refl Hrun) as [Hget [Hstamped _]].
  split; [split; [reflexivity | exact Hrun]|].
  split; [exact Hget | exact (Hstamped eq_refl)].
Defined.

(** The sample store swept on day 5 and again on day 9. *)
Lemma later_sweep_never_clears_witness :
  let first := Tasks.check_overdue_jobs (5 * Sample.day) Sample.db in
  let second := Tasks.check_overdue_jobs (9 * Sample.day) (snd first) in
  5 * Sample.day <= 9 * Sample.day
  /\ Tasks.cleared_overdue (fst first) = 2%nat
  /\ Tasks.cleared_overdue (fst second) = 0%nat.
Proof.
  intros first second.
  assert (Hle : 5 * Sample.day <= 9 * Sample.day)
    by (vm_compute; discriminate).
  split; [exact Hle|]. split; [vm_compute; reflexivity|].
  exact (proj1 (later_sweep_never_clears (5 * Sample.day) (9 * Sample.day)
                  Sample.db Hle)).
Defined.

Lemma db_with_ledger_unique :
  NoDup (map ledger_pair (job_task_equipment MoreSamples.db_with_ledger)).
Proof. repeat constructor. simpl. tauto. Defined.

Lemma db_with_ledger_well_formed :
  Forall (fun r => 0 <= JobTaskEquipment.quantity r
                   /\ In (JobTaskEquipment.equipment r)
                         (equipment_catalog MoreSamples.db_with_ledger))
         (job_task_equipment MoreSamples.db_with_ledger).
Proof.
  constructor; [|constructor]. split.
  - vm_compute. discriminate.
  - simpl. auto.
Defined.

(** Task 10 holds two drills; the admin sends a list that names the
    ladder twice.  The update raises and the ledger still has no pair
    twice. *)
Lemma ledger_pairs_stay_unique_witness :
  let v := Sample.only_requirements
             (Some [Sample.req 6 (Some 1); Sample.req 6 (Some 4)]) in
  let outcome :=
    JobTaskSerializer_update (5 * Sample.day) Sample.task1 v
                             MoreSamples.db_with_ledger in
  NoDup (map ledger_pair (job_task_equipment MoreSamples.db_with_ledger))
  /\ fst outcome = Raise IntegrityError
  /\ NoDup (map ledger_pair (job_task_equipment (snd outcome))).
Proof.
  intros v outcome. split; [exact db_with_ledger_unique|].
  split; [vm_compute; reflexivity|].
  exact (ledger_pairs_stay_unique (5 * Sample.day) Sample.task1 v
           MoreSamples.db_with_ledger db_with_ledger_unique).
Defined.

(** The admin sends minus three ladders straight to the serializer: no
    row with a negative quantity is stored. *)
Lemma ledger_rows_stay_well_formed_witness :
  let v := Sample.only_requirements (Some [Sample.req 6 (Some (-3))]) in
  let db' :=
    snd (JobTaskSerializer_update (5 * Sample.day) Sample.task1 v
                                  MoreSamples.db_with_ledger) in
  Forall (fun r => 0 <= JobTaskEquipment.quantity r
                   /\ In (JobTaskEquipment.equipment r)
                         (equipment_catalog MoreSamples.db_with_ledger))
         (job_task_equipment MoreSamples.db_with_ledger)
  /\ Forall (fun r => 0 <= JobTaskEquipment.quantity r
                      /\ In (JobTaskEquipment.equipment r)
                            (equipment_catalog db'))
            (job_task_equipment db').
Proof.
  intros v db'. split; [exact db_with_ledger_well_formed|].
  exact (proj2 (ledger_rows_stay_well_formed (5 * Sample.day) Sample.task1 v
                  MoreSamples.db_with_ledger db_with_ledger_well_formed)).
Defined.


(** The entry of job 1: two tasks, one completed, one active. *)
Lemma dashboard_task_counts_witness :
  let entry := job_data Sample.db Sample.job1 in
  (forall t,
     In t (filter (fun t => JobTask.job t =? Job.id Sample.job1)
                  (job_tasks Sample.db)) ->
     str_in (JobTask.status t) JobTask.STATUS_CHOICES = true)
  /\ JobData.tasks_count entry = 2%nat
  /\ (List.length (JobData.active_tasks entry)
      + JobData.completed_tasks entry)%nat
     = JobData.tasks_count entry.
Proof.
  intros entry.
  assert (Hall : forall t,
             In t (filter (fun t => JobTask.job t =? Job.id Sample.job1)
                          (job_tasks Sample.db)) ->
             str_in (JobTask.status t) JobTask.STATUS_CHOICES = true).
  { intros t [<-|[<-|[]]]; reflexivity. }
  destruct (dashboard_task_counts Sample.db Sample.job1)
    as [Hcount [_ [_ Hsum]]].
  split; [exact Hall|]. split; [exact Hcount | exact (Hsum Hall)].
Defined.

(** The overdue bucket of technician 7 on day 5 holds jobs 2 and 1, the
    newer job 2 first. *)
Lemma buckets_newest_first_witness :
  let g := grouped_for Sample.db 5 (AuthUser Sample.technician) in
  (User.role Sample.technician = "TECHNICIAN"%string
   /\ TechnicianDashboardView_get 5 (AuthUser Sample.technician) Sample.db
      = (Ok (mkResponse 200 (Dashboard g (summary_of g))), Sample.db))
  /\ bucket g Overdue
     = [job_data Sample.db Sample.job2; job_data Sample.db Sample.job1]
  /\ exists js,
       bucket g Overdue = map (job_data Sample.db) js
       /\ StronglySorted
            (fun j j' => Job.created_at j' <= Job.created_at j) js.
Proof.
  intros g.
  assert (Hget : TechnicianDashboardView_get 5 (AuthUser Sample.technician)
                   Sample.db
                 = (Ok (mkResponse 200 (Dashboard g (summary_of g))),
                    Sample.db))
    by (vm_compute; reflexivity).
  destruct (buckets_newest_first 5 Sample.db Sample.technician g
              (summary_of g) Overdue eq_refl Hget) as [js [Hb [Hsorted _]]].
  split; [split; [reflexivity | exact Hget]|].
  split; [vm_compute; reflexivity|].
  exists js. split; assumption.
Defined.

(** A task is created for job 1 under key 13, with order 3, status
    COMPLETED, no stamp, and two ladders. *)
Lemma task_creation_witness :
  let task := JobTask.mk 13 "Test" "" 3 None "COMPLETED" 1 in
  (TaskData.job MoreSamples.new_task = Some 1
   /\ QuerySet.get Job.id 1 (jobs Sample.db) <> None
   /\ acceptable (equipment_catalog Sample.db)
                 (or_else
                    (TaskData.equipment_requirements MoreSamples.new_task) []))
  /\ exists db',
       JobTaskSerializer_create 13 MoreSamples.new_task Sample.db
       = (Ok task, db')
       /\ QuerySet.get JobTask.id 13 (job_tasks db') = Some task
       /\ map ledger_entry (jobtaskequipment_set db' 13)
          = [(Some 6, 2, EmptyString)]
       /\ JobTask.completed_at task = None.
Proof.
  intros task.
  assert (Hfound : QuerySet.get Job.id 1 (jobs Sample.db) <> None)
    by discriminate.
  assert (Hfresh : forall t, In t (job_tasks Sample.db) -> JobTask.id t <> 13).
  { intros t [<-|[<-|[<-|[]]]]; discriminate. }
  assert (Horder : forall t, In t (job_tasks Sample.db) -> JobTask.job t = 1 ->
                             JobTask.order t
                             <> or_else (TaskData.order MoreSamples.new_task) 1).
  { intros t [<-|[<-|[<-|[]]]] _; discriminate. }
  assert (Hnonneg : 0 <= or_else (TaskData.order MoreSamples.new_task) 1)
    by (vm_compute; discriminate).
  assert (Hledger : forall r, In r (job_task_equipment Sample.db) ->
                              JobTaskEquipment.job_task r <> 13)
    by (intros r []).
  assert (Hacc : acceptable (equipment_catalog Sample.db)
                   (or_else
                      (TaskData.equipment_requirements MoreSamples.new_task)
                      [])).
  { split; repeat constructor; simpl; try tauto; try discriminate. }
  destruct (task_creation 13 1 MoreSamples.new_task Sample.db eq_refl Hfound
              Hfresh Horder Hnonneg Hledger Hacc)
    as [db' [Hrun [Hget [Hset _]]]].
  split; [split; [reflexivity | split; assumption]|].
  exists db'. split; [exact Hrun|]. split; [exact Hget|].
  split; [exact Hset | reflexivity].
Defined.
End MoreRuns.
